(** * MedNeXt (nnUNetTrainerMedNeXt.py): a shallow embedding

    The network architecture of
    [nnunetv2/training/nnUNetTrainer/variants/network_architecture/nnUNetTrainerMedNeXt.py]
    is embedded function by function.  The classes of the file become
    records, their [__init__] a function into an error monad (Python
    exceptions are values of [PyError]) and their [forward] a function
    on tensors.

    The file is written against PyTorch.  The operations it borrows
    from [torch] form the interface [Torch]; the code of the repository
    is written once, over any implementation of that interface.  Two
    implementations follow: [Shapes], where a tensor is its shape and
    every layer is its documented shape contract, and [Numeric], where
    a tensor is a nested list of real numbers and the learned layers
    ([Conv], [GroupNorm], [GELU]) stay parameters. *)

From Stdlib Require Import ZArith List String Bool Lia QArith Reals Qreals Lra.
Import ListNotations.
Open Scope string_scope.
Open Scope list_scope.
Open Scope Z_scope.

(* ================================================================== *)
(** * Python exceptions as an error monad *)
(* ================================================================== *)

Inductive PyError : Type :=
| AssertionError
| AttributeError
| IndexError
| NotImplementedError
| RuntimeError
| TypeError
| UnboundLocalError
| ValueError
| ZeroDivisionError.

Inductive result (A : Type) : Type :=
| Ok (a : A)
| Raise (e : PyError).
Arguments Ok {A} a.
Arguments Raise {A} e.

Definition bind {A B : Type} (c : result A) (k : A -> result B) : result B :=
  match c with
  | Ok a => k a
  | Raise e => Raise e
  end.

Notation "x <- c ;; k" := (bind c (fun x => k))
  (at level 61, c at next level, right associativity).

Definition fmap {A B : Type} (f : A -> B) (c : result A) : result B :=
  x <- c ;; Ok (f x).

Definition is_ok {A : Type} (c : result A) : bool :=
  match c with Ok _ => true | Raise _ => false end.

(** [assert b] *)
Definition assert (b : bool) : result unit :=
  if b then Ok tt else Raise AssertionError.

(** Reading an attribute that [__init__] may not have assigned:
    [nn.Module.__getattr__] raises [AttributeError]. *)
Definition getattr {A : Type} (a : option A) : result A :=
  match a with
  | Some v => Ok v
  | None => Raise AttributeError
  end.

(** [l[i]] for a constant, non-negative index. *)
Definition index {A : Type} (l : list A) (i : nat) : result A :=
  match nth_error l i with
  | Some v => Ok v
  | None => Raise IndexError
  end.

(** [[mk for i in range(count)]]: the body is evaluated once per index,
    left to right, and the first exception ends the comprehension. *)
Fixpoint comprehension {A : Type} (n : nat) (mk : result A) : result (list A) :=
  match n with
  | O => Ok []
  | S n' => a <- mk ;; l <- comprehension n' mk ;; Ok (a :: l)
  end.

Definition for_range {A : Type} (count : Z) (mk : result A) : result (list A) :=
  comprehension (Z.to_nat count) mk.

(** [s in ['2d', '3d']] *)
Definition dim_supported (dim : string) : bool :=
  (dim =? "2d")%string || (dim =? "3d")%string.

(** The local [conv] that the constructors bind by
    [if dim == '2d': ... elif dim == '3d': ...]; with any other [dim]
    the name stays unbound and its first use raises. *)
Definition spatial_rank (dim : string) : result nat :=
  if (dim =? "2d")%string then Ok 2%nat
  else if (dim =? "3d")%string then Ok 3%nat
  else Raise UnboundLocalError.

(* ================================================================== *)
(** * The PyTorch interface *)
(* ================================================================== *)

(** Hyper-parameters of [nn.Conv2d], [nn.Conv3d], [nn.ConvTranspose2d]
    and [nn.ConvTranspose3d] (dilation 1, no output padding, as the
    file never sets them). *)
Record ConvSpec : Type := {
  transposed : bool;
  nd : nat;
  in_channels : Z;
  out_channels : Z;
  kernel_size : Z;
  stride : Z;
  padding : Z;
  groups : Z
}.

(** [T] is the type of tensors, [W] the learnable state of a built-in
    layer. *)
Class Torch (T W : Type) : Type := {
  (** the state a built-in layer has after torch's default initialisation *)
  init_param : W;
  (** forward of a convolution or transposed convolution *)
  conv_forward : ConvSpec -> W -> T -> result T;
  (** forward of [nn.GroupNorm(num_groups, num_channels)] *)
  group_norm_forward : Z -> Z -> W -> T -> result T;
  (** [F.layer_norm(x, normalized_shape, weight, bias, eps)] *)
  F_layer_norm : T -> list Z -> T -> T -> Q -> result T;
  (** [nn.GELU()] *)
  gelu : T -> T;
  (** [F.pad(x, (1, 0) * k)]: one zero in front of each of the last [k] axes *)
  F_pad_leading : nat -> T -> result T;
  (** [torch.norm(x, p=2, dim=(-k, ..., -1), keepdim=True)] *)
  torch_norm : nat -> T -> result T;
  (** [x.mean(1, keepdim=True)] *)
  mean1 : T -> result T;
  (** broadcasting [+], [-], [*], [/] *)
  t_add : T -> T -> result T;
  t_sub : T -> T -> result T;
  t_mul : T -> T -> result T;
  t_div : T -> T -> result T;
  (** [x + c] for a Python float [c] *)
  add_scalar : T -> Q -> T;
  (** [x.pow(2)] and [torch.sqrt(x)] *)
  pow2 : T -> T;
  t_sqrt : T -> T;
  (** [w[:, None, None, None]] *)
  index_None3 : T -> result T;
  (** [torch.zeros] and [torch.ones] of a given shape *)
  zeros : list Z -> T;
  ones : list Z -> T;
  (** iterating a tensor: its slices along axis 0 *)
  unbind : T -> result (list T)
}.

(* ================================================================== *)
(** * The classes of the file *)
(* ================================================================== *)

Section MedNeXt.

Context {T W : Type} `{Torch T W}.

(** A built-in convolution layer: hyper-parameters and weights. *)
Record Conv : Type := {
  conv_spec : ConvSpec;
  conv_w : W
}.

(** [_ConvNd.__init__]: the three [ValueError] checks on [groups], then
    the allocation of the weight, which refuses a negative size. *)
Definition nn_Conv (tr : bool) (rank : nat) (cin cout k s p g : Z) : result Conv :=
  if g <=? 0 then Raise ValueError
  else if negb (cin mod g =? 0) then Raise ValueError
  else if negb (cout mod g =? 0) then Raise ValueError
  else if (cin <? 0) || (cout <? 0) || (k <? 0) then Raise RuntimeError
  else Ok {| conv_spec := {| transposed := tr; nd := rank;
                             in_channels := cin; out_channels := cout;
                             kernel_size := k; stride := s;
                             padding := p; groups := g |};
             conv_w := init_param |}.

Definition Conv_forward (c : Conv) (x : T) : result T :=
  conv_forward (conv_spec c) (conv_w c) x.

(** ** LayerNorm *)

Inductive DataFormat : Type := channels_last | channels_first.

Record LayerNorm : Type := {
  weight : T;
  bias : T;
  eps : Q;
  data_format : DataFormat;
  normalized_shape : list Z
}.

Definition LayerNorm_init (nshape : Z) (eps0 : Q) (fmt : string) : result LayerNorm :=
  let w := ones [nshape] in
  let b := zeros [nshape] in
  fmt' <- (if (fmt =? "channels_last")%string then Ok channels_last
           else if (fmt =? "channels_first")%string then Ok channels_first
           else Raise NotImplementedError) ;;
  Ok {| weight := w; bias := b; eps := eps0; data_format := fmt';
        normalized_shape := [nshape] |}.

Definition LayerNorm_forward (ln : LayerNorm) (x : T) : result T :=
  match data_format ln with
  | channels_last =>
      F_layer_norm x (normalized_shape ln) (weight ln) (bias ln) (eps ln)
  | channels_first =>
      u <- mean1 x ;;
      d <- t_sub x u ;;
      s <- mean1 (pow2 d) ;;
      d' <- t_sub x u ;;
      x <- t_div d' (t_sqrt (add_scalar s (eps ln))) ;;
      w <- index_None3 (weight ln) ;;
      wx <- t_mul w x ;;
      b <- index_None3 (bias ln) ;;
      t_add wx b
  end.

(** ** MedNeXtBlock *)

Inductive Norm : Type :=
| GroupNorm (num_groups num_channels : Z) (w : W)
| LayerNormC (ln : LayerNorm).

(** [nn.GroupNorm.__init__] checks [num_channels % num_groups]. *)
Definition nn_GroupNorm (num_groups num_channels : Z) : result Norm :=
  if num_groups =? 0 then Raise ZeroDivisionError
  else if negb (num_channels mod num_groups =? 0) then Raise ValueError
  else Ok (GroupNorm num_groups num_channels init_param).

Definition Norm_forward (n : Norm) (x : T) : result T :=
  match n with
  | GroupNorm g c w => group_norm_forward g c w x
  | LayerNormC ln => LayerNorm_forward ln x
  end.

(** [norm], [grn_beta] and [grn_gamma] are attributes that [__init__]
    assigns on some paths only. *)
Record MedNeXtBlock : Type := {
  do_res : bool;
  dim : string;
  conv1 : Conv;
  norm : option Norm;
  conv2 : Conv;
  conv3 : Conv;
  grn : bool;
  grn_beta : option T;
  grn_gamma : option T
}.

Definition MedNeXtBlock_init (cin cout exp_r k : Z) (do_res0 : bool)
    (norm_type : string) (n_groups : option Z) (dim0 : string) (grn0 : bool)
  : result MedNeXtBlock :=
  _ <- assert (dim_supported dim0) ;;
  rank <- spatial_rank dim0 ;;
  c1 <- nn_Conv false rank cin cin k 1 (k / 2)
          (match n_groups with None => cin | Some g => g end) ;;
  nm <- (if (norm_type =? "group")%string then fmap Some (nn_GroupNorm cin cin)
         else if (norm_type =? "layer")%string then
           fmap (fun ln => Some (LayerNormC ln))
                (LayerNorm_init cin (1 # 100000) "channels_first")
         else Ok None) ;;
  c2 <- nn_Conv false rank cin (exp_r * cin) 1 1 0 1 ;;
  c3 <- nn_Conv false rank (exp_r * cin) cout 1 1 0 1 ;;
  let params :=
    if grn0 then
      if (dim0 =? "3d")%string then Some (zeros [1; exp_r * cin; 1; 1; 1])
      else if (dim0 =? "2d")%string then Some (zeros [1; exp_r * cin; 1; 1])
      else None
    else None in
  Ok {| do_res := do_res0; dim := dim0; conv1 := c1; norm := nm;
        conv2 := c2; conv3 := c3; grn := grn0;
        grn_beta := params; grn_gamma := params |}.

(** The recalibration step of [forward] (the body of [if self.grn:]). *)
Definition grn_step (b : MedNeXtBlock) (x1 : T) : result T :=
  gx <- (if (dim b =? "3d")%string then torch_norm 3 x1
         else if (dim b =? "2d")%string then torch_norm 2 x1
         else Raise UnboundLocalError) ;;
  m <- mean1 gx ;;
  nx <- t_div gx (add_scalar m (1 # 1000000)) ;;
  gamma <- getattr (grn_gamma b) ;;
  xn <- t_mul x1 nx ;;
  g <- t_mul gamma xn ;;
  beta <- getattr (grn_beta b) ;;
  gb <- t_add g beta ;;
  t_add gb x1.

Definition MedNeXtBlock_forward (b : MedNeXtBlock) (x : T) : result T :=
  x1 <- Conv_forward (conv1 b) x ;;
  nm <- getattr (norm b) ;;
  x1 <- Norm_forward nm x1 ;;
  x1 <- Conv_forward (conv2 b) x1 ;;
  let x1 := gelu x1 in
  x1 <- (if grn b then grn_step b x1 else Ok x1) ;;
  x1 <- Conv_forward (conv3 b) x1 ;;
  if do_res b then t_add x x1 else Ok x1.

(** ** MedNeXtDownBlock and MedNeXtUpBlock

    Both subclasses call the base constructor with [do_res=False] and
    then replace [conv1] by the strided convolution; the inherited
    [forward] runs on the replaced layer. *)

Record MedNeXtResample : Type := {
  base : MedNeXtBlock;
  resample_do_res : bool;
  res_conv : option Conv
}.

Definition set_conv1 (b : MedNeXtBlock) (c : Conv) : MedNeXtBlock :=
  {| do_res := do_res b; dim := dim b; conv1 := c; norm := norm b;
     conv2 := conv2 b; conv3 := conv3 b; grn := grn b;
     grn_beta := grn_beta b; grn_gamma := grn_gamma b |}.


Definition MedNeXtDownBlock_init (cin cout exp_r k : Z) (do_res0 : bool)
    (norm_type dim0 : string) (grn0 : bool) : result MedNeXtResample :=
  b <- MedNeXtBlock_init cin cout exp_r k false norm_type None dim0 grn0 ;;
  rank <- spatial_rank dim0 ;;
  rc <- (if do_res0 then fmap Some (nn_Conv false rank cin cout 1 2 0 1)
         else Ok None) ;;
  c1 <- nn_Conv false rank cin cin k 2 (k / 2) cin ;;
  Ok {| base := set_conv1 b c1; resample_do_res := do_res0; res_conv := rc |}.

Definition MedNeXtDownBlock_forward (d : MedNeXtResample) (x : T) : result T :=
  x1 <- MedNeXtBlock_forward (base d) x ;;
  if resample_do_res d then
    rc <- getattr (res_conv d) ;;
    res <- Conv_forward rc x ;;
    t_add x1 res
  else Ok x1.

Definition MedNeXtUpBlock_init (cin cout exp_r k : Z) (do_res0 : bool)
    (norm_type dim0 : string) (grn0 : bool) : result MedNeXtResample :=
  b <- MedNeXtBlock_init cin cout exp_r k false norm_type None dim0 grn0 ;;
  rank <- spatial_rank dim0 ;;
  rc <- (if do_res0 then fmap Some (nn_Conv true rank cin cout 1 2 0 1)
         else Ok None) ;;
  c1 <- nn_Conv true rank cin cin k 2 (k / 2) cin ;;
  Ok {| base := set_conv1 b c1; resample_do_res := do_res0; res_conv := rc |}.

(** [if self.dim == '2d': pad(x, (1,0,1,0)) elif self.dim == '3d':
    pad(x, (1,0,1,0,1,0))] *)
Definition pad_for (dim0 : string) (x : T) : result T :=
  if (dim0 =? "2d")%string then F_pad_leading 2 x
  else if (dim0 =? "3d")%string then F_pad_leading 3 x
  else Ok x.

Definition MedNeXtUpBlock_forward (u : MedNeXtResample) (x : T) : result T :=
  x1 <- MedNeXtBlock_forward (base u) x ;;
  x1 <- pad_for (dim (base u)) x1 ;;
  if resample_do_res u then
    rc <- getattr (res_conv u) ;;
    res <- Conv_forward rc x ;;
    res <- pad_for (dim (base u)) res ;;
    t_add x1 res
  else Ok x1.

(** ** OutBlock *)

Record OutBlock : Type := { conv_out : Conv }.

Definition OutBlock_init (cin n_classes : Z) (dim0 : string) : result OutBlock :=
  rank <- spatial_rank dim0 ;;
  c <- nn_Conv true rank cin n_classes 1 1 0 1 ;;
  Ok {| conv_out := c |}.

Definition OutBlock_forward (o : OutBlock) (x : T) : result T :=
  Conv_forward (conv_out o) x.

(** ** nn.Sequential *)

Fixpoint Sequential_forward (blocks : list MedNeXtBlock) (x : T) : result T :=
  match blocks with
  | [] => Ok x
  | b :: rest => x' <- MedNeXtBlock_forward b x ;; Sequential_forward rest x'
  end.

(** ** Values that cross the class boundaries

    [forward] of the encoder and of the decoder return either one tensor
    or a Python list of tensors, and the callers unpack what they get
    ([a, b = value]).  Unpacking iterates: a list yields its items, a
    tensor its slices along axis 0; a wrong count is a [ValueError]. *)

Inductive PyVal : Type :=
| PTensor (t : T)
| PList (l : list T).

Definition iterate (v : PyVal) : result (list T) :=
  match v with
  | PTensor t => unbind t
  | PList l => Ok l
  end.

Definition unpack (n : nat) (v : PyVal) : result (list T) :=
  l <- iterate v ;;
  if (List.length l =? n)%nat then Ok l else Raise ValueError.

(** [exp_r] is an [int] or a list with one entry per stage slot. *)
Inductive ExpR : Type :=
| ExpInt (r : Z)
| ExpList (l : list Z).

(** [if type(exp_r) == int: exp_r = [exp_r for i in range(len(block_counts))]] *)
Definition expand_exp_r (exp_r : ExpR) (block_counts : list Z) : list Z :=
  match exp_r with
  | ExpInt r => repeat r (List.length block_counts)
  | ExpList l => l
  end.

(** [assert checkpoint_style in [None, 'outside_block']] *)
Definition checkpoint_style_supported (cs : option string) : bool :=
  match cs with
  | None => true
  | Some s => (s =? "outside_block")%string
  end.

Definition is_outside_block (cs : option string) : bool :=
  match cs with
  | None => false
  | Some s => (s =? "outside_block")%string
  end.

(** [if kernel_size is not None: enc_kernel_size = kernel_size]; the
    local is read later, and is unbound when [kernel_size] was [None]. *)
Definition local_kernel_size (kernel_size0 : option Z) : result Z :=
  match kernel_size0 with
  | Some k => Ok k
  | None => Raise UnboundLocalError
  end.

(** ** MedNeXtEncoder *)

(** [return_skips] is read by [forward] and assigned nowhere in the
    file: after [__init__] the attribute is absent. *)
Record MedNeXtEncoder : Type := {
  enc_inside_block_checkpointing : bool;
  enc_outside_block_checkpointing : bool;
  stem : Conv;
  enc_block_0 : list MedNeXtBlock;
  down_0 : MedNeXtResample;
  enc_block_1 : list MedNeXtBlock;
  down_1 : MedNeXtResample;
  enc_block_2 : list MedNeXtBlock;
  down_2 : MedNeXtResample;
  enc_block_3 : list MedNeXtBlock;
  down_3 : MedNeXtResample;
  return_skips : option bool
}.

Definition MedNeXtEncoder_init (cin n_channels : Z) (exp_r : ExpR)
    (kernel_size0 : option Z) (do_res0 do_res_up_down : bool)
    (checkpoint_style : option string) (block_counts : list Z)
    (norm_type dim0 : string) (grn0 : bool) : result MedNeXtEncoder :=
  _ <- assert (checkpoint_style_supported checkpoint_style) ;;
  _ <- assert (dim_supported dim0) ;;
  let enc_kernel_size := local_kernel_size kernel_size0 in
  rank <- spatial_rank dim0 ;;
  st <- nn_Conv false rank cin n_channels 1 1 0 1 ;;
  let exp_r := expand_exp_r exp_r block_counts in
  let stage (slot : nat) (width : Z) :=
    c <- index block_counts slot ;;
    for_range c (e <- index exp_r slot ;; k <- enc_kernel_size ;;
                 MedNeXtBlock_init width width e k do_res0 norm_type None dim0 grn0) in
  let down (slot : nat) (width_in width_out : Z) (g : bool) :=
    e <- index exp_r slot ;; k <- enc_kernel_size ;;
    MedNeXtDownBlock_init width_in width_out e k do_res_up_down norm_type dim0 g in
  b0 <- stage 0%nat n_channels ;;
  d0 <- down 1%nat n_channels (2 * n_channels) false ;;
  b1 <- stage 1%nat (n_channels * 2) ;;
  d1 <- down 2%nat (2 * n_channels) (4 * n_channels) grn0 ;;
  b2 <- stage 2%nat (n_channels * 4) ;;
  d2 <- down 3%nat (4 * n_channels) (8 * n_channels) grn0 ;;
  b3 <- stage 3%nat (n_channels * 8) ;;
  d3 <- down 4%nat (8 * n_channels) (16 * n_channels) grn0 ;;
  Ok {| enc_inside_block_checkpointing := false;
        enc_outside_block_checkpointing := is_outside_block checkpoint_style;
        stem := st;
        enc_block_0 := b0; down_0 := d0;
        enc_block_1 := b1; down_1 := d1;
        enc_block_2 := b2; down_2 := d2;
        enc_block_3 := b3; down_3 := d3;
        return_skips := None |}.

(** The five feature maps that [forward] appends to [ret]. *)
Definition MedNeXtEncoder_ret (enc : MedNeXtEncoder) (x : T) : result (list T) :=
  x <- Conv_forward (stem enc) x ;;
  x <- Sequential_forward (enc_block_0 enc) x ;;
  let ret := [x] in
  x <- MedNeXtDownBlock_forward (down_0 enc) x ;;
  x <- Sequential_forward (enc_block_1 enc) x ;;
  let ret := ret ++ [x] in
  x <- MedNeXtDownBlock_forward (down_1 enc) x ;;
  x <- Sequential_forward (enc_block_2 enc) x ;;
  let ret := ret ++ [x] in
  x <- MedNeXtDownBlock_forward (down_2 enc) x ;;
  x <- Sequential_forward (enc_block_3 enc) x ;;
  let ret := ret ++ [x] in
  x <- MedNeXtDownBlock_forward (down_3 enc) x ;;
  let ret := ret ++ [x] in
  Ok ret.

Definition MedNeXtEncoder_forward (enc : MedNeXtEncoder) (x : T) : result PyVal :=
  ret <- MedNeXtEncoder_ret enc x ;;
  rs <- getattr (return_skips enc) ;;
  if rs then Ok (PList ret)
  else fmap PTensor (index ret (List.length ret - 1)).

(** An assignment [encoder.return_skips = v] made from outside. *)
Definition set_return_skips (v : option bool) (enc : MedNeXtEncoder) : MedNeXtEncoder :=
  {| enc_inside_block_checkpointing := enc_inside_block_checkpointing enc;
     enc_outside_block_checkpointing := enc_outside_block_checkpointing enc;
     stem := stem enc;
     enc_block_0 := enc_block_0 enc; down_0 := down_0 enc;
     enc_block_1 := enc_block_1 enc; down_1 := down_1 enc;
     enc_block_2 := enc_block_2 enc; down_2 := down_2 enc;
     enc_block_3 := enc_block_3 enc; down_3 := down_3 enc;
     return_skips := v |}.

(** ** MedNeXtDecoder *)

(** [out_1] to [out_4] exist only when the decoder was built with
    [deep_supervision=True]. *)
Record MedNeXtDecoder : Type := {
  do_ds : bool;
  dec_inside_block_checkpointing : bool;
  dec_outside_block_checkpointing : bool;
  bottleneck : list MedNeXtBlock;
  up_3 : MedNeXtResample;
  dec_block_3 : list MedNeXtBlock;
  up_2 : MedNeXtResample;
  dec_block_2 : list MedNeXtBlock;
  up_1 : MedNeXtResample;
  dec_block_1 : list MedNeXtBlock;
  up_0 : MedNeXtResample;
  dec_block_0 : list MedNeXtBlock;
  out_0 : OutBlock;
  dummy_tensor : T;
  out_1 : option OutBlock;
  out_2 : option OutBlock;
  out_3 : option OutBlock;
  out_4 : option OutBlock;
  dec_block_counts : list Z
}.

Definition MedNeXtDecoder_init (cin n_channels n_classes : Z) (exp_r : ExpR)
    (kernel_size0 : option Z) (deep_supervision do_res0 do_res_up_down : bool)
    (checkpoint_style : option string) (block_counts : list Z)
    (norm_type dim0 : string) (grn0 : bool) : result MedNeXtDecoder :=
  let exp_r := expand_exp_r exp_r block_counts in
  _ <- assert (checkpoint_style_supported checkpoint_style) ;;
  _ <- assert (dim_supported dim0) ;;
  let dec_kernel_size := local_kernel_size kernel_size0 in
  let stage (slot : nat) (width : Z) :=
    c <- index block_counts slot ;;
    for_range c (e <- index exp_r slot ;; k <- dec_kernel_size ;;
                 MedNeXtBlock_init width width e k do_res0 norm_type None dim0 grn0) in
  let up (slot : nat) (width_in width_out : Z) :=
    e <- index exp_r slot ;; k <- dec_kernel_size ;;
    MedNeXtUpBlock_init width_in width_out e k do_res_up_down norm_type dim0 grn0 in
  bn <- stage 4%nat (n_channels * 16) ;;
  u3 <- up 5%nat (16 * n_channels) (8 * n_channels) ;;
  b3 <- stage 5%nat (n_channels * 8) ;;
  u2 <- up 6%nat (8 * n_channels) (4 * n_channels) ;;
  b2 <- stage 6%nat (n_channels * 4) ;;
  u1 <- up 7%nat (4 * n_channels) (2 * n_channels) ;;
  b1 <- stage 7%nat (n_channels * 2) ;;
  u0 <- up 8%nat (2 * n_channels) n_channels ;;
  b0 <- stage 8%nat n_channels ;;
  o0 <- OutBlock_init n_channels n_classes dim0 ;;
  let head (width : Z) : result (option OutBlock) :=
    if deep_supervision then fmap Some (OutBlock_init width n_classes dim0)
    else Ok None in
  o1 <- head (n_channels * 2) ;;
  o2 <- head (n_channels * 4) ;;
  o3 <- head (n_channels * 8) ;;
  o4 <- head (n_channels * 16) ;;
  Ok {| do_ds := deep_supervision;
        dec_inside_block_checkpointing := false;
        dec_outside_block_checkpointing := is_outside_block checkpoint_style;
        bottleneck := bn;
        up_3 := u3; dec_block_3 := b3;
        up_2 := u2; dec_block_2 := b2;
        up_1 := u1; dec_block_1 := b1;
        up_0 := u0; dec_block_0 := b0;
        out_0 := o0;
        dummy_tensor := ones [1];
        out_1 := o1; out_2 := o2; out_3 := o3; out_4 := o4;
        dec_block_counts := block_counts |}.

(** [if self.do_ds: x_ds_i = self.out_i(x)]: the local is bound only
    under deep supervision. *)
Definition ds_head (dec : MedNeXtDecoder) (o : option OutBlock) (x : T)
  : result (option T) :=
  if do_ds dec then
    ob <- getattr o ;; fmap Some (OutBlock_forward ob x)
  else Ok None.

(** One decoder level: upsample, add the skip, run the stage. *)
Definition dec_level (u : MedNeXtResample) (blocks : list MedNeXtBlock)
    (x_res x : T) : result T :=
  x_up <- MedNeXtUpBlock_forward u x ;;
  dec_x <- t_add x_res x_up ;;
  Sequential_forward blocks dec_x.

Definition MedNeXtDecoder_forward (dec : MedNeXtDecoder) (x : T) (skips : PyVal)
  : result PyVal :=
  l <- unpack 4 skips ;;
  match l with
  | [x_res_3; x_res_2; x_res_1; x_res_0] =>
      x <- Sequential_forward (bottleneck dec) x ;;
      x_ds_4 <- ds_head dec (out_4 dec) x ;;
      x <- dec_level (up_3 dec) (dec_block_3 dec) x_res_3 x ;;
      x_ds_3 <- ds_head dec (out_3 dec) x ;;
      x <- dec_level (up_2 dec) (dec_block_2 dec) x_res_2 x ;;
      x_ds_2 <- ds_head dec (out_2 dec) x ;;
      x <- dec_level (up_1 dec) (dec_block_1 dec) x_res_1 x ;;
      x_ds_1 <- ds_head dec (out_1 dec) x ;;
      x <- dec_level (up_0 dec) (dec_block_0 dec) x_res_0 x ;;
      x <- OutBlock_forward (out_0 dec) x ;;
      if do_ds dec then
        match x_ds_1, x_ds_2, x_ds_3, x_ds_4 with
        | Some x_ds_1, Some x_ds_2, Some x_ds_3, Some x_ds_4 =>
            Ok (PList [x; x_ds_1; x_ds_2; x_ds_3; x_ds_4])
        | _, _, _, _ => Raise UnboundLocalError
        end
      else Ok (PTensor x)
  | _ => Raise ValueError
  end.

(** ** MedNeXt *)

Record MedNeXtNet : Type := {
  net_do_ds : bool;
  net_inside_block_checkpointing : bool;
  net_outside_block_checkpointing : bool;
  encoder : MedNeXtEncoder;
  decoder : MedNeXtDecoder
}.

Definition MedNeXt_init (cin n_channels n_classes : Z) (exp_r : ExpR)
    (kernel_size0 enc_kernel_size dec_kernel_size : option Z)
    (deep_supervision do_res0 do_res_up_down : bool)
    (checkpoint_style : option string) (block_counts : list Z)
    (norm_type dim0 : string) (grn0 : bool) : result MedNeXtNet :=
  _ <- assert (checkpoint_style_supported checkpoint_style) ;;
  _ <- assert (dim_supported dim0) ;;
  let enc_kernel_size :=
    match kernel_size0 with Some k => Some k | None => enc_kernel_size end in
  let dec_kernel_size :=
    match kernel_size0 with Some k => Some k | None => dec_kernel_size end in
  enc <- MedNeXtEncoder_init cin n_channels exp_r enc_kernel_size do_res0
           do_res_up_down checkpoint_style block_counts norm_type dim0 grn0 ;;
  dec <- MedNeXtDecoder_init cin n_channels n_classes exp_r dec_kernel_size
           deep_supervision do_res0 do_res_up_down checkpoint_style
           block_counts norm_type dim0 grn0 ;;
  Ok {| net_do_ds := deep_supervision;
        net_inside_block_checkpointing := false;
        net_outside_block_checkpointing := is_outside_block checkpoint_style;
        encoder := enc; decoder := dec |}.

(** [checkpoint.checkpoint(l, x, dummy)] calls [l(x, dummy)]; the
    blocks ignore their second argument. *)
Definition checkpoint (l : MedNeXtBlock) (x dummy : T) : result T :=
  MedNeXtBlock_forward l x.

(** [self.dummy_tensor] read on the network itself: [MedNeXt.__init__]
    assigns no such attribute (the decoder owns the only one). *)
Definition net_dummy_tensor (net : MedNeXtNet) : option T := None.

Fixpoint iterative_checkpoint (net : MedNeXtNet) (sequential_block : list MedNeXtBlock)
    (x : T) : result T :=
  match sequential_block with
  | [] => Ok x
  | l :: rest =>
      d <- getattr (net_dummy_tensor net) ;;
      x' <- checkpoint l x d ;;
      iterative_checkpoint net rest x'
  end.

(** [x, skips = self.encoder(x); out = self.decoder(x, skips)] *)
Definition MedNeXt_forward (net : MedNeXtNet) (x : T) : result PyVal :=
  r <- MedNeXtEncoder_forward (encoder net) x ;;
  l <- unpack 2 r ;;
  match l with
  | [x; skips] => MedNeXtDecoder_forward (decoder net) x (PTensor skips)
  | _ => Raise ValueError
  end.

(** The network with its three checkpointing flags set to [f]: what
    [checkpoint_style] changes in the constructed object. *)
Definition enc_with_checkpointing (f : bool) (enc : MedNeXtEncoder) : MedNeXtEncoder :=
  {| enc_inside_block_checkpointing := enc_inside_block_checkpointing enc;
     enc_outside_block_checkpointing := f;
     stem := stem enc;
     enc_block_0 := enc_block_0 enc; down_0 := down_0 enc;
     enc_block_1 := enc_block_1 enc; down_1 := down_1 enc;
     enc_block_2 := enc_block_2 enc; down_2 := down_2 enc;
     enc_block_3 := enc_block_3 enc; down_3 := down_3 enc;
     return_skips := return_skips enc |}.

Definition dec_with_checkpointing (f : bool) (dec : MedNeXtDecoder) : MedNeXtDecoder :=
  {| do_ds := do_ds dec;
     dec_inside_block_checkpointing := dec_inside_block_checkpointing dec;
     dec_outside_block_checkpointing := f;
     bottleneck := bottleneck dec;
     up_3 := up_3 dec; dec_block_3 := dec_block_3 dec;
     up_2 := up_2 dec; dec_block_2 := dec_block_2 dec;
     up_1 := up_1 dec; dec_block_1 := dec_block_1 dec;
     up_0 := up_0 dec; dec_block_0 := dec_block_0 dec;
     out_0 := out_0 dec;
     dummy_tensor := dummy_tensor dec;
     out_1 := out_1 dec; out_2 := out_2 dec;
     out_3 := out_3 dec; out_4 := out_4 dec;
     dec_block_counts := dec_block_counts dec |}.


(** The network with [encoder.return_skips] assigned from outside. *)
Definition with_return_skips (v : option bool) (net : MedNeXtNet) : MedNeXtNet :=
  {| net_do_ds := net_do_ds net;
     net_inside_block_checkpointing := net_inside_block_checkpointing net;
     net_outside_block_checkpointing := net_outside_block_checkpointing net;
     encoder := set_return_skips v (encoder net);
     decoder := decoder net |}.

(** An assignment [decoder.do_ds = v] made from outside. *)
Definition set_do_ds (v : bool) (dec : MedNeXtDecoder) : MedNeXtDecoder :=
  {| do_ds := v;
     dec_inside_block_checkpointing := dec_inside_block_checkpointing dec;
     dec_outside_block_checkpointing := dec_outside_block_checkpointing dec;
     bottleneck := bottleneck dec;
     up_3 := up_3 dec; dec_block_3 := dec_block_3 dec;
     up_2 := up_2 dec; dec_block_2 := dec_block_2 dec;
     up_1 := up_1 dec; dec_block_1 := dec_block_1 dec;
     up_0 := up_0 dec; dec_block_0 := dec_block_0 dec;
     out_0 := out_0 dec;
     dummy_tensor := dummy_tensor dec;
     out_1 := out_1 dec; out_2 := out_2 dec;
     out_3 := out_3 dec; out_4 := out_4 dec;
     dec_block_counts := dec_block_counts dec |}.

(** ** The trainer classes

    [nnUNetTrainer_MedNeXt_{S,B,M,L}_kernel{3,5}.build_network_architecture]
    (the [_lr_] subclasses inherit it unchanged).  What the method reads
    from [self], [self.num_input_channels] and
    [self.label_manager.num_segmentation_heads] (attributes of the host
    class [nnUNetTrainer]), is the record [TrainerSelf]; its arguments [plans_manager], [dataset_json],
    [configuration_manager], [num_input_channels] and
    [enable_deep_supervision] are not read by the body. *)

Inductive Variant : Type :=
| S_kernel3 | B_kernel3 | M_kernel3 | L_kernel3
| S_kernel5 | B_kernel5 | M_kernel5 | L_kernel5.

Record TrainerSelf : Type := {
  num_input_channels : Z;
  num_segmentation_heads : Z
}.

Definition variant_kernel_size (v : Variant) : Z :=
  match v with
  | S_kernel3 | B_kernel3 | M_kernel3 | L_kernel3 => 3
  | S_kernel5 | B_kernel5 | M_kernel5 | L_kernel5 => 5
  end.

Definition variant_exp_r (v : Variant) : ExpR :=
  match v with
  | S_kernel3 | S_kernel5 => ExpInt 2
  | B_kernel3 | B_kernel5 | M_kernel3 | M_kernel5 =>
      ExpList [2; 3; 4; 4; 4; 4; 4; 3; 2]
  | L_kernel3 | L_kernel5 => ExpList [3; 4; 8; 8; 8; 8; 8; 4; 3]
  end.

Definition variant_block_counts (v : Variant) : list Z :=
  match v with
  | S_kernel3 | S_kernel5 | B_kernel3 | B_kernel5 => [2; 2; 2; 2; 2; 2; 2; 2; 2]
  | M_kernel3 | M_kernel5 => [3; 4; 4; 4; 4; 4; 4; 4; 3]
  | L_kernel3 | L_kernel5 => [3; 4; 8; 8; 8; 8; 8; 4; 3]
  end.

Definition variant_checkpoint_style (v : Variant) : option string :=
  match v with
  | S_kernel3 | S_kernel5 | B_kernel3 | B_kernel5 => None
  | M_kernel3 | M_kernel5 | L_kernel3 | L_kernel5 => Some "outside_block"
  end.

Definition build_network_architecture (v : Variant) (self : TrainerSelf)
    (num_input_channels_arg : Z) (enable_deep_supervision : bool)
  : result MedNeXtNet :=
  MedNeXt_init (num_input_channels self) 32 (num_segmentation_heads self)
    (variant_exp_r v) (Some (variant_kernel_size v)) None None
    true true true (variant_checkpoint_style v) (variant_block_counts v)
    "group" "3d" false.

End MedNeXt.

(* ================================================================== *)
(** * First implementation: tensors as shapes *)
(* ================================================================== *)

(** A tensor is represented by its shape: the list of its axis sizes.
    Every [torch] operation is the shape contract of its documentation;
    learnable state carries no information. *)
Module Shapes.

Abbreviation Tensor := (list Z).

(** Broadcasting, on the reversed shapes: axes are aligned from the
    last one; two sizes are compatible when equal or when one is 1. *)
Fixpoint broadcast_rev (a b : list Z) : result (list Z) :=
  match a, b with
  | [], _ => Ok b
  | _, [] => Ok a
  | x :: a', y :: b' =>
      r <- broadcast_rev a' b' ;;
      if x =? y then Ok (x :: r)
      else if x =? 1 then Ok (y :: r)
      else if y =? 1 then Ok (x :: r)
      else Raise RuntimeError
  end.

Definition broadcast (a b : Tensor) : result Tensor :=
  fmap (@rev Z) (broadcast_rev (rev a) (rev b)).

(** Output size of one spatial axis: [floor((i + 2p - k) / s) + 1] for
    a convolution, [(i - 1) s - 2p + k] for a transposed one. *)
Definition conv_out_size (c : ConvSpec) (i : Z) : Z :=
  if transposed c then (i - 1) * stride c - 2 * padding c + kernel_size c
  else (i + 2 * padding c - kernel_size c) / stride c + 1.

(** A layer without input or without output channels has an empty
    weight, which the forward pass refuses. *)
Definition conv_body (c : ConvSpec) (lead : list Z) (ch : Z) (sp : list Z)
  : result Tensor :=
  if negb (ch =? in_channels c) then Raise RuntimeError
  else if (in_channels c <? 1) || (out_channels c <? 1) then Raise RuntimeError
  else if negb (1 <=? kernel_size c) then Raise RuntimeError
  else
    let sp' := map (conv_out_size c) sp in
    if forallb (fun d => 1 <=? d) sp' then Ok (lead ++ out_channels c :: sp')
    else Raise RuntimeError.

(** Input [(N, C, *spatial)], or [(C, *spatial)] without batch axis. *)
Definition conv_shape (c : ConvSpec) (w : unit) (x : Tensor) : result Tensor :=
  if (List.length x =? nd c + 2)%nat then
    match x with
    | n :: ch :: sp => conv_body c [n] ch sp
    | _ => Raise RuntimeError
    end
  else if (List.length x =? nd c + 1)%nat then
    match x with
    | ch :: sp => conv_body c [] ch sp
    | _ => Raise RuntimeError
    end
  else Raise RuntimeError.

(** Number of entries of a tensor of shape [sp]. *)
Definition numel (sp : list Z) : Z := fold_right Z.mul 1 sp.

(** [F.group_norm] on input [(N, C, ...)].  It first calls
    [_verify_batch_size([N * C // num_groups, num_groups, ...])], which
    raises [ValueError] ("Expected more than 1 value per channel") when
    [N * C // num_groups] times the remaining sizes is 1; then the
    channels must be [num_channels].  Same shape out. *)
Definition group_norm_shape (num_groups num_channels : Z) (w : unit) (x : Tensor)
  : result Tensor :=
  match x with
  | n :: ch :: sp =>
      if (n * ch / num_groups) * numel sp =? 1 then Raise ValueError
      else if ch =? num_channels then Ok x else Raise RuntimeError
  | _ => Raise RuntimeError
  end.

Definition list_Z_eqb (a b : list Z) : bool :=
  if list_eq_dec Z.eq_dec a b then true else false.

(** The trailing axes must be [normalized_shape]; same shape out. *)
Definition layer_norm_shape (x : Tensor) (nshape : list Z) (w b : Tensor) (e : Q)
  : result Tensor :=
  if list_Z_eqb (skipn (List.length x - List.length nshape) x) nshape
     && (List.length nshape <=? List.length x)%nat
  then Ok x else Raise RuntimeError.

Definition last_axes {A : Type} (k : nat) (x : list A) : list A :=
  skipn (List.length x - k) x.

Definition first_axes {A : Type} (k : nat) (x : list A) : list A :=
  firstn (List.length x - k) x.

Definition pad_leading_shape (k : nat) (x : Tensor) : result Tensor :=
  if (k <=? List.length x)%nat
  then Ok (first_axes k x ++ map (fun d => d + 1) (last_axes k x))
  else Raise RuntimeError.

Definition norm_shape (k : nat) (x : Tensor) : result Tensor :=
  if (k <=? List.length x)%nat
  then Ok (first_axes k x ++ map (fun _ => 1) (last_axes k x))
  else Raise IndexError.

Definition mean1_shape (x : Tensor) : result Tensor :=
  match x with
  | n :: _ :: rest => Ok (n :: 1 :: rest)
  | _ => Raise IndexError
  end.

Definition index_None3_shape (w : Tensor) : result Tensor :=
  match w with
  | d :: rest => Ok (d :: 1 :: 1 :: 1 :: rest)
  | [] => Raise IndexError
  end.

Definition unbind_shape (x : Tensor) : result (list Tensor) :=
  match x with
  | n :: rest => Ok (repeat rest (Z.to_nat n))
  | [] => Raise TypeError
  end.

#[export] Instance torch : Torch Tensor unit := {|
  init_param := tt;
  conv_forward := conv_shape;
  group_norm_forward := group_norm_shape;
  F_layer_norm := layer_norm_shape;
  gelu := fun x => x;
  F_pad_leading := pad_leading_shape;
  torch_norm := norm_shape;
  mean1 := mean1_shape;
  t_add := broadcast;
  t_sub := broadcast;
  t_mul := broadcast;
  t_div := broadcast;
  add_scalar := fun x _ => x;
  pow2 := fun x => x;
  t_sqrt := fun x => x;
  index_None3 := index_None3_shape;
  zeros := fun s => s;
  ones := fun s => s;
  unbind := unbind_shape
|}.

(** The network of the end-to-end property. *)
Definition example_net (deep_supervision : bool) (checkpoint_style : option string)
  : result (@MedNeXtNet Tensor unit) :=
  MedNeXt_init 1 32 3 (ExpInt 4) (Some 3) None None deep_supervision false false
    checkpoint_style [2; 2; 2; 2; 2; 2; 2; 2; 2] "group" "3d" false.

Definition example_input : Tensor := [1; 1; 64; 64; 64].

(** ** Vocabulary of the shape theorems *)

(** On reversed shapes: every axis of [a] has the size of the aligned
    axis of [b], or size 1. *)
Fixpoint fits (a b : list Z) : Prop :=
  match a, b with
  | [], _ => True
  | x :: a', y :: b' => (x = y \/ x = 1) /\ fits a' b'
  | _ :: _, [] => False
  end.

Definition mk_spec (tr : bool) (rank : nat) (cin cout k s p g : Z) : ConvSpec :=
  {| transposed := tr; nd := rank; in_channels := cin; out_channels := cout;
     kernel_size := k; stride := s; padding := p; groups := g |}.

(** Spatial size after the strided convolution of a down block and
    after the padded transposed convolution of an up block. *)
Definition halve (d : Z) : Z := (d - 1) / 2 + 1.
Definition double (d : Z) : Z := 2 * d.

Abbreviation Block := (@MedNeXtBlock Tensor unit).
Abbreviation Resample := (@MedNeXtResample Tensor unit).

(** The norm layer that the constructor attaches for 'group', and for
    'layer' in three dimensions. *)
Definition norm_fits (rank : nat) (cin : Z) (n : option (@Norm Tensor unit)) : Prop :=
  n = Some (GroupNorm cin cin tt) \/
  (rank = 3%nat /\
   exists e, n = Some (LayerNormC {| weight := [cin]; bias := [cin]; eps := e;
                                     data_format := channels_first;
                                     normalized_shape := [cin] |})).

(** Everything a constructed block holds besides [conv1] and [do_res]. *)
Definition block_wf (rank : nat) (cin e cout : Z) (b : Block) : Prop :=
  spatial_rank (dim b) = Ok rank /\
  norm_fits rank cin (norm b) /\
  conv_spec (conv2 b) = mk_spec false rank cin (e * cin) 1 1 0 1 /\
  conv_spec (conv3 b) = mk_spec false rank (e * cin) cout 1 1 0 1 /\
  (grn b = true ->
   grn_gamma b = Some (1 :: e * cin :: repeat 1 rank) /\
   grn_beta b = Some (1 :: e * cin :: repeat 1 rank)).

(** The normalization kinds under which the constructed block can run:
    'group' in both ranks, 'layer' in three dimensions. *)
Definition norm_runs (norm_type dim0 : string) : Prop :=
  norm_type = "group" \/ (norm_type = "layer" /\ dim0 = "3d").

(** The blocks of one stage, as the list comprehension builds them. *)
Definition stage_of (w k : Z) (dr : bool) (norm_type dim0 : string) (g : bool)
    (blocks : list Block) : Prop :=
  Forall (fun b => exists e, 0 < e /\
            MedNeXtBlock_init w w e k dr norm_type None dim0 g = Ok b) blocks.

Record encoder_parts (cin n k : Z) (dr dru : bool) (norm_type dim0 : string)
    (g : bool) (rank : nat) (enc : @MedNeXtEncoder Tensor unit) : Prop := {
  ep_rank : spatial_rank dim0 = Ok rank;
  ep_stem : conv_spec (stem enc) = mk_spec false rank cin n 1 1 0 1;
  ep_b0 : stage_of n k dr norm_type dim0 g (enc_block_0 enc);
  ep_b1 : stage_of (2 * n) k dr norm_type dim0 g (enc_block_1 enc);
  ep_b2 : stage_of (4 * n) k dr norm_type dim0 g (enc_block_2 enc);
  ep_b3 : stage_of (8 * n) k dr norm_type dim0 g (enc_block_3 enc);
  ep_d0 : exists e g', 0 < e /\
             MedNeXtDownBlock_init n (2 * n) e k dru norm_type dim0 g'
               = Ok (down_0 enc);
  ep_d1 : exists e g', 0 < e /\
             MedNeXtDownBlock_init (2 * n) (4 * n) e k dru norm_type dim0 g'
               = Ok (down_1 enc);
  ep_d2 : exists e g', 0 < e /\
             MedNeXtDownBlock_init (4 * n) (8 * n) e k dru norm_type dim0 g'
               = Ok (down_2 enc);
  ep_d3 : exists e g', 0 < e /\
             MedNeXtDownBlock_init (8 * n) (16 * n) e k dru norm_type dim0 g'
               = Ok (down_3 enc)
}.

(** The five feature maps for an input [(n0, cin, *sp)]: the width
    doubles and every spatial axis is halved from one to the next. *)
Definition encoder_maps (n0 n : Z) (sp : list Z) : list Tensor :=
  [ n0 :: n :: sp;
    n0 :: 2 * n :: map halve sp;
    n0 :: 4 * n :: map halve (map halve sp);
    n0 :: 8 * n :: map halve (map halve (map halve sp));
    n0 :: 16 * n :: map halve (map halve (map halve (map halve sp))) ].

Record decoder_parts (n n_classes k : Z) (ds dr dru : bool)
    (norm_type dim0 : string) (g : bool) (rank : nat)
    (dec : @MedNeXtDecoder Tensor unit) : Prop := {
  dp_rank : spatial_rank dim0 = Ok rank;
  dp_ds : do_ds dec = ds;
  dp_bn : stage_of (16 * n) k dr norm_type dim0 g (bottleneck dec);
  dp_b3 : stage_of (8 * n) k dr norm_type dim0 g (dec_block_3 dec);
  dp_b2 : stage_of (4 * n) k dr norm_type dim0 g (dec_block_2 dec);
  dp_b1 : stage_of (2 * n) k dr norm_type dim0 g (dec_block_1 dec);
  dp_b0 : stage_of n k dr norm_type dim0 g (dec_block_0 dec);
  dp_u3 : exists e, 0 < e /\
             MedNeXtUpBlock_init (16 * n) (8 * n) e k dru norm_type dim0 g = Ok (up_3 dec);
  dp_u2 : exists e, 0 < e /\
             MedNeXtUpBlock_init (8 * n) (4 * n) e k dru norm_type dim0 g = Ok (up_2 dec);
  dp_u1 : exists e, 0 < e /\
             MedNeXtUpBlock_init (4 * n) (2 * n) e k dru norm_type dim0 g = Ok (up_1 dec);
  dp_u0 : exists e, 0 < e /\
             MedNeXtUpBlock_init (2 * n) n e k dru norm_type dim0 g = Ok (up_0 dec);
  dp_o0 : OutBlock_init n n_classes dim0 = Ok (out_0 dec);
  dp_o1 : ds = true -> exists o, out_1 dec = Some o /\
                                 OutBlock_init (2 * n) n_classes dim0 = Ok o;
  dp_o2 : ds = true -> exists o, out_2 dec = Some o /\
                                 OutBlock_init (4 * n) n_classes dim0 = Ok o;
  dp_o3 : ds = true -> exists o, out_3 dec = Some o /\
                                 OutBlock_init (8 * n) n_classes dim0 = Ok o;
  dp_o4 : ds = true -> exists o, out_4 dec = Some o /\
                                 OutBlock_init (16 * n) n_classes dim0 = Ok o
}.

(** The skips the decoder expects for a bottleneck input
    [(n0, 16 n, *sp)], coarsest first, and the logit maps it computes,
    in the order of the returned list. *)
Definition decoder_skips (n0 n : Z) (sp : list Z) : list Tensor :=
  [ n0 :: 8 * n :: map double sp;
    n0 :: 4 * n :: map double (map double sp);
    n0 :: 2 * n :: map double (map double (map double sp));
    n0 :: n :: map double (map double (map double (map double sp))) ].

Definition decoder_maps (n0 n_classes : Z) (sp : list Z) : list Tensor :=
  [ n0 :: n_classes :: map double (map double (map double (map double sp)));
    n0 :: n_classes :: map double (map double (map double sp));
    n0 :: n_classes :: map double (map double sp);
    n0 :: n_classes :: map double sp;
    n0 :: n_classes :: sp ].

(** The spatial axes of a batched map, and "every axis of [a] is
    larger than the same axis of [b]". *)
Definition spatial (t : Tensor) : list Z := skipn 2 t.

Definition finer (a b : list Z) : Prop := Forall2 (fun x y => y < x) a b.

(** Encoder and decoder of the example network, built on their own. *)
Definition example_encoder (g : bool) : result (@MedNeXtEncoder Tensor unit) :=
  MedNeXtEncoder_init 1 32 (ExpInt 4) (Some 3) false false None
    [2; 2; 2; 2; 2; 2; 2; 2; 2] "group" "3d" g.

Definition example_decoder : result (@MedNeXtDecoder Tensor unit) :=
  MedNeXtDecoder_init 1 32 3 (ExpInt 4) (Some 3) true false false None
    [2; 2; 2; 2; 2; 2; 2; 2; 2] "group" "3d" false.

End Shapes.

(* ================================================================== *)
(** * Second implementation: tensors as nested lists of reals *)
(* ================================================================== *)

(** A tensor of rank 0 is a real number, a tensor of rank [n + 1] the
    list of its slices along axis 0.  Arithmetic is that of the real
    numbers.  The learned layers of [torch] are parameters of the
    implementation; the broadcasting arithmetic, the reductions and the
    indexing that the file applies itself are computed. *)
Module Numeric.

#[warnings="-register-all"]
Inductive NT : Type :=
| Sc (r : R)
| Nd (l : list NT).

Fixpoint rank (t : NT) : nat :=
  match t with
  | Sc _ => O
  | Nd [] => 1%nat
  | Nd (x :: _) => S (rank x)
  end.

Fixpoint tmap (f : R -> R) (t : NT) : NT :=
  match t with
  | Sc r => Sc (f r)
  | Nd l => Nd (map (tmap f) l)
  end.

(** Sum of the squares of all entries. *)
Fixpoint sumsq (t : NT) : R :=
  match t with
  | Sc r => (r * r)%R
  | Nd l => fold_right (fun c acc => (sumsq c + acc)%R) 0%R l
  end.

(** [k] new axes of size 1 in front. *)
Fixpoint unsqueeze (k : nat) (t : NT) : NT :=
  match k with
  | O => t
  | S k' => Nd [unsqueeze k' t]
  end.

Fixpoint full (v : R) (s : list nat) : NT :=
  match s with
  | [] => Sc v
  | n :: s' => Nd (repeat (full v s') n)
  end.

Fixpoint mapM {A B : Type} (f : A -> result B) (l : list A) : result (list B) :=
  match l with
  | [] => Ok []
  | a :: l' => b <- f a ;; bs <- mapM f l' ;; Ok (b :: bs)
  end.

Fixpoint zipM {A B C : Type} (f : A -> B -> result C) (la : list A) (lb : list B)
  : result (list C) :=
  match la, lb with
  | a :: la', b :: lb' => c <- f a b ;; cs <- zipM f la' lb' ;; Ok (c :: cs)
  | _, _ => Ok []
  end.

(** Broadcasting binary operation on two tensors of rank [n]: along
    every axis the sizes are equal, or one of them is 1 and its single
    slice is reused. *)
Fixpoint bop (n : nat) (f : R -> R -> R) (a b : NT) : result NT :=
  match n with
  | O =>
      match a, b with
      | Sc x, Sc y => Ok (Sc (f x y))
      | _, _ => Raise RuntimeError
      end
  | S n' =>
      match a, b with
      | Nd la, Nd lb =>
          if (List.length la =? List.length lb)%nat then
            fmap Nd (zipM (bop n' f) la lb)
          else
            match la, lb with
            | [x], _ => fmap Nd (mapM (fun y => bop n' f x y) lb)
            | _, [y] => fmap Nd (mapM (fun x => bop n' f x y) la)
            | _, _ => Raise RuntimeError
            end
      | _, _ => Raise RuntimeError
      end
  end.

(** Operands of different rank are aligned on their last axes. *)
Definition broadcast_op (f : R -> R -> R) (a b : NT) : result NT :=
  let r := Nat.max (rank a) (rank b) in
  bop r f (unsqueeze (r - rank a) a) (unsqueeze (r - rank b) b).

(** Apply [g] to every sub-tensor found [skip] axes deep. *)
Fixpoint at_depth (skip : nat) (g : NT -> NT) (t : NT) : NT :=
  match skip with
  | O => g t
  | S skip' =>
      match t with
      | Nd l => Nd (map (at_depth skip' g) l)
      | Sc r => Sc r
      end
  end.

Definition norm_nt (k : nat) (x : NT) : result NT :=
  if (k <=? rank x)%nat
  then Ok (at_depth (rank x - k) (fun t => unsqueeze k (Sc (sqrt (sumsq t)))) x)
  else Raise IndexError.

(** Entry-wise sum of a non-empty list of tensors of one shape. *)
Fixpoint sum_slices (first : NT) (rest : list NT) : result NT :=
  match rest with
  | [] => Ok first
  | c :: rest' => s <- bop (rank first) Rplus first c ;; sum_slices s rest'
  end.

(** Mean over axis 1 of one batch element, kept as an axis of size 1. *)
Definition mean_channels (b : NT) : result NT :=
  match b with
  | Nd (c :: cs) =>
      s <- sum_slices c cs ;;
      Ok (Nd [tmap (fun v => (v / INR (S (List.length cs)))%R) s])
  | _ => Raise IndexError
  end.

Definition mean1_nt (x : NT) : result NT :=
  match x with
  | Nd batch => fmap Nd (mapM mean_channels batch)
  | Sc _ => Raise IndexError
  end.

(** One zero slice in front of each of the last [k] axes. *)
Fixpoint pad_axes (k : nat) (t : NT) : NT :=
  match k with
  | O => t
  | S k' =>
      match t with
      | Nd l =>
          let l' := map (pad_axes k') l in
          Nd (tmap (fun _ => 0%R) (hd (Sc 0%R) l') :: l')
      | Sc r => Sc r
      end
  end.

Definition pad_leading_nt (k : nat) (x : NT) : result NT :=
  if (k <=? rank x)%nat
  then Ok (at_depth (rank x - k) (pad_axes k) x)
  else Raise RuntimeError.

Definition index_None3_nt (w : NT) : result NT :=
  match w with
  | Nd l => Ok (Nd (map (unsqueeze 3) l))
  | Sc _ => Raise IndexError
  end.

Definition unbind_nt (x : NT) : result (list NT) :=
  match x with
  | Nd l => Ok l
  | Sc _ => Raise TypeError
  end.

Section Layers.

(** The learned layers: any state type, any functions. *)
Variable W : Type.
Variable w0 : W.
Variable conv_impl : ConvSpec -> W -> NT -> result NT.
Variable group_norm_impl : Z -> Z -> W -> NT -> result NT.
Variable layer_norm_impl : NT -> list Z -> NT -> NT -> Q -> result NT.
Variable gelu_impl : NT -> NT.

Definition torch : Torch NT W := {|
  init_param := w0;
  conv_forward := conv_impl;
  group_norm_forward := group_norm_impl;
  F_layer_norm := layer_norm_impl;
  gelu := gelu_impl;
  F_pad_leading := pad_leading_nt;
  torch_norm := norm_nt;
  mean1 := mean1_nt;
  t_add := broadcast_op Rplus;
  t_sub := broadcast_op Rminus;
  t_mul := broadcast_op Rmult;
  t_div := broadcast_op Rdiv;
  add_scalar := fun x c => tmap (fun v => (v + Q2R c)%R) x;
  pow2 := tmap (fun v => (v * v)%R);
  t_sqrt := tmap sqrt;
  index_None3 := index_None3_nt;
  zeros := fun s => full 0%R (map Z.to_nat s);
  ones := fun s => full 1%R (map Z.to_nat s);
  unbind := unbind_nt
|}.

End Layers.

(** Stand-ins for the learned layers, to run the model on an example:
    a convolution that answers with a constant map of its output width,
    norms and activation that pass their input on. *)
Definition demo_conv (c : ConvSpec) (w : unit) (x : NT) : result NT :=
  Ok (full 1%R (1%nat :: Z.to_nat (out_channels c) :: repeat 2%nat (nd c))).

Definition demo_group_norm (g c : Z) (w : unit) (x : NT) : result NT := Ok x.

Definition demo_layer_norm (x : NT) (s : list Z) (w b : NT) (e : Q) : result NT :=
  Ok x.

Definition demo_torch : Torch NT unit :=
  torch unit tt demo_conv demo_group_norm demo_layer_norm (fun x => x).

(** [t] has shape [s]: the nesting is regular. *)
Fixpoint has_shape (s : list nat) (t : NT) : Prop :=
  match s with
  | [] => exists r, t = Sc r
  | n :: s' => exists l, t = Nd l /\ List.length l = n /\ Forall (has_shape s') l
  end.

(** The entry of a tensor at a multi-index (0 outside the tensor). *)
Fixpoint get (idx : list nat) (t : NT) : R :=
  match idx, t with
  | [], Sc r => r
  | i :: idx', Nd l => get idx' (nth i l (Sc 0%R))
  | _, _ => 0%R
  end.

(** The index at which a broadcast operand of shape [s] is read: 0 along
    the axes of size 1. *)
Fixpoint clip (s idx : list nat) : list nat :=
  match s, idx with
  | d :: s', i :: idx' => (if (d =? 1)%nat then O else i) :: clip s' idx'
  | _, _ => []
  end.

Definition in_range (idx s : list nat) : Prop := Forall2 lt idx s.

(** Sum of [f 0 ... f (c-1)]. *)
Definition channel_sum (c : nat) (f : nat -> R) : R :=
  fold_right (fun j acc => (f j + acc)%R) 0%R (seq 0 c).

(** The channels_first formula in the words of the specification:
    [scale * (x - mean_c) / sqrt(var_c + eps) + shift], mean and variance
    taken over the [c] channels [xs 0 ... xs (c-1)] at one batch element
    and spatial location. *)
Definition layer_norm_entry (scale shift eps0 : R) (c : nat) (xs : nat -> R)
    (j : nat) : R :=
  let mean_c := (channel_sum c xs / INR c)%R in
  let var_c :=
    (channel_sum c (fun j' => (xs j' - mean_c) * (xs j' - mean_c)) / INR c)%R in
  (scale * ((xs j - mean_c) / sqrt (var_c + eps0)) + shift)%R.

Definition positive (s : list nat) : Prop := Forall (fun d => (1 <= d)%nat) s.

(** Every axis of [s2] has the size of the same axis of [s1], or size 1. *)
Definition sub_shape (s2 s1 : list nat) : Prop :=
  Forall2 (fun d2 d1 => d2 = d1 \/ d2 = 1%nat) s2 s1.

End Numeric.

(* ================================================================== *)
(** * Facts that hold for every implementation of the interface *)
(* ================================================================== *)

Lemma bind_Ok_inv {A B : Type} (c : result A) (k : A -> result B) (b : B) :
  bind c k = Ok b -> exists a, c = Ok a /\ k a = Ok b.
Proof.
  destruct c as [a|e]; simpl; intros E.
  - exists a. split; [reflexivity | exact E].
  - discriminate E.
Qed.

Lemma fmap_Ok_inv {A B : Type} (f : A -> B) (c : result A) (b : B) :
  fmap f c = Ok b -> exists a, c = Ok a /\ b = f a.
Proof.
  unfold fmap. intros E. apply bind_Ok_inv in E. destruct E as (a & Ea & Eb).
  exists a. split; [exact Ea | congruence].
Qed.

Lemma assert_Ok_inv (b : bool) (u : unit) : assert b = Ok u -> b = true.
Proof. destruct b; simpl; [reflexivity | discriminate]. Qed.

(** Peel the successful steps off a constructor that returned. *)
Ltac inv_ok H :=
  let a := fresh "v" in
  let Ea := fresh "E" in
  apply bind_Ok_inv in H; destruct H as (a & Ea & H).

Tactic Notation "inv_bind" hyp(H) "as" ident(a) ident(Ea) :=
  apply bind_Ok_inv in H; destruct H as (a & Ea & H).

Lemma comprehension_Forall {A : Type} (mk : result A) (n : nat) (l : list A) :
  comprehension n mk = Ok l ->
  List.length l = n /\ Forall (fun a => mk = Ok a) l.
Proof.
  revert l. induction n as [|n IH]; simpl; intros l E.
  - injection E as <-. split; [reflexivity | constructor].
  - inv_ok E. inv_ok E. injection E as <-.
    destruct (IH _ E1) as [L F]. split; [simpl; congruence | constructor; assumption].
Qed.

Lemma for_range_Forall {A : Type} (mk : result A) (c : Z) (l : list A) :
  for_range c mk = Ok l -> Forall (fun a => mk = Ok a) l.
Proof. intros E. apply comprehension_Forall in E. tauto. Qed.

Section Generic.

Context {T W : Type} `{Torch T W}.

Lemma spatial_rank_supported (dim0 : string) :
  dim_supported dim0 = true ->
  (dim0 = "2d" /\ spatial_rank dim0 = Ok 2%nat) \/
  (dim0 = "3d" /\ spatial_rank dim0 = Ok 3%nat).
Proof.
  unfold dim_supported, spatial_rank. intros D.
  destruct (String.eqb_spec dim0 "2d") as [E2|N2].
  - left. split; [exact E2 | reflexivity].
  - destruct (String.eqb_spec dim0 "3d") as [E3|N3].
    + right. split; [exact E3 | reflexivity].
    + discriminate D.
Qed.

(** What [MedNeXtBlock.__init__] leaves in the fields that [forward]
    reads before the convolutions. *)
Lemma MedNeXtBlock_init_fields cin cout exp_r k dr norm_type n_groups dim0 g
    (b : MedNeXtBlock) :
  MedNeXtBlock_init cin cout exp_r k dr norm_type n_groups dim0 g = Ok b ->
  do_res b = dr /\ dim b = dim0 /\ dim_supported dim0 = true /\ grn b = g /\
  grn_gamma b = grn_beta b /\
  (g = false -> grn_gamma b = None) /\
  (norm_type <> "group" -> norm_type <> "layer" -> norm b = None).
Proof.
  unfold MedNeXtBlock_init. intros E.
  inv_ok E. apply assert_Ok_inv in E0.
  do 5 inv_ok E. injection E as <-. simpl.
  repeat split; try reflexivity; try assumption.
  - intros ->. reflexivity.
  - intros Ng Nl.
    apply String.eqb_neq in Ng, Nl. rewrite Ng, Nl in E3.
    injection E3 as <-. reflexivity.
Qed.

Lemma MedNeXtDownBlock_init_grn cin cout exp_r k dr norm_type dim0 g
    (d : MedNeXtResample) :
  MedNeXtDownBlock_init cin cout exp_r k dr norm_type dim0 g = Ok d ->
  grn (base d) = g /\ (g = false -> grn_gamma (base d) = None /\ grn_beta (base d) = None).
Proof.
  unfold MedNeXtDownBlock_init. intros E.
  do 4 inv_ok E. injection E as <-. simpl.
  apply MedNeXtBlock_init_fields in E0.
  destruct E0 as (_ & _ & _ & G & GB & GN & _).
  split; [exact G|]. intros F. rewrite <- GB. split; apply GN; exact F.
Qed.

(** Without the norm attribute no call of [forward] returns. *)
Lemma MedNeXtBlock_forward_no_norm (b : MedNeXtBlock) (x : T) :
  norm b = None -> exists e, MedNeXtBlock_forward b x = Raise e.
Proof.
  intros N. unfold MedNeXtBlock_forward. rewrite N.
  destruct (Conv_forward (conv1 b) x) as [x1|e]; simpl; eauto.
Qed.

(** C5 (amended).  A normalization kind other than 'group' and 'layer'
    does not make [MedNeXtBlock.__init__] fail: whenever the constructor
    accepts the other arguments with 'group', it accepts them with the
    unsupported kind too, and the block it returns has no [norm]
    attribute.  The failure is deferred to [forward], which then raises
    on every input. *)
Theorem C5_unsupported_norm_is_deferred
    cin cout exp_r k dr (norm_type : string) n_groups dim0 g :
  norm_type <> "group" -> norm_type <> "layer" ->
  (is_ok (MedNeXtBlock_init cin cout exp_r k dr "group" n_groups dim0 g) = true ->
   is_ok (MedNeXtBlock_init cin cout exp_r k dr norm_type n_groups dim0 g) = true) /\
  (forall b : MedNeXtBlock,
     MedNeXtBlock_init cin cout exp_r k dr norm_type n_groups dim0 g = Ok b ->
     norm b = None /\
     forall x : T, exists e, MedNeXtBlock_forward b x = Raise e).
Proof.
  intros Ng Nl. split.
  - unfold MedNeXtBlock_init.
    apply String.eqb_neq in Ng, Nl. rewrite Ng, Nl. unfold fmap. simpl.
    repeat match goal with
           | |- context [bind ?c _] =>
               lazymatch c with
               | bind _ _ => fail
               | _ => destruct c; simpl; try (intros; discriminate)
               end
           end.
    reflexivity.
  - intros b E.
    apply MedNeXtBlock_init_fields in E.
    destruct E as (_ & _ & _ & _ & _ & _ & N).
    specialize (N Ng Nl). split; [exact N|].
    intros x. apply MedNeXtBlock_forward_no_norm. exact N.
Qed.

(** C10.  In an encoder constructed with [grn=True] the first
    downsample block [down_0] is built without recalibration (its [grn]
    flag is off and it owns no gamma and beta), while [down_1], [down_2]
    and [down_3] are built with recalibration on. *)
Theorem C10_down_0_built_without_grn
    cin n_channels exp_r k dr dru cs block_counts norm_type dim0
    (enc : MedNeXtEncoder) :
  MedNeXtEncoder_init cin n_channels exp_r k dr dru cs block_counts
    norm_type dim0 true = Ok enc ->
  (grn (base (down_0 enc)) = false /\
   grn_gamma (base (down_0 enc)) = None /\
   grn_beta (base (down_0 enc)) = None) /\
  grn (base (down_1 enc)) = true /\
  grn (base (down_2 enc)) = true /\
  grn (base (down_3 enc)) = true.
Proof.
  unfold MedNeXtEncoder_init. cbv zeta. intros E.
  do 5 inv_ok E.
  inv_ok E. do 2 inv_ok E5.
  inv_ok E.
  inv_ok E. do 2 inv_ok E9.
  inv_ok E.
  inv_ok E. do 2 inv_ok E13.
  inv_ok E.
  inv_ok E. do 2 inv_ok E17.
  injection E as <-. simpl.
  apply MedNeXtDownBlock_init_grn in E5, E9, E13, E17.
  destruct E5 as [G0 P0]. destruct (P0 eq_refl) as [Pg Pb].
  repeat split; try assumption; tauto.
Qed.



Lemma MedNeXtEncoder_forward_checkpointing f (enc : MedNeXtEncoder) (x : T) :
  MedNeXtEncoder_forward (enc_with_checkpointing f enc) x =
  MedNeXtEncoder_forward enc x.
Proof. reflexivity. Qed.

Lemma MedNeXtDecoder_forward_checkpointing f (dec : MedNeXtDecoder) (x : T) skips :
  MedNeXtDecoder_forward (dec_with_checkpointing f dec) x skips =
  MedNeXtDecoder_forward dec x skips.
Proof. reflexivity. Qed.


(** [iterative_checkpoint] is called by no [forward].  Were it called on
    a stage that holds a block, it would raise: it reads
    [self.dummy_tensor] on the network, and only the decoder has one. *)
Lemma iterative_checkpoint_raises (net : MedNeXtNet) (l : MedNeXtBlock)
    (rest : list MedNeXtBlock) (x : T) :
  iterative_checkpoint net (l :: rest) x = Raise AttributeError.
Proof. reflexivity. Qed.

Lemma iterative_checkpoint_empty (net : MedNeXtNet) (x : T) :
  iterative_checkpoint net [] x = Ok x.
Proof. reflexivity. Qed.

(** As constructed, the encoder never returns from [forward]: the
    attribute [return_skips] is read and was never assigned. *)
Lemma MedNeXtEncoder_init_return_skips
    cin n_channels exp_r k dr dru cs block_counts norm_type dim0 g
    (enc : MedNeXtEncoder) :
  MedNeXtEncoder_init cin n_channels exp_r k dr dru cs block_counts
    norm_type dim0 g = Ok enc ->
  return_skips enc = None.
Proof.
  unfold MedNeXtEncoder_init. cbv zeta. intros E.
  do 12 inv_ok E. injection E as <-. reflexivity.
Qed.

Lemma MedNeXtEncoder_forward_unassigned (enc : MedNeXtEncoder) (x : T) :
  return_skips enc = None -> exists e, MedNeXtEncoder_forward enc x = Raise e.
Proof.
  intros N. unfold MedNeXtEncoder_forward. rewrite N.
  destruct (MedNeXtEncoder_ret enc x); simpl; eauto.
Qed.

(** [ret] always holds five maps. *)
Lemma MedNeXtEncoder_ret_length (enc : MedNeXtEncoder) (x : T) ret :
  MedNeXtEncoder_ret enc x = Ok ret -> List.length ret = 5%nat.
Proof.
  unfold MedNeXtEncoder_ret. intros E.
  do 9 inv_ok E. injection E as <-. reflexivity.
Qed.

(** [x, skips = self.encoder(x)] cannot unpack the five-item list. *)
Lemma MedNeXt_forward_return_skips_set (net : MedNeXtNet) (x : T) :
  return_skips (encoder net) = Some true ->
  exists e, MedNeXt_forward net x = Raise e.
Proof.
  intros R. unfold MedNeXt_forward, MedNeXtEncoder_forward. rewrite R.
  destruct (MedNeXtEncoder_ret (encoder net) x) as [ret|e] eqn:E; simpl; eauto.
  apply MedNeXtEncoder_ret_length in E.
  unfold unpack. simpl. rewrite E. simpl. eauto.
Qed.

(** The decoder answers with one tensor when [do_ds] is off and with a
    list of five when it is on. *)
Lemma MedNeXtDecoder_forward_return_type (dec : MedNeXtDecoder) (x : T) skips v :
  MedNeXtDecoder_forward dec x skips = Ok v ->
  if do_ds dec
  then exists a b c d e, v = PList [a; b; c; d; e]
  else exists t, v = PTensor t.
Proof.
  unfold MedNeXtDecoder_forward. intros E.
  inv_ok E.
  destruct v0 as [|r3 [|r2 [|r1 [|r0 [|? ?]]]]]; try discriminate E.
  do 10 inv_ok E.
  destruct (do_ds dec).
  - repeat match type of E with
           | context [match ?o with Some _ => _ | None => _ end] =>
               destruct o; try discriminate E
           end.
    injection E as <-. eauto 10.
  - injection E as <-. eauto.
Qed.

End Generic.

(* ================================================================== *)
(** * Shape arithmetic of the architecture *)
(* ================================================================== *)

Module ShapeFacts.

Import Shapes.

(** ** Broadcasting *)

Lemma broadcast_rev_fits_l (a b : list Z) :
  fits a b -> broadcast_rev a b = Ok b.
Proof.
  revert b. induction a as [|x a IH]; intros [|y b] F; simpl in *;
    try reflexivity; try contradiction.
  destruct F as [Hx F]. rewrite (IH _ F). simpl.
  destruct (Z.eqb_spec x y) as [->|Nxy]; [reflexivity|].
  destruct Hx as [Hx|Hx]; [contradiction|]. subst x. reflexivity.
Qed.

Lemma broadcast_rev_fits_r (a b : list Z) :
  fits a b -> broadcast_rev b a = Ok b.
Proof.
  revert b. induction a as [|x a IH]; intros [|y b] F; simpl in *;
    try reflexivity; try contradiction.
  destruct F as [Hx F]. rewrite (IH _ F). simpl.
  destruct (Z.eqb_spec y x) as [E|Nyx]; [reflexivity|].
  destruct Hx as [Hx|Hx]; [congruence|]. subst x.
  destruct (Z.eqb_spec y 1) as [E|Ny]; [congruence|]. reflexivity.
Qed.

Lemma broadcast_into (a b : Tensor) :
  fits (rev a) (rev b) -> broadcast a b = Ok b /\ broadcast b a = Ok b.
Proof.
  intros F. unfold broadcast.
  rewrite (broadcast_rev_fits_l _ _ F), (broadcast_rev_fits_r _ _ F).
  simpl. rewrite rev_involutive. split; reflexivity.
Qed.

Lemma fits_refl (a : list Z) : fits a a.
Proof. induction a; simpl; auto. Qed.

Lemma broadcast_same (a : Tensor) : broadcast a a = Ok a.
Proof. apply broadcast_into, fits_refl. Qed.

(** ** Convolutions *)

Lemma nn_Conv_spec tr rank cin cout k s p g (c : @Conv unit) :
  nn_Conv tr rank cin cout k s p g = Ok c ->
  conv_spec c = mk_spec tr rank cin cout k s p g.
Proof.
  unfold nn_Conv. intros E.
  repeat match type of E with
         | (if ?b then _ else _) = _ => destruct b; try discriminate E
         end.
  injection E as <-. reflexivity.
Qed.

Lemma conv_shape_batched (c : ConvSpec) (w : unit) (n ch : Z) (sp : list Z) :
  List.length sp = nd c ->
  ch = in_channels c ->
  1 <= in_channels c -> 1 <= out_channels c ->
  1 <= kernel_size c ->
  Forall (fun d => 1 <= conv_out_size c d) sp ->
  conv_shape c w (n :: ch :: sp) = Ok (n :: out_channels c :: map (conv_out_size c) sp).
Proof.
  intros L -> Ci Co K F. unfold conv_shape. simpl List.length. rewrite L.
  replace (S (S (nd c)) =? nd c + 2)%nat with true
    by (symmetry; apply Nat.eqb_eq; lia).
  unfold conv_body. rewrite Z.eqb_refl. simpl.
  rewrite (proj2 (Z.ltb_ge (in_channels c) 1) Ci),
    (proj2 (Z.ltb_ge (out_channels c) 1) Co). cbn [orb].
  replace (1 <=? kernel_size c) with true by (symmetry; apply Z.leb_le; exact K).
  simpl.
  replace (forallb (fun d => 1 <=? d) (map (conv_out_size c) sp)) with true;
    [reflexivity|].
  symmetry. apply forallb_forall. intros d Hd.
  apply in_map_iff in Hd. destruct Hd as (d0 & <- & Hd0).
  apply Z.leb_le. rewrite Forall_forall in F. apply F. exact Hd0.
Qed.

Lemma odd_half (k : Z) : Z.odd k = true -> 2 * (k / 2) = k - 1.
Proof.
  intros O. pose proof (Z.div2_odd k) as D. rewrite O in D.
  rewrite Z.div2_div in D. cbn [Z.b2z] in D. lia.
Qed.

Lemma size_same_conv rank cin cout k g (d : Z) :
  Z.odd k = true ->
  conv_out_size (mk_spec false rank cin cout k 1 (k / 2) g) d = d.
Proof.
  intros O. unfold conv_out_size. cbn [mk_spec transposed stride padding kernel_size]. rewrite (odd_half k O).
  rewrite Z.div_1_r. lia.
Qed.

Lemma size_pointwise_conv rank cin cout (d : Z) :
  conv_out_size (mk_spec false rank cin cout 1 1 0 1) d = d.
Proof. unfold conv_out_size. cbn [mk_spec transposed stride padding kernel_size]. rewrite Z.div_1_r. lia. Qed.

Lemma size_out_conv rank cin cout (d : Z) :
  conv_out_size (mk_spec true rank cin cout 1 1 0 1) d = d.
Proof. unfold conv_out_size. cbn [mk_spec transposed stride padding kernel_size]. lia. Qed.

Lemma size_down_conv rank cin cout k g (d : Z) :
  Z.odd k = true ->
  conv_out_size (mk_spec false rank cin cout k 2 (k / 2) g) d = halve d.
Proof.
  intros O. unfold conv_out_size, halve. cbn [mk_spec transposed stride padding kernel_size]. rewrite (odd_half k O).
  f_equal. f_equal. lia.
Qed.

Lemma size_down_res_conv rank cin cout (d : Z) :
  conv_out_size (mk_spec false rank cin cout 1 2 0 1) d = halve d.
Proof. unfold conv_out_size, halve. cbn [mk_spec transposed stride padding kernel_size]. f_equal. f_equal. lia. Qed.

Lemma size_up_conv rank cin cout k g (d : Z) :
  Z.odd k = true ->
  conv_out_size (mk_spec true rank cin cout k 2 (k / 2) g) d = double d - 1.
Proof.
  intros O. unfold conv_out_size, double. cbn [mk_spec transposed stride padding kernel_size].
  pose proof (odd_half k O). lia.
Qed.

Lemma size_up_res_conv rank cin cout (d : Z) :
  conv_out_size (mk_spec true rank cin cout 1 2 0 1) d = double d - 1.
Proof. unfold conv_out_size, double. cbn [mk_spec transposed stride padding kernel_size]. lia. Qed.

Lemma halve_pos (d : Z) : 1 <= d -> 1 <= halve d.
Proof.
  intros P. unfold halve.
  assert (0 <= (d - 1) / 2) by (apply Z.div_pos; lia). lia.
Qed.



Lemma map_id_on {A : Type} (f : A -> A) (l : list A) :
  (forall a, f a = a) -> map f l = l.
Proof. intros E. induction l; simpl; congruence. Qed.

(** ** Blocks *)

Lemma spatial_rank_cases (dim0 : string) (rank : nat) (sp : list Z) :
  spatial_rank dim0 = Ok rank -> List.length sp = rank ->
  (dim0 = "2d" /\ rank = 2%nat /\ exists a b, sp = [a; b]) \/
  (dim0 = "3d" /\ rank = 3%nat /\ exists a b c, sp = [a; b; c]).
Proof.
  unfold spatial_rank. intros R L.
  destruct (String.eqb_spec dim0 "2d") as [E2|N2].
  - injection R as <-. left. repeat split; [exact E2|].
    destruct sp as [|a [|b [|? ?]]]; try discriminate L. eauto.
  - destruct (String.eqb_spec dim0 "3d") as [E3|N3]; [|discriminate R].
    injection R as <-. right. repeat split; [exact E3|].
    destruct sp as [|a [|b [|c [|? ?]]]]; try discriminate L. eauto.
Qed.

Ltac fits_tac := cbn [rev app fits]; repeat split; auto.

Lemma LayerNorm_forward_3d (cin : Z) (e : Q) (n a b c : Z) :
  LayerNorm_forward
    {| weight := [cin]; bias := [cin]; eps := e;
       data_format := channels_first; normalized_shape := [cin] |}
    [n; cin; a; b; c] = Ok [n; cin; a; b; c].
Proof.
  unfold LayerNorm_forward. cbn -[broadcast].
  assert (U : broadcast [n; cin; a; b; c] [n; 1; a; b; c] = Ok [n; cin; a; b; c])
    by (apply broadcast_into; fits_tac).
  rewrite U. cbn -[broadcast]. rewrite U. cbn -[broadcast].
  assert (Wt : broadcast [cin; 1; 1; 1] [n; cin; a; b; c] = Ok [n; cin; a; b; c])
    by (apply broadcast_into; fits_tac).
  rewrite Wt. cbn -[broadcast].
  apply broadcast_into. fits_tac.
Qed.

(** ** Sizes seen by the group norm *)

Lemma numel_map_le (f g : Z -> Z) (sp : list Z) :
  Forall (fun d => 1 <= f d <= g d) sp ->
  1 <= numel (map f sp) <= numel (map g sp).
Proof.
  intros F. induction F as [|d sp Hd _ IH]; cbn [map numel fold_right]; [lia|].
  fold (numel (map f sp)). fold (numel (map g sp)). nia.
Qed.

Lemma numel_pos (sp : list Z) :
  Forall (fun d => 1 <= d) sp -> 1 <= numel sp.
Proof.
  intros P. rewrite <- (map_id sp).
  apply (numel_map_le (fun d => d) (fun d => d)).
  eapply Forall_impl; [|exact P]. cbn beta. intros. lia.
Qed.

Lemma numel_halve_le (sp : list Z) :
  Forall (fun d => 1 <= d) sp -> numel (map halve sp) <= numel sp.
Proof.
  intros P. rewrite <- (map_id sp) at 2.
  apply (numel_map_le halve (fun d => d)).
  eapply Forall_impl; [|exact P]. cbn beta. intros d Hd. unfold halve.
  Z.to_euclidean_division_equations. lia.
Qed.

Lemma numel_double_ge (sp : list Z) :
  Forall (fun d => 1 <= d) sp -> numel sp <= numel (map double sp).
Proof.
  intros P. rewrite <- (map_id sp) at 1.
  apply (numel_map_le (fun d => d) double).
  eapply Forall_impl; [|exact P]. cbn beta. intros d Hd. unfold double. lia.
Qed.

Lemma numel_up_conv_ge (sp : list Z) :
  Forall (fun d => 1 <= d) sp ->
  numel sp <= numel (map (fun d => double d - 1) sp).
Proof.
  intros P. rewrite <- (map_id sp) at 1.
  apply (numel_map_le (fun d => d) (fun d => double d - 1)).
  eapply Forall_impl; [|exact P]. cbn beta. intros d Hd. unfold double. lia.
Qed.

(** More than one value per channel on a map implies the same on any
    map with at least as many entries. *)
Lemma more_values (n a b : Z) : 1 <= a -> a <= b -> 1 < n * a -> 1 < n * b.
Proof. intros. nia. Qed.

Lemma more_values_halve (n : Z) (sp : list Z) :
  Forall (fun d => 1 <= d) sp ->
  1 < n * numel (map halve sp) -> 1 < n * numel sp.
Proof.
  intros P M. apply (more_values n (numel (map halve sp))); try assumption.
  - apply numel_pos. apply Forall_forall. intros d Hd. apply in_map_iff in Hd.
    destruct Hd as (d' & <- & Hd'). rewrite Forall_forall in P.
    specialize (P d' Hd'). unfold halve. Z.to_euclidean_division_equations. lia.
  - apply numel_halve_le. exact P.
Qed.

Lemma more_values_double (n : Z) (sp : list Z) :
  Forall (fun d => 1 <= d) sp ->
  1 < n * numel sp -> 1 < n * numel (map double sp).
Proof.
  intros P M. apply (more_values n (numel sp)); try assumption.
  - apply numel_pos. exact P.
  - apply numel_double_ge. exact P.
Qed.

Lemma Norm_forward_shape rank cin nm (n : Z) (sp : list Z) :
  norm_fits rank cin (Some nm) -> List.length sp = rank ->
  0 < cin -> 1 < n * numel sp ->
  Norm_forward nm (n :: cin :: sp) = Ok (n :: cin :: sp).
Proof.
  intros [E|(R & e & E)] L Hc M; injection E as ->.
  - cbn [Norm_forward group_norm_forward torch group_norm_shape].
    rewrite Z.div_mul by lia.
    rewrite (proj2 (Z.eqb_neq (n * numel sp) 1)) by lia.
    rewrite Z.eqb_refl. reflexivity.
  - subst rank. destruct sp as [|a [|b [|c [|? ?]]]]; try discriminate L.
    apply LayerNorm_forward_3d.
Qed.

(** The recalibration step keeps the shape. *)
Lemma grn_step_shape (b : Block) rank cin e cout (n : Z) (sp : list Z) :
  block_wf rank cin e cout b -> grn b = true -> List.length sp = rank ->
  grn_step b (n :: e * cin :: sp) = Ok (n :: e * cin :: sp).
Proof.
  intros (R & _ & _ & _ & G) Gt L. destruct (G Gt) as [Gg Gb].
  unfold grn_step. rewrite Gg, Gb.
  destruct (spatial_rank_cases _ _ _ R L)
    as [(D & -> & a & b0 & ->)|(D & -> & a & b0 & c & ->)]; rewrite D;
    cbn -[broadcast].
  - set (E := e * cin).
    assert (B1 : broadcast [n; E; 1; 1] [n; 1; 1; 1] = Ok [n; E; 1; 1])
      by (apply broadcast_into; fits_tac).
    assert (B2 : broadcast [n; E; a; b0] [n; E; 1; 1] = Ok [n; E; a; b0])
      by (apply broadcast_into; fits_tac).
    assert (B3 : broadcast [1; E; 1; 1] [n; E; a; b0] = Ok [n; E; a; b0])
      by (apply broadcast_into; fits_tac).
    assert (B4 : broadcast [n; E; a; b0] [1; E; 1; 1] = Ok [n; E; a; b0])
      by (apply broadcast_into; fits_tac).
    rewrite B1. cbn -[broadcast]. rewrite B2. cbn -[broadcast].
    rewrite B3. cbn -[broadcast]. rewrite B4. cbn -[broadcast].
    apply broadcast_same.
  - set (E := e * cin).
    assert (B1 : broadcast [n; E; 1; 1; 1] [n; 1; 1; 1; 1] = Ok [n; E; 1; 1; 1])
      by (apply broadcast_into; fits_tac).
    assert (B2 : broadcast [n; E; a; b0; c] [n; E; 1; 1; 1] = Ok [n; E; a; b0; c])
      by (apply broadcast_into; fits_tac).
    assert (B3 : broadcast [1; E; 1; 1; 1] [n; E; a; b0; c] = Ok [n; E; a; b0; c])
      by (apply broadcast_into; fits_tac).
    assert (B4 : broadcast [n; E; a; b0; c] [1; E; 1; 1; 1] = Ok [n; E; a; b0; c])
      by (apply broadcast_into; fits_tac).
    rewrite B1. cbn -[broadcast]. rewrite B2. cbn -[broadcast].
    rewrite B3. cbn -[broadcast]. rewrite B4. cbn -[broadcast].
    apply broadcast_same.
Qed.

Lemma Forall_pos_map (f : Z -> Z) (sp : list Z) :
  (forall d, f d = d) -> Forall (fun d => 1 <= d) sp ->
  Forall (fun d => 1 <= f d) sp.
Proof.
  intros E F. eapply Forall_impl; [|exact F]. intros d. rewrite E. auto.
Qed.

(** [forward] of a block, once its first convolution has produced
    [(n, cin, *sp)]. *)
Lemma MedNeXtBlock_forward_shape (b : Block) rank cin e cout
    (x : Tensor) (n : Z) (sp : list Z) :
  block_wf rank cin e cout b ->
  Conv_forward (conv1 b) x = Ok (n :: cin :: sp) ->
  List.length sp = rank -> Forall (fun d => 1 <= d) sp ->
  0 < cin -> 0 < e -> 0 < cout -> 1 < n * numel sp ->
  MedNeXtBlock_forward b x =
  if do_res b then broadcast x (n :: cout :: sp) else Ok (n :: cout :: sp).
Proof.
  intros WF C1 L P Hc He Ho M. pose proof WF as (R & N & C2 & C3 & G).
  assert (Hec : 0 < e * cin) by nia.
  unfold MedNeXtBlock_forward. rewrite C1. cbn [bind].
  destruct (norm b) as [nm|] eqn:En.
  2:{ destruct N as [E|(_ & e0 & E)]; discriminate E. }
  cbn [getattr bind].
  rewrite (Norm_forward_shape rank cin nm n sp N L Hc M). cbn [bind].
  assert (S2 : Conv_forward (conv2 b) (n :: cin :: sp) = Ok (n :: e * cin :: sp)).
  { unfold Conv_forward. cbn [conv_forward torch]. rewrite C2.
    rewrite conv_shape_batched; cbn [mk_spec nd in_channels kernel_size out_channels];
      try reflexivity; try lia; try assumption.
    - rewrite (map_id_on _ sp (size_pointwise_conv rank cin (e * cin))). reflexivity.
    - apply Forall_pos_map; [apply size_pointwise_conv | exact P]. }
  rewrite S2. cbn [bind gelu torch].
  assert (S3 : (if grn b then grn_step b (n :: e * cin :: sp)
                else Ok (n :: e * cin :: sp)) = Ok (n :: e * cin :: sp)).
  { destruct (grn b) eqn:Eg; [|reflexivity].
    apply (grn_step_shape b rank cin e cout); assumption. }
  rewrite S3. cbn [bind].
  assert (S4 : Conv_forward (conv3 b) (n :: e * cin :: sp) = Ok (n :: cout :: sp)).
  { unfold Conv_forward. cbn [conv_forward torch]. rewrite C3.
    rewrite conv_shape_batched; cbn [mk_spec nd in_channels kernel_size out_channels];
      try reflexivity; try lia; try assumption.
    - rewrite (map_id_on _ sp (size_pointwise_conv rank (e * cin) cout)). reflexivity.
    - apply Forall_pos_map; [apply size_pointwise_conv | exact P]. }
  rewrite S4. cbn [bind]. reflexivity.
Qed.

Lemma MedNeXtBlock_init_wf cin cout e k dr norm_type ng dim0 g (b : Block) :
  MedNeXtBlock_init cin cout e k dr norm_type ng dim0 g = Ok b ->
  norm_runs norm_type dim0 ->
  exists rank,
    spatial_rank dim0 = Ok rank /\ block_wf rank cin e cout b /\
    do_res b = dr /\ dim b = dim0 /\
    conv_spec (conv1 b) =
      mk_spec false rank cin cin k 1 (k / 2)
        (match ng with None => cin | Some g' => g' end).
Proof.
  unfold MedNeXtBlock_init. intros E NR.
  inv_ok E. inv_ok E. rename v0 into rank. inv_ok E. inv_ok E. inv_ok E. inv_ok E.
  injection E as <-. exists rank.
  apply nn_Conv_spec in E2, E4, E5.
  split; [exact E1|]. split; [|cbn; repeat split; assumption].
  unfold block_wf. cbn [dim norm conv2 conv3 grn grn_gamma grn_beta].
  split; [exact E1|]. split; [|split; [exact E4|split; [exact E5|]]].
  - destruct NR as [->|[-> ->]].
    + cbn in E3. apply fmap_Ok_inv in E3. destruct E3 as (nm & E3 & ->).
      unfold nn_GroupNorm in E3.
      repeat match type of E3 with
             | (if ?c then _ else _) = _ => destruct c; try discriminate E3
             end.
      injection E3 as <-. left. reflexivity.
    + cbn in E3. injection E3 as <-. right.
      cbn in E1. injection E1 as <-. split; [reflexivity|]. eexists. reflexivity.
  - intros ->.
    destruct (spatial_rank_cases dim0 rank (repeat 0 rank) E1 (repeat_length _ _))
      as [(-> & -> & _)|(-> & -> & _)]; cbn; split; reflexivity.
Qed.

Lemma block_wf_set_conv1 rank cin e cout (b : Block) c :
  block_wf rank cin e cout b -> block_wf rank cin e cout (set_conv1 b c).
Proof. intros WF. exact WF. Qed.

(** A block of a stage (equal widths, odd kernel) keeps the shape. *)
Lemma stage_block_forward cin e k dr norm_type dim0 g (b : Block)
    rank (n : Z) (sp : list Z) :
  MedNeXtBlock_init cin cin e k dr norm_type None dim0 g = Ok b ->
  norm_runs norm_type dim0 -> Z.odd k = true -> 0 < k ->
  spatial_rank dim0 = Ok rank -> List.length sp = rank ->
  Forall (fun d => 1 <= d) sp ->
  0 < cin -> 0 < e -> 1 < n * numel sp ->
  MedNeXtBlock_forward b (n :: cin :: sp) = Ok (n :: cin :: sp).
Proof.
  intros E NR O K R L P Hc He M.
  destruct (MedNeXtBlock_init_wf _ _ _ _ _ _ _ _ _ _ E NR)
    as (rank' & R' & WF & Dr & _ & C1).
  assert (rank' = rank) by congruence. subst rank'.
  rewrite (MedNeXtBlock_forward_shape b rank cin e cin _ n sp WF); try assumption.
  - destruct (do_res b); [apply broadcast_same | reflexivity].
  - unfold Conv_forward. cbn [conv_forward torch]. rewrite C1.
    rewrite conv_shape_batched; cbn [mk_spec nd in_channels kernel_size out_channels];
      try reflexivity; try lia; try assumption.
    + rewrite (map_id_on _ sp (fun d => size_same_conv rank cin cin k cin d O)).
      reflexivity.
    + apply Forall_pos_map; [intros d; apply size_same_conv; exact O | exact P].
Qed.

Lemma Sequential_forward_stage cin k dr norm_type dim0 g (blocks : list Block)
    rank (n : Z) (sp : list Z) :
  Forall (fun b => exists e, 0 < e /\
            MedNeXtBlock_init cin cin e k dr norm_type None dim0 g = Ok b) blocks ->
  norm_runs norm_type dim0 -> Z.odd k = true -> 0 < k ->
  spatial_rank dim0 = Ok rank -> List.length sp = rank ->
  Forall (fun d => 1 <= d) sp ->
  0 < cin -> 1 < n * numel sp ->
  Sequential_forward blocks (n :: cin :: sp) = Ok (n :: cin :: sp).
Proof.
  intros F NR O K R L P Hc M.
  induction F as [|b blocks (e & He & Hb) _ IH]; [reflexivity|].
  cbn [Sequential_forward].
  rewrite (stage_block_forward _ _ _ _ _ _ _ b rank n sp Hb); assumption.
Qed.

(** ** Down and up blocks *)

Lemma MedNeXtDownBlock_init_wf cin cout e k dr norm_type dim0 g (d : Resample) :
  MedNeXtDownBlock_init cin cout e k dr norm_type dim0 g = Ok d ->
  norm_runs norm_type dim0 ->
  exists rank,
    spatial_rank dim0 = Ok rank /\ block_wf rank cin e cout (base d) /\
    do_res (base d) = false /\ dim (base d) = dim0 /\
    conv_spec (conv1 (base d)) = mk_spec false rank cin cin k 2 (k / 2) cin /\
    resample_do_res d = dr /\
    (dr = true -> exists rc, res_conv d = Some rc /\
                             conv_spec rc = mk_spec false rank cin cout 1 2 0 1).
Proof.
  unfold MedNeXtDownBlock_init. intros E NR.
  inv_ok E. inv_ok E. rename v0 into rank. inv_ok E. inv_ok E. injection E as <-.
  destruct (MedNeXtBlock_init_wf _ _ _ _ _ _ _ _ _ _ E0 NR)
    as (rank' & R' & WF & Dr & Dm & _).
  assert (rank' = rank) by congruence. subst rank'.
  exists rank. apply nn_Conv_spec in E3.
  split; [exact R'|]. split; [exact WF|]. split; [exact Dr|].
  split; [exact Dm|]. split; [exact E3|]. split; [reflexivity|].
  cbn [res_conv]. intros ->. apply fmap_Ok_inv in E2. destruct E2 as (rc & E2 & ->).
  apply nn_Conv_spec in E2. eauto.
Qed.

Lemma MedNeXtUpBlock_init_wf cin cout e k dr norm_type dim0 g (u : Resample) :
  MedNeXtUpBlock_init cin cout e k dr norm_type dim0 g = Ok u ->
  norm_runs norm_type dim0 ->
  exists rank,
    spatial_rank dim0 = Ok rank /\ block_wf rank cin e cout (base u) /\
    do_res (base u) = false /\ dim (base u) = dim0 /\
    conv_spec (conv1 (base u)) = mk_spec true rank cin cin k 2 (k / 2) cin /\
    resample_do_res u = dr /\
    (dr = true -> exists rc, res_conv u = Some rc /\
                             conv_spec rc = mk_spec true rank cin cout 1 2 0 1).
Proof.
  unfold MedNeXtUpBlock_init. intros E NR.
  inv_ok E. inv_ok E. rename v0 into rank. inv_ok E. inv_ok E. injection E as <-.
  destruct (MedNeXtBlock_init_wf _ _ _ _ _ _ _ _ _ _ E0 NR)
    as (rank' & R' & WF & Dr & Dm & _).
  assert (rank' = rank) by congruence. subst rank'.
  exists rank. apply nn_Conv_spec in E3.
  split; [exact R'|]. split; [exact WF|]. split; [exact Dr|].
  split; [exact Dm|]. split; [exact E3|]. split; [reflexivity|].
  cbn [res_conv]. intros ->. apply fmap_Ok_inv in E2. destruct E2 as (rc & E2 & ->).
  apply nn_Conv_spec in E2. eauto.
Qed.

Lemma Forall_pos_halve (sp : list Z) :
  Forall (fun d => 1 <= d) sp -> Forall (fun d => 1 <= d) (map halve sp).
Proof.
  intros P. apply Forall_map. eapply Forall_impl; [|exact P].
  intros d. apply halve_pos.
Qed.

Lemma Forall_pos_double (sp : list Z) :
  Forall (fun d => 1 <= d) sp -> Forall (fun d => 1 <= d) (map double sp).
Proof.
  intros P. apply Forall_map. eapply Forall_impl; [|exact P].
  intros d. unfold double. lia.
Qed.

(** A down block halves every spatial axis (rounding up) and changes
    the width, with or without the parallel projection. *)
Lemma MedNeXtDownBlock_forward_shape cin cout e k dr norm_type dim0 g (d : Resample)
    rank (n : Z) (sp : list Z) :
  MedNeXtDownBlock_init cin cout e k dr norm_type dim0 g = Ok d ->
  norm_runs norm_type dim0 -> Z.odd k = true -> 0 < k ->
  spatial_rank dim0 = Ok rank -> List.length sp = rank ->
  Forall (fun d => 1 <= d) sp ->
  0 < cin -> 0 < e -> 0 < cout -> 1 < n * numel (map halve sp) ->
  MedNeXtDownBlock_forward d (n :: cin :: sp) = Ok (n :: cout :: map halve sp).
Proof.
  intros E NR O K R L P Hc He Ho M.
  destruct (MedNeXtDownBlock_init_wf _ _ _ _ _ _ _ _ _ E NR)
    as (rank' & R' & WF & Dr & _ & C1 & RD & RC).
  assert (rank' = rank) by congruence. subst rank'.
  unfold MedNeXtDownBlock_forward.
  rewrite (MedNeXtBlock_forward_shape (base d) rank cin e cout _ n (map halve sp) WF);
    try assumption.
  - rewrite Dr. cbn [bind]. rewrite RD. destruct dr; [|reflexivity].
    destruct (RC eq_refl) as (rc & -> & Sp). cbn [getattr bind].
    unfold Conv_forward. cbn [conv_forward torch t_add]. rewrite Sp.
    rewrite conv_shape_batched; cbn [mk_spec nd in_channels kernel_size out_channels];
      try reflexivity; try lia; try assumption.
    + rewrite (map_ext _ halve (size_down_res_conv rank cin cout)).
      cbn [bind]. apply broadcast_same.
    + eapply Forall_impl; [|exact P]. intros a Ha.
      rewrite size_down_res_conv. apply halve_pos. exact Ha.
  - unfold Conv_forward. cbn [conv_forward torch]. rewrite C1.
    rewrite conv_shape_batched; cbn [mk_spec nd in_channels kernel_size out_channels];
      try reflexivity; try lia; try assumption.
    + rewrite (map_ext _ halve (fun a => size_down_conv rank cin cin k cin a O)).
      reflexivity.
    + eapply Forall_impl; [|exact P]. intros a Ha.
      rewrite size_down_conv by exact O. apply halve_pos. exact Ha.
  - rewrite length_map. exact L.
  - apply Forall_pos_halve. exact P.
Qed.

Lemma pad_for_shape dim0 rank (n c : Z) (sp : list Z) :
  spatial_rank dim0 = Ok rank -> List.length sp = rank ->
  pad_for dim0 (n :: c :: map (fun d => double d - 1) sp) = Ok (n :: c :: map double sp).
Proof.
  intros R L.
  destruct (spatial_rank_cases _ _ _ R L)
    as [(-> & -> & a & b & ->)|(-> & -> & a & b & c0 & ->)];
    cbn; repeat f_equal; lia.
Qed.

(** An up block doubles every spatial axis and changes the width; the
    leading pad is applied on the main and on the parallel path. *)
Lemma MedNeXtUpBlock_forward_shape cin cout e k dr norm_type dim0 g (u : Resample)
    rank (n : Z) (sp : list Z) :
  MedNeXtUpBlock_init cin cout e k dr norm_type dim0 g = Ok u ->
  norm_runs norm_type dim0 -> Z.odd k = true -> 0 < k ->
  spatial_rank dim0 = Ok rank -> List.length sp = rank ->
  Forall (fun d => 1 <= d) sp ->
  0 < cin -> 0 < e -> 0 < cout -> 1 < n * numel sp ->
  MedNeXtUpBlock_forward u (n :: cin :: sp) = Ok (n :: cout :: map double sp).
Proof.
  intros E NR O K R L P Hc He Ho M.
  destruct (MedNeXtUpBlock_init_wf _ _ _ _ _ _ _ _ _ E NR)
    as (rank' & R' & WF & Dr & Dm & C1 & RD & RC).
  assert (rank' = rank) by congruence. subst rank'.
  assert (P' : Forall (fun d => 1 <= d) (map (fun d => double d - 1) sp)).
  { apply Forall_map. eapply Forall_impl; [|exact P].
    intros a Ha; cbn beta in Ha |- *. unfold double. cbn beta. lia. }
  assert (M' : 1 < n * numel (map (fun d => double d - 1) sp)).
  { apply (more_values n (numel sp)); try assumption.
    - apply numel_pos. exact P.
    - apply numel_up_conv_ge. exact P. }
  unfold MedNeXtUpBlock_forward.
  rewrite (MedNeXtBlock_forward_shape (base u) rank cin e cout _ n
             (map (fun d => double d - 1) sp) WF); try assumption.
  - rewrite Dr, Dm. cbn [bind]. rewrite (pad_for_shape dim0 rank n cout sp R L).
    cbn [bind]. rewrite RD. destruct dr; [|reflexivity].
    destruct (RC eq_refl) as (rc & -> & Sp). cbn [getattr bind].
    unfold Conv_forward. cbn [conv_forward torch t_add]. rewrite Sp.
    rewrite conv_shape_batched; cbn [mk_spec nd in_channels kernel_size out_channels];
      try reflexivity; try lia; try assumption.
    + rewrite (map_ext _ (fun d => double d - 1) (size_up_res_conv rank cin cout)).
      cbn [bind]. rewrite (pad_for_shape dim0 rank n cout sp R L).
      cbn [bind]. apply broadcast_same.
    + eapply Forall_impl; [|exact P]. intros a Ha; cbn beta in Ha |- *.
      rewrite size_up_res_conv. unfold double. lia.
  - unfold Conv_forward. cbn [conv_forward torch]. rewrite C1.
    rewrite conv_shape_batched; cbn [mk_spec nd in_channels kernel_size out_channels];
      try reflexivity; try lia; try assumption.
    + rewrite (map_ext _ (fun d => double d - 1)
                 (fun a => size_up_conv rank cin cin k cin a O)).
      reflexivity.
    + eapply Forall_impl; [|exact P]. intros a Ha; cbn beta in Ha |- *.
      rewrite size_up_conv by exact O. unfold double. lia.
  - rewrite length_map. exact L.
Qed.

Lemma OutBlock_forward_shape cin n_classes dim0 (o : @OutBlock unit)
    rank (n : Z) (sp : list Z) :
  OutBlock_init cin n_classes dim0 = Ok o ->
  spatial_rank dim0 = Ok rank -> List.length sp = rank ->
  Forall (fun d => 1 <= d) sp ->
  0 < cin -> 0 < n_classes ->
  OutBlock_forward o (n :: cin :: sp) = Ok (n :: n_classes :: sp).
Proof.
  unfold OutBlock_init. intros E R L P Hc Hn. rewrite R in E. cbn [bind] in E.
  inv_ok E. injection E as <-. apply nn_Conv_spec in E0.
  unfold OutBlock_forward, Conv_forward. cbn [conv_out conv_forward torch].
  rewrite E0.
  rewrite conv_shape_batched; cbn [mk_spec nd in_channels kernel_size out_channels];
    try reflexivity; try lia; try assumption.
  - rewrite (map_id_on _ sp (size_out_conv rank cin n_classes)). reflexivity.
  - apply Forall_pos_map; [apply size_out_conv | exact P].
Qed.


(** ** Encoder *)

Lemma index_pos (ex : list Z) (slot : nat) (e : Z) :
  Forall (fun e => 0 < e) ex -> index ex slot = Ok e -> 0 < e.
Proof.
  intros F E. unfold index in E.
  destruct (nth_error ex slot) as [v|] eqn:N; [|discriminate E].
  injection E as <-. rewrite Forall_forall in F. apply F.
  eapply nth_error_In. exact N.
Qed.

Lemma stage_inv (bc ex : list Z) (slot : nat) w k dr norm_type dim0 g
    (blocks : list Block) :
  Forall (fun e => 0 < e) ex ->
  (c <- index bc slot ;;
   for_range c (e <- index ex slot ;; k' <- local_kernel_size (Some k) ;;
                MedNeXtBlock_init w w e k' dr norm_type None dim0 g)) = Ok blocks ->
  stage_of w k dr norm_type dim0 g blocks.
Proof.
  intros Hex E. inv_bind E as c Ec. apply for_range_Forall in E.
  unfold stage_of. eapply Forall_impl; [|exact E].
  intros b Hb. cbn beta in Hb. inv_bind Hb as e Ee. cbn in Hb.
  exists e. split; [exact (index_pos _ _ _ Hex Ee) | exact Hb].
Qed.

Lemma stage_of_width (w w' k : Z) dr norm_type dim0 g (blocks : list Block) :
  w = w' -> stage_of w k dr norm_type dim0 g blocks ->
  stage_of w' k dr norm_type dim0 g blocks.
Proof. intros <-. auto. Qed.

Lemma MedNeXtEncoder_init_parts cin n exp_r k dr dru cs bc norm_type dim0 g
    (enc : @MedNeXtEncoder Tensor unit) :
  MedNeXtEncoder_init cin n exp_r (Some k) dr dru cs bc norm_type dim0 g = Ok enc ->
  Forall (fun e => 0 < e) (expand_exp_r exp_r bc) ->
  exists rank, encoder_parts cin n k dr dru norm_type dim0 g rank enc.
Proof.
  unfold MedNeXtEncoder_init. cbv zeta. intros E Hex.
  inv_bind E as u1 A1. inv_bind E as u2 A2. inv_bind E as rank R. inv_bind E as st St.
  apply nn_Conv_spec in St.
  inv_bind E as b0 B0. apply (stage_inv _ _ _ _ _ _ _ _ _ _ Hex) in B0.
  inv_bind E as d0 D0. inv_bind D0 as x0 X0. inv_bind D0 as k0 K0.
  cbn in K0. injection K0 as <-. apply (index_pos _ _ _ Hex) in X0.
  inv_bind E as b1 B1. apply (stage_inv _ _ _ _ _ _ _ _ _ _ Hex) in B1.
  inv_bind E as d1 D1. inv_bind D1 as x1 X1. inv_bind D1 as k1 K1.
  cbn in K1. injection K1 as <-. apply (index_pos _ _ _ Hex) in X1.
  inv_bind E as b2 B2. apply (stage_inv _ _ _ _ _ _ _ _ _ _ Hex) in B2.
  inv_bind E as d2 D2. inv_bind D2 as x2 X2. inv_bind D2 as k2 K2.
  cbn in K2. injection K2 as <-. apply (index_pos _ _ _ Hex) in X2.
  inv_bind E as b3 B3. apply (stage_inv _ _ _ _ _ _ _ _ _ _ Hex) in B3.
  inv_bind E as d3 D3. inv_bind D3 as x3 X3. inv_bind D3 as k3 K3.
  cbn in K3. injection K3 as <-. apply (index_pos _ _ _ Hex) in X3.
  injection E as <-. exists rank.
  constructor; cbn [stem enc_block_0 enc_block_1 enc_block_2 enc_block_3
                      down_0 down_1 down_2 down_3]; eauto;
    eapply stage_of_width; try eassumption; lia.
Qed.

Lemma MedNeXtEncoder_ret_shape cin n k dr dru norm_type dim0 g rank
    (enc : @MedNeXtEncoder Tensor unit) (n0 : Z) (sp : list Z) :
  encoder_parts cin n k dr dru norm_type dim0 g rank enc ->
  norm_runs norm_type dim0 -> Z.odd k = true -> 0 < k ->
  List.length sp = rank -> Forall (fun d => 1 <= d) sp ->
  0 < cin -> 0 < n ->
  1 < n0 * numel (map halve (map halve (map halve (map halve sp)))) ->
  MedNeXtEncoder_ret enc (n0 :: cin :: sp) = Ok (encoder_maps n0 n sp).
Proof.
  intros [R St B0 B1 B2 B3 (e0 & g0 & He0 & D0) (e1 & g1 & He1 & D1)
            (e2 & g2 & He2 & D2) (e3 & g3 & He3 & D3)]
         NR O K L P Hc Hn M4.
  set (s1 := map halve sp) in *. set (s2 := map halve s1) in *.
  set (s3 := map halve s2) in *.
  assert (L1 : List.length s1 = rank) by (unfold s1; rewrite length_map; exact L).
  assert (L2 : List.length s2 = rank) by (unfold s2; rewrite length_map; exact L1).
  assert (L3 : List.length s3 = rank) by (unfold s3; rewrite length_map; exact L2).
  assert (P1 : Forall (fun d => 1 <= d) s1) by (apply Forall_pos_halve; exact P).
  assert (P2 : Forall (fun d => 1 <= d) s2) by (apply Forall_pos_halve; exact P1).
  assert (P3 : Forall (fun d => 1 <= d) s3) by (apply Forall_pos_halve; exact P2).
  assert (M3 : 1 < n0 * numel s3) by (apply more_values_halve; assumption).
  assert (M2 : 1 < n0 * numel s2) by (apply more_values_halve; assumption).
  assert (M1 : 1 < n0 * numel s1) by (apply more_values_halve; assumption).
  assert (M0 : 1 < n0 * numel sp) by (apply more_values_halve; assumption).
  unfold MedNeXtEncoder_ret, encoder_maps.
  assert (S0 : Conv_forward (stem enc) (n0 :: cin :: sp) = Ok (n0 :: n :: sp)).
  { unfold Conv_forward. cbn [conv_forward torch]. rewrite St.
    rewrite conv_shape_batched; cbn [mk_spec nd in_channels kernel_size out_channels];
      try reflexivity; try lia; try assumption.
    - rewrite (map_id_on _ sp (size_pointwise_conv rank cin n)). reflexivity.
    - apply Forall_pos_map; [apply size_pointwise_conv | exact P]. }
  rewrite S0. cbn [bind].
  rewrite (Sequential_forward_stage _ _ _ _ _ _ _ rank n0 sp B0);
    try assumption; try lia.
  cbn [bind].
  rewrite (MedNeXtDownBlock_forward_shape _ _ _ _ _ _ _ _ _ rank n0 sp D0);
    try assumption; try lia. cbn [bind]. fold s1.
  rewrite (Sequential_forward_stage _ _ _ _ _ _ _ rank n0 s1 B1);
    try assumption; try lia.
  cbn [bind].
  rewrite (MedNeXtDownBlock_forward_shape _ _ _ _ _ _ _ _ _ rank n0 s1 D1);
    try assumption; try lia. cbn [bind]. fold s2.
  rewrite (Sequential_forward_stage _ _ _ _ _ _ _ rank n0 s2 B2);
    try assumption; try lia.
  cbn [bind].
  rewrite (MedNeXtDownBlock_forward_shape _ _ _ _ _ _ _ _ _ rank n0 s2 D2);
    try assumption; try lia. cbn [bind]. fold s3.
  rewrite (Sequential_forward_stage _ _ _ _ _ _ _ rank n0 s3 B3);
    try assumption; try lia.
  cbn [bind].
  rewrite (MedNeXtDownBlock_forward_shape _ _ _ _ _ _ _ _ _ rank n0 s3 D3);
    try assumption; try lia. cbn [bind].
  reflexivity.
Qed.

Lemma halve_le (d : Z) : 1 <= d -> halve d <= d.
Proof.
  intros P. unfold halve.
  assert ((d - 1) / 2 <= d - 1) by (apply Z.div_le_upper_bound; lia). lia.
Qed.

(** C2 (amended).  Take an encoder constructed with an odd kernel
    size, norm 'group' (or 'layer' in three dimensions), positive
    widths and positive expansion ratios, and a batched input
    [(n0, cin, *sp)] of its input width with positive spatial sizes
    whose coarsest map still has more than one value per channel ([n0]
    times the product of the sizes after four halvings exceeds 1).
    With [return_skips] set to [True], [forward] returns the list of
    exactly five feature maps, finest first and coarsest last (the
    output of stage 0 first, the output of the fourth downsample last;
    from one map to the next the width doubles and no spatial axis
    grows).  With [return_skips] set to [False] it returns the last,
    coarsest map alone. *)
Theorem C2_encoder_forward_with_return_skips
    cin n exp_r k dr dru cs bc norm_type dim0 g rank
    (enc : @MedNeXtEncoder Tensor unit) (n0 : Z) (sp : list Z) :
  MedNeXtEncoder_init cin n exp_r (Some k) dr dru cs bc norm_type dim0 g = Ok enc ->
  norm_runs norm_type dim0 -> Z.odd k = true -> 0 < k ->
  spatial_rank dim0 = Ok rank -> List.length sp = rank ->
  Forall (fun d => 1 <= d) sp ->
  0 < cin -> 0 < n ->
  Forall (fun e => 0 < e) (expand_exp_r exp_r bc) ->
  1 < n0 * numel (map halve (map halve (map halve (map halve sp)))) ->
  MedNeXtEncoder_forward (set_return_skips (Some true) enc) (n0 :: cin :: sp)
    = Ok (PList (encoder_maps n0 n sp)) /\
  MedNeXtEncoder_forward (set_return_skips (Some false) enc) (n0 :: cin :: sp)
    = Ok (PTensor (n0 :: 16 * n :: map halve (map halve (map halve (map halve sp))))) /\
  Forall2 Z.le (map halve sp) sp.
Proof.
  intros E NR O K R L P Hc Hn Hex M.
  destruct (MedNeXtEncoder_init_parts _ _ _ _ _ _ _ _ _ _ _ _ E Hex) as (rank' & Pt).
  assert (rank' = rank) by (pose proof (ep_rank _ _ _ _ _ _ _ _ _ _ Pt); congruence).
  subst rank'.
  pose proof (MedNeXtEncoder_ret_shape _ _ _ _ _ _ _ _ _ enc n0 sp Pt NR O K L P
                Hc Hn M) as Rt.
  unfold MedNeXtEncoder_forward.
  change (MedNeXtEncoder_ret (set_return_skips (Some true) enc))
    with (MedNeXtEncoder_ret enc).
  change (MedNeXtEncoder_ret (set_return_skips (Some false) enc))
    with (MedNeXtEncoder_ret enc).
  rewrite Rt. cbn [bind set_return_skips return_skips getattr].
  repeat split.
  clear - P. induction P as [|d sp Hd _ IH]; cbn [map]; constructor;
    [apply halve_le; exact Hd | exact IH].
Qed.

(** ** Decoder *)

Lemma head_inv (ds : bool) (w w' n_classes : Z) dim0 (o : option (@OutBlock unit)) :
  (if ds then fmap Some (OutBlock_init w n_classes dim0) else Ok None) = Ok o ->
  w = w' ->
  ds = true -> exists o', o = Some o' /\ OutBlock_init w' n_classes dim0 = Ok o'.
Proof.
  intros E <- ->. apply fmap_Ok_inv in E. destruct E as (o' & E & ->). eauto.
Qed.

Lemma up_inv (ex : list Z) (slot : nat) a b k dru norm_type dim0 g (u : Resample) :
  Forall (fun e => 0 < e) ex ->
  (e <- index ex slot ;; k' <- local_kernel_size (Some k) ;;
   MedNeXtUpBlock_init a b e k' dru norm_type dim0 g) = Ok u ->
  exists e, 0 < e /\ MedNeXtUpBlock_init a b e k dru norm_type dim0 g = Ok u.
Proof.
  intros Hex E. inv_bind E as e Ee. inv_bind E as k' Ek. cbn in Ek.
  injection Ek as <-. exists e. split; [exact (index_pos _ _ _ Hex Ee) | exact E].
Qed.

Lemma MedNeXtDecoder_init_parts cin n n_classes exp_r k ds dr dru cs bc
    norm_type dim0 g (dec : @MedNeXtDecoder Tensor unit) :
  MedNeXtDecoder_init cin n n_classes exp_r (Some k) ds dr dru cs bc
    norm_type dim0 g = Ok dec ->
  Forall (fun e => 0 < e) (expand_exp_r exp_r bc) ->
  exists rank, decoder_parts n n_classes k ds dr dru norm_type dim0 g rank dec.
Proof.
  unfold MedNeXtDecoder_init. cbv zeta. intros E Hex.
  inv_bind E as u1 A1. inv_bind E as u2 A2.
  apply assert_Ok_inv in A2.
  destruct (spatial_rank_supported dim0 A2) as [[_ R]|[_ R]];
  [exists 2%nat | exists 3%nat].
  all: inv_bind E as bn Bn; apply (stage_inv _ _ _ _ _ _ _ _ _ _ Hex) in Bn;
    inv_bind E as u3 U3; apply (up_inv _ _ _ _ _ _ _ _ _ _ Hex) in U3;
    inv_bind E as b3 B3; apply (stage_inv _ _ _ _ _ _ _ _ _ _ Hex) in B3;
    inv_bind E as u2' U2; apply (up_inv _ _ _ _ _ _ _ _ _ _ Hex) in U2;
    inv_bind E as b2 B2; apply (stage_inv _ _ _ _ _ _ _ _ _ _ Hex) in B2;
    inv_bind E as u1' U1; apply (up_inv _ _ _ _ _ _ _ _ _ _ Hex) in U1;
    inv_bind E as b1 B1; apply (stage_inv _ _ _ _ _ _ _ _ _ _ Hex) in B1;
    inv_bind E as u0 U0; apply (up_inv _ _ _ _ _ _ _ _ _ _ Hex) in U0;
    inv_bind E as b0 B0; apply (stage_inv _ _ _ _ _ _ _ _ _ _ Hex) in B0;
    inv_bind E as o0 O0;
    inv_bind E as o1 O1; inv_bind E as o2 O2;
    inv_bind E as o3 O3; inv_bind E as o4 O4;
    injection E as <-;
    constructor;
      cbn [do_ds bottleneck dec_block_3 dec_block_2 dec_block_1 dec_block_0
           up_3 up_2 up_1 up_0 out_0 out_1 out_2 out_3 out_4];
      try assumption; try reflexivity;
      try (eapply stage_of_width; [|eassumption]; lia);
      try (eapply head_inv; [eassumption | lia]).
Qed.

Lemma dec_level_shape cin cout k dr dru norm_type dim0 g rank
    (u : Resample) (blocks : list Block) (n0 : Z) (sp : list Z) :
  (exists e, 0 < e /\
     MedNeXtUpBlock_init cin cout e k dru norm_type dim0 g = Ok u) ->
  stage_of cout k dr norm_type dim0 g blocks ->
  norm_runs norm_type dim0 -> Z.odd k = true -> 0 < k ->
  spatial_rank dim0 = Ok rank -> List.length sp = rank ->
  Forall (fun d => 1 <= d) sp ->
  0 < cin -> 0 < cout -> 1 < n0 * numel sp ->
  dec_level u blocks (n0 :: cout :: map double sp) (n0 :: cin :: sp)
    = Ok (n0 :: cout :: map double sp).
Proof.
  intros (e & He & U) B NR O K R L P Hc Ho M. unfold dec_level.
  rewrite (MedNeXtUpBlock_forward_shape _ _ _ _ _ _ _ _ u rank n0 sp U);
    try assumption.
  cbn [bind t_add torch]. rewrite broadcast_same. cbn [bind].
  apply (Sequential_forward_stage cout k dr norm_type dim0 g blocks rank);
    try assumption.
  - rewrite length_map. exact L.
  - apply Forall_pos_double. exact P.
  - apply more_values_double; assumption.
Qed.

Lemma ds_head_shape (dec : @MedNeXtDecoder Tensor unit) (ds : bool)
    (o : option (@OutBlock unit)) w n_classes dim0 rank (n0 : Z) (sp : list Z) :
  do_ds dec = ds ->
  (ds = true -> exists o', o = Some o' /\ OutBlock_init w n_classes dim0 = Ok o') ->
  spatial_rank dim0 = Ok rank -> List.length sp = rank ->
  Forall (fun d => 1 <= d) sp ->
  0 < w -> 0 < n_classes ->
  ds_head dec o (n0 :: w :: sp) =
  Ok (if ds then Some (n0 :: n_classes :: sp) else None).
Proof.
  intros D Ho R L P Hw Hn. unfold ds_head. rewrite D. destruct ds; [|reflexivity].
  destruct (Ho eq_refl) as (o' & -> & Eo). cbn [getattr bind].
  rewrite (OutBlock_forward_shape _ _ _ o' rank n0 sp Eo); try assumption.
  reflexivity.
Qed.

Lemma MedNeXtDecoder_forward_shape n n_classes k ds dr dru norm_type dim0 g rank
    (dec : @MedNeXtDecoder Tensor unit) (n0 : Z) (sp : list Z) :
  decoder_parts n n_classes k ds dr dru norm_type dim0 g rank dec ->
  norm_runs norm_type dim0 -> Z.odd k = true -> 0 < k ->
  List.length sp = rank -> Forall (fun d => 1 <= d) sp ->
  0 < n -> 0 < n_classes -> 1 < n0 * numel sp ->
  MedNeXtDecoder_forward dec (n0 :: 16 * n :: sp) (PList (decoder_skips n0 n sp))
  = Ok (if ds then PList (decoder_maps n0 n_classes sp)
        else PTensor (n0 :: n_classes ::
                        map double (map double (map double (map double sp))))).
Proof.
  intros [R D Bn B3 B2 B1 B0 U3 U2 U1 U0 O0 O1 O2 O3 O4] NR O K L P Hn Hc M.
  pose (s1 := map double sp). pose (s2 := map double s1).
  pose (s3 := map double s2). pose (s4 := map double s3).
  assert (L1 : List.length s1 = rank) by (unfold s1; rewrite length_map; exact L).
  assert (L2 : List.length s2 = rank) by (unfold s2; rewrite length_map; exact L1).
  assert (L3 : List.length s3 = rank) by (unfold s3; rewrite length_map; exact L2).
  assert (L4 : List.length s4 = rank) by (unfold s4; rewrite length_map; exact L3).
  assert (P1 : Forall (fun d => 1 <= d) s1) by (apply Forall_pos_double; exact P).
  assert (P2 : Forall (fun d => 1 <= d) s2) by (apply Forall_pos_double; exact P1).
  assert (P3 : Forall (fun d => 1 <= d) s3) by (apply Forall_pos_double; exact P2).
  assert (P4 : Forall (fun d => 1 <= d) s4) by (apply Forall_pos_double; exact P3).
  assert (M1 : 1 < n0 * numel s1) by (apply more_values_double; assumption).
  assert (M2 : 1 < n0 * numel s2) by (apply more_values_double; assumption).
  assert (M3 : 1 < n0 * numel s3) by (apply more_values_double; assumption).
  unfold s4, s3, s2, s1 in *. clear s1 s2 s3 s4.
  unfold MedNeXtDecoder_forward, decoder_skips, decoder_maps.
  cbn [unpack iterate bind List.length Nat.eqb].
  rewrite (Sequential_forward_stage _ _ _ _ _ _ _ rank n0 sp Bn);
    try assumption; try lia.
  cbn [bind].
  rewrite (ds_head_shape dec ds _ _ _ _ rank n0 sp D O4 R L P) by lia.
  cbn [bind].
  rewrite (dec_level_shape _ _ _ _ _ _ _ _ rank _ _ n0 sp U3 B3);
    try assumption; try lia.
  cbn [bind].
  rewrite (ds_head_shape dec ds _ _ _ _ rank n0 _ D O3 R L1 P1) by lia.
  cbn [bind].
  rewrite (dec_level_shape _ _ _ _ _ _ _ _ rank _ _ n0 _ U2 B2);
    try assumption; try lia.
  cbn [bind].
  rewrite (ds_head_shape dec ds _ _ _ _ rank n0 _ D O2 R L2 P2) by lia.
  cbn [bind].
  rewrite (dec_level_shape _ _ _ _ _ _ _ _ rank _ _ n0 _ U1 B1);
    try assumption; try lia.
  cbn [bind].
  rewrite (ds_head_shape dec ds _ _ _ _ rank n0 _ D O1 R L3 P3) by lia.
  cbn [bind].
  rewrite (dec_level_shape _ _ _ _ _ _ _ _ rank _ _ n0 _ U0 B0);
    try assumption; try lia.
  cbn [bind].
  rewrite (OutBlock_forward_shape _ _ _ _ rank n0 _ O0 R L4 P4) by lia.
  cbn [bind]. rewrite D. destruct ds; reflexivity.
Qed.

Lemma finer_double (sp : list Z) :
  Forall (fun d => 1 <= d) sp -> finer (map double sp) sp.
Proof.
  intros P. unfold finer. induction P as [|d sp Hd _ IH]; cbn [map]; constructor;
    [unfold double; lia | exact IH].
Qed.

(** C4 (amended).  Take a decoder constructed with deep supervision
    on, an odd kernel size, norm 'group' (or 'layer' in three
    dimensions), positive width, class count and expansion ratios, a
    bottleneck input [(n0, 16 n, *sp)] with positive spatial sizes and
    more than one value per channel ([n0] times the product of [sp]
    exceeds 1), and skips of the matching shapes.
    [MedNeXtDecoder.forward] returns the five logit maps finest first:
    from the first element of the list to the last every spatial axis
    strictly decreases (it halves), and it is the last element whose
    spatial shape is that of the bottleneck. *)
Theorem C4_deep_supervision_list_is_finest_first
    cin n n_classes exp_r k dr dru cs bc norm_type dim0 g rank
    (dec : @MedNeXtDecoder Tensor unit) (n0 : Z) (sp : list Z) :
  MedNeXtDecoder_init cin n n_classes exp_r (Some k) true dr dru cs bc
    norm_type dim0 g = Ok dec ->
  norm_runs norm_type dim0 -> Z.odd k = true -> 0 < k ->
  spatial_rank dim0 = Ok rank -> List.length sp = rank ->
  Forall (fun d => 1 <= d) sp ->
  0 < n -> 0 < n_classes ->
  Forall (fun e => 0 < e) (expand_exp_r exp_r bc) ->
  1 < n0 * numel sp ->
  Sequential_forward (bottleneck dec) (n0 :: 16 * n :: sp) = Ok (n0 :: 16 * n :: sp) /\
  exists o0 o1 o2 o3 o4,
    MedNeXtDecoder_forward dec (n0 :: 16 * n :: sp) (PList (decoder_skips n0 n sp))
      = Ok (PList [o0; o1; o2; o3; o4]) /\
    [o0; o1; o2; o3; o4] = decoder_maps n0 n_classes sp /\
    finer (spatial o0) (spatial o1) /\ finer (spatial o1) (spatial o2) /\
    finer (spatial o2) (spatial o3) /\ finer (spatial o3) (spatial o4) /\
    spatial o4 = sp.
Proof.
  intros E NR O K R L P Hn Hc Hex M.
  destruct (MedNeXtDecoder_init_parts _ _ _ _ _ _ _ _ _ _ _ _ _ _ E Hex)
    as (rank' & Pt).
  assert (rank' = rank)
    by (pose proof (dp_rank _ _ _ _ _ _ _ _ _ _ _ Pt); congruence).
  subst rank'. split.
  - apply (Sequential_forward_stage _ _ _ _ _ _ _ rank n0 sp
             (dp_bn _ _ _ _ _ _ _ _ _ _ _ Pt)); try assumption; lia.
  - do 5 eexists. split.
    + apply (MedNeXtDecoder_forward_shape _ _ _ _ _ _ _ _ _ rank dec n0 sp Pt);
        assumption.
    + split; [reflexivity|]. unfold spatial. cbn [skipn].
      pose proof (Forall_pos_double _ P) as P1.
      pose proof (Forall_pos_double _ P1) as P2.
      pose proof (Forall_pos_double _ P2) as P3.
      repeat split; apply finer_double; assumption.
Qed.

(** ** The network's forward never returns *)

Lemma conv_shape_form (c : ConvSpec) (w : unit) (x y : Tensor) :
  conv_shape c w x = Ok y ->
  exists lead sp, y = lead ++ out_channels c :: sp /\
                  List.length sp = nd c /\ (List.length lead <= 1)%nat.
Proof.
  unfold conv_shape, conv_body. intros E.
  destruct (Nat.eqb_spec (List.length x) (nd c + 2)) as [L2|_].
  - destruct x as [|n [|ch sp]]; try discriminate E.
    repeat match type of E with
           | (if ?b then _ else _) = _ => destruct b; try discriminate E
           end.
    injection E as <-. exists [n], (map (conv_out_size c) sp).
    repeat split; [rewrite length_map; cbn in L2; lia | cbn; lia].
  - destruct (Nat.eqb_spec (List.length x) (nd c + 1)) as [L1|_];
      [|discriminate E].
    destruct x as [|ch sp]; try discriminate E.
    repeat match type of E with
           | (if ?b then _ else _) = _ => destruct b; try discriminate E
           end.
    injection E as <-. exists [], (map (conv_out_size c) sp).
    repeat split; [rewrite length_map; cbn in L1; lia | cbn; lia].
Qed.

Lemma broadcast_rev_spec (a b r : list Z) :
  broadcast_rev a b = Ok r ->
  List.length r = Nat.max (List.length a) (List.length b) /\
  forall i c, nth_error a i = Some c -> nth_error b i = Some c ->
              nth_error r i = Some c.
Proof.
  revert b r. induction a as [|x a IH]; intros b r E.
  - cbn in E. injection E as <-. split; [reflexivity|].
    intros i c Ha. destruct i; discriminate Ha.
  - destruct b as [|y b].
    + cbn in E. injection E as <-. split; [cbn; lia|].
      intros i c _ Hb. destruct i; discriminate Hb.
    + cbn [broadcast_rev] in E. inv_bind E as r' Er.
      destruct (IH _ _ Er) as [L N].
      assert (exists h, r = h :: r' /\ (x = y -> h = x)) as (h & -> & Hh).
      { destruct (Z.eqb_spec x y) as [Exy|Nxy].
        - injection E as <-. eauto.
        - destruct (x =? 1); [injection E as <-; eexists; split; [reflexivity|tauto]|].
          destruct (y =? 1); [injection E as <-; eexists; split; [reflexivity|tauto]|].
          discriminate E. }
      split; [cbn; lia|].
      intros [|i] c Ha Hb; cbn in *.
      * injection Ha as ->. injection Hb as ->. rewrite (Hh eq_refl). reflexivity.
      * apply N; assumption.
Qed.

(** The sum of two maps with the channel width [c] in the same place,
    counted from the last axis, has [c] there too. *)
Lemma broadcast_form (la sa lb sb : list Z) (c : Z) (y : Tensor) :
  List.length sa = List.length sb ->
  (List.length la <= 1)%nat -> (List.length lb <= 1)%nat ->
  broadcast (la ++ c :: sa) (lb ++ c :: sb) = Ok y ->
  exists l s, y = l ++ c :: s /\ List.length s = List.length sa /\
              (List.length l <= 1)%nat.
Proof.
  intros L La Lb E. unfold broadcast in E. apply fmap_Ok_inv in E.
  destruct E as (r & E & ->).
  destruct (broadcast_rev_spec _ _ _ E) as [Lr N].
  rewrite !length_rev, !length_app in Lr. cbn [List.length] in Lr.
  assert (Hc : nth_error r (List.length sa) = Some c).
  { apply N.
    - rewrite rev_app_distr. cbn [rev]. rewrite <- app_assoc. cbn [app].
      rewrite nth_error_app2 by (rewrite length_rev; lia).
      rewrite length_rev, Nat.sub_diag. reflexivity.
    - rewrite rev_app_distr. cbn [rev]. rewrite <- app_assoc. cbn [app].
      rewrite nth_error_app2 by (rewrite length_rev; lia).
      rewrite length_rev, L, Nat.sub_diag. reflexivity. }
  apply nth_error_split in Hc. destruct Hc as (l1 & l2 & -> & L1).
  rewrite length_app in Lr. cbn [List.length] in Lr.
  exists (rev l2), (rev l1). rewrite rev_app_distr. cbn [rev].
  rewrite <- app_assoc. cbn [app].
  repeat split; rewrite length_rev; lia.
Qed.

Lemma MedNeXtBlock_forward_form (b : Block) (x y : Tensor) :
  do_res b = false -> MedNeXtBlock_forward b x = Ok y ->
  exists lead sp, y = lead ++ out_channels (conv_spec (conv3 b)) :: sp /\
                  List.length sp = nd (conv_spec (conv3 b)) /\
                  (List.length lead <= 1)%nat.
Proof.
  unfold MedNeXtBlock_forward. intros D E. rewrite D in E.
  inv_bind E as x1 E1. inv_bind E as nm En. inv_bind E as x2 E2.
  inv_bind E as x3 E3. inv_bind E as x4 E4. inv_bind E as x5 E5.
  injection E as <-. unfold Conv_forward in E5. cbn [conv_forward torch] in E5.
  apply conv_shape_form in E5. exact E5.
Qed.

(** What a constructed down block holds, whatever the normalization. *)
Lemma MedNeXtDownBlock_init_convs cin cout e k dr norm_type dim0 g (d : Resample) :
  MedNeXtDownBlock_init cin cout e k dr norm_type dim0 g = Ok d ->
  do_res (base d) = false /\
  out_channels (conv_spec (conv3 (base d))) = cout /\
  forall rc, res_conv d = Some rc ->
             out_channels (conv_spec rc) = cout /\
             nd (conv_spec rc) = nd (conv_spec (conv3 (base d))).
Proof.
  unfold MedNeXtDownBlock_init, MedNeXtBlock_init. intros E.
  inv_bind E as b Eb. inv_bind E as rank Er. inv_bind E as rc Erc.
  inv_bind E as c1 Ec1. injection E as <-.
  inv_bind Eb as u A. inv_bind Eb as rank' Er'. inv_bind Eb as c1' C1.
  inv_bind Eb as nm Nm. inv_bind Eb as c2 C2. inv_bind Eb as c3 C3.
  injection Eb as <-. cbn [base set_conv1 do_res conv3 res_conv].
  assert (rank' = rank) by congruence. subst rank'.
  apply nn_Conv_spec in C3. rewrite C3. cbn [mk_spec out_channels nd].
  split; [reflexivity|]. split; [reflexivity|].
  intros rc' Hrc.
  destruct dr; [|injection Erc as <-; discriminate Hrc].
  apply fmap_Ok_inv in Erc. destruct Erc as (rc0 & Erc & ->).
  apply nn_Conv_spec in Erc. injection Hrc as <-. rewrite Erc.
  split; reflexivity.
Qed.

Lemma MedNeXtDownBlock_forward_form cin cout e k dr norm_type dim0 g
    (d : Resample) (x y : Tensor) :
  MedNeXtDownBlock_init cin cout e k dr norm_type dim0 g = Ok d ->
  MedNeXtDownBlock_forward d x = Ok y ->
  exists lead sp, y = lead ++ cout :: sp /\ (List.length lead <= 1)%nat.
Proof.
  intros Ei E. destruct (MedNeXtDownBlock_init_convs _ _ _ _ _ _ _ _ _ Ei)
    as (D & Oc & Rc).
  unfold MedNeXtDownBlock_forward in E. inv_bind E as x1 E1.
  destruct (MedNeXtBlock_forward_form _ _ _ D E1) as (l1 & s1 & -> & L1 & Ll1).
  rewrite Oc in *.
  destruct (resample_do_res d).
  - inv_bind E as rc Erc. inv_bind E as res Eres.
    destruct (res_conv d) as [rc'|]; [|discriminate Erc].
    injection Erc as ->. destruct (Rc rc eq_refl) as [Orc Nrc].
    unfold Conv_forward in Eres. cbn [conv_forward torch] in Eres.
    apply conv_shape_form in Eres. destruct Eres as (l2 & s2 & -> & L2 & Ll2).
    rewrite Orc in E. cbn [t_add torch] in E.
    destruct (broadcast_form l1 s1 l2 s2 cout y) as (l & s0 & -> & _ & Ll);
      try assumption; [congruence|]. eauto.
  - injection E as <-. eauto.
Qed.

(** [x, skips = self.encoder(x)] with [return_skips] set to [False]:
    the coarsest map would have to hold 2 slices whose own first axis,
    of size 16 n_channels, holds 4. *)
Lemma MedNeXt_forward_return_skips_cleared
    cin n_channels n_classes exp_r k ek dk ds dr dru cs bc norm_type dim0 g
    (net : @MedNeXtNet Tensor unit) (x : Tensor) :
  MedNeXt_init cin n_channels n_classes exp_r k ek dk ds dr dru cs bc
    norm_type dim0 g = Ok net ->
  exists e, MedNeXt_forward (with_return_skips (Some false) net) x = Raise e.
Proof.
  unfold MedNeXt_init. cbv zeta. intros E.
  inv_bind E as u1 A1. inv_bind E as u2 A2. inv_bind E as enc Eenc.
  inv_bind E as dec Edec. injection E as <-.
  unfold MedNeXt_forward, MedNeXtEncoder_forward.
  cbn [with_return_skips encoder decoder return_skips set_return_skips getattr].
  change (MedNeXtEncoder_ret (set_return_skips (Some false) enc))
    with (MedNeXtEncoder_ret enc).
  destruct (MedNeXtEncoder_ret enc x) as [ret|er] eqn:Eret; [|cbn; eauto].
  cbn [bind]. unfold MedNeXtEncoder_ret in Eret.
  inv_bind Eret as y0 Y0. inv_bind Eret as y1 Y1. inv_bind Eret as y2 Y2.
  inv_bind Eret as y3 Y3. inv_bind Eret as y4 Y4. inv_bind Eret as y5 Y5.
  inv_bind Eret as y6 Y6. inv_bind Eret as y7 Y7. inv_bind Eret as y8 Y8.
  injection Eret as <-. cbn [List.length Nat.sub index nth_error app fmap bind].
  unfold MedNeXtEncoder_init in Eenc. cbv zeta in Eenc.
  do 11 (let a := fresh "a" in let Ea := fresh "Ea" in inv_bind Eenc as a Ea).
  inv_bind Eenc as d3 D3. injection Eenc as <-. cbn [down_3] in Y8.
  inv_bind D3 as e3 X3. inv_bind D3 as k3 K3.
  destruct (MedNeXtDownBlock_forward_form _ _ _ _ _ _ _ _ _ _ _ D3 Y8)
    as (l & sp & -> & Ll).
  unfold unpack, MedNeXtDecoder_forward. cbn [iterate unbind torch].
  destruct l as [|n0 [|? ?]]; [| |cbn in Ll; lia]; cbn [app unbind_shape bind].
  - rewrite repeat_length.
    destruct (Nat.eqb_spec (Z.to_nat (16 * n_channels)) 2) as [E2|_]; [lia|cbn [bind]; eauto].
  - rewrite repeat_length.
    destruct (Nat.eqb_spec (Z.to_nat n0) 2) as [E2|_]; [|cbn [bind]; eauto].
    rewrite E2. cbn [repeat unpack iterate unbind torch unbind_shape bind].
    rewrite repeat_length.
    destruct (Nat.eqb_spec (Z.to_nat (16 * n_channels)) 4) as [E4|_]; [lia|].
    cbn. eauto.
Qed.

(** No network that [MedNeXt] constructs returns from [forward],
    whatever is assigned to [encoder.return_skips] afterwards. *)
Lemma MedNeXt_forward_never_returns
    cin n_channels n_classes exp_r k ek dk ds dr dru cs bc norm_type dim0 g
    (net : @MedNeXtNet Tensor unit) (rs : option bool) (x : Tensor) :
  MedNeXt_init cin n_channels n_classes exp_r k ek dk ds dr dru cs bc
    norm_type dim0 g = Ok net ->
  exists e, MedNeXt_forward (with_return_skips rs net) x = Raise e.
Proof.
  intros E. destruct rs as [[|]|].
  - apply MedNeXt_forward_return_skips_set. reflexivity.
  - apply (MedNeXt_forward_return_skips_cleared _ _ _ _ _ _ _ _ _ _ _ _ _ _ _ _ _ E).
  - unfold MedNeXt_forward.
    destruct (MedNeXtEncoder_forward_unassigned
                (encoder (with_return_skips None net)) x eq_refl) as (e & ->).
    cbn. eauto.
Qed.

(** ** The end-to-end example *)

(** C1 (counterexample).  On the network of the claim and the input
    (1,1,64,64,64), [forward] raises [AttributeError]: it returns no
    tensors. *)
Lemma C1_forward_raises :
  exists net, example_net true None = Ok net /\
              MedNeXt_forward net example_input = Raise AttributeError.
Proof.
  eexists. split; [vm_compute; reflexivity|]. vm_compute. reflexivity.
Qed.

(** C1 (amended).  For the network of the claim, the encoder with
    [return_skips] set maps the input (1,1,64,64,64) to five feature
    maps, and the decoder, given the coarsest of them and the other four
    as skips (coarsest first), returns 5 tensors whose spatial shapes
    are the cubes 64, 32, 16, 8 and 4 in this order, each with channel
    count 3. *)
Theorem C1_end_to_end_shapes :
  exists net f0 f1 f2 f3 f4,
    example_net true None = Ok net /\
    MedNeXtEncoder_forward (set_return_skips (Some true) (encoder net)) example_input
      = Ok (PList [f0; f1; f2; f3; f4]) /\
    MedNeXtDecoder_forward (decoder net) f4 (PList [f3; f2; f1; f0])
      = Ok (PList [ [1; 3; 64; 64; 64]; [1; 3; 32; 32; 32]; [1; 3; 16; 16; 16];
                    [1; 3; 8; 8; 8]; [1; 3; 4; 4; 4] ]).
Proof.
  do 6 eexists. split; [vm_compute; reflexivity|].
  split; [vm_compute; reflexivity|]. vm_compute. reflexivity.
Qed.

(** C2 (counterexample).  The encoder of the example network, as its
    constructor leaves it, raises on the input (1,1,64,64,64); with
    [return_skips] set to [False] it returns one tensor, not five. *)
Lemma C2_encoder_forward_raises :
  exists enc, example_encoder false = Ok enc /\
    MedNeXtEncoder_forward enc example_input = Raise AttributeError /\
    MedNeXtEncoder_forward (set_return_skips (Some false) enc) example_input
      = Ok (PTensor [1; 512; 4; 4; 4]).
Proof.
  eexists. split; [vm_compute; reflexivity|].
  split; vm_compute; reflexivity.
Qed.

(** C3.  [MedNeXt.forward] on the example network returns neither a
    tensor nor a list: it raises, with deep supervision on or off, and
    whatever is assigned to [encoder.return_skips]; also for a batch of
    two, where the first unpacking succeeds on the slices of the
    coarsest map. *)
Theorem C3_network_forward_raises (ds : bool) (rs : option bool) :
  (net <- example_net ds None ;;
   MedNeXt_forward (with_return_skips rs net) example_input)
  = Raise (match rs with None => AttributeError | Some _ => ValueError end) /\
  (net <- example_net ds None ;;
   MedNeXt_forward (with_return_skips rs net) [2; 1; 64; 64; 64])
  = Raise (match rs with None => AttributeError | Some _ => ValueError end).
Proof. destruct ds, rs as [[|]|]; split; vm_compute; reflexivity. Qed.

(** C4 (counterexample).  For the example network the list that the
    decoder returns starts with the finest map: its first element has
    spatial shape 64, not the bottleneck's 4, and the second element is
    not finer than the first. *)
Lemma C4_first_element_is_finest :
  exists dec o0 o1 o2 o3 o4,
    example_decoder = Ok dec /\
    MedNeXtDecoder_forward dec [1; 512; 4; 4; 4] (PList (decoder_skips 1 32 [4; 4; 4]))
      = Ok (PList [o0; o1; o2; o3; o4]) /\
    spatial o0 = [64; 64; 64] /\ spatial o0 <> [4; 4; 4] /\
    ~ finer (spatial o1) (spatial o0).
Proof.
  do 6 eexists. split; [vm_compute; reflexivity|].
  split; [vm_compute; reflexivity|].
  split; [reflexivity|]. split; [discriminate|].
  cbv [spatial skipn finer]. intros F. inversion F; subst. lia.
Qed.

(** C5 (counterexample).  [MedNeXtBlock(32, 32, norm_type='batch')] is
    constructed without error. *)
Lemma C5_unsupported_norm_constructs :
  exists b : Block,
    MedNeXtBlock_init 32 32 4 7 true "batch" None "3d" false = Ok b.
Proof. eexists. vm_compute. reflexivity. Qed.

(** C6.  [LayerNorm] in channels_first mode on 4-dimensional input: the
    scale indexed [[:, None, None, None]] lines up with the batch axis.
    For a batch of 3 and 2 channels the product cannot be broadcast and
    [forward] raises; for a batch of 1 the result has a batch of 2.  On
    5-dimensional input of the same sizes the shape is kept. *)
Theorem C6_layer_norm_2d_misaligned :
  (ln <- LayerNorm_init 2 (1 # 100000) "channels_first" ;;
   LayerNorm_forward ln [3; 2; 4; 4]) = Raise RuntimeError /\
  (ln <- LayerNorm_init 2 (1 # 100000) "channels_first" ;;
   LayerNorm_forward ln [1; 2; 4; 4]) = Ok [2; 2; 4; 4] /\
  (ln <- LayerNorm_init 2 (1 # 100000) "channels_first" ;;
   LayerNorm_forward ln [3; 2; 4; 4; 4]) = Ok [3; 2; 4; 4; 4].
Proof. repeat split; vm_compute; reflexivity. Qed.




(** ** Instances of the general statements *)

Lemma C2_encoder_forward_with_return_skips_witness :
  exists enc, example_encoder false = Ok enc /\
    MedNeXtEncoder_forward (set_return_skips (Some true) enc) [1; 1; 64; 64; 64]
      = Ok (PList (encoder_maps 1 32 [64; 64; 64])) /\
    MedNeXtEncoder_forward (set_return_skips (Some false) enc) [1; 1; 64; 64; 64]
      = Ok (PTensor (1 :: 16 * 32 ::
                       map halve (map halve (map halve (map halve [64; 64; 64]))))) /\
    Forall2 Z.le (map halve [64; 64; 64]) [64; 64; 64].
Proof.
  eexists. split; [vm_compute; reflexivity|].
  apply (C2_encoder_forward_with_return_skips 1 32 (ExpInt 4) 3 false false None
           [2; 2; 2; 2; 2; 2; 2; 2; 2] "group" "3d" false 3%nat).
  - vm_compute. reflexivity.
  - left. reflexivity.
  - reflexivity.
  - lia.
  - reflexivity.
  - reflexivity.
  - repeat constructor; lia.
  - lia.
  - lia.
  - cbn. repeat constructor.
  - vm_compute. reflexivity.
Defined.

Lemma C4_deep_supervision_list_is_finest_first_witness :
  exists dec, example_decoder = Ok dec /\
    Sequential_forward (bottleneck dec) [1; 16 * 32; 4; 4; 4] = Ok [1; 16 * 32; 4; 4; 4] /\
    exists o0 o1 o2 o3 o4,
      MedNeXtDecoder_forward dec [1; 16 * 32; 4; 4; 4] (PList (decoder_skips 1 32 [4; 4; 4]))
        = Ok (PList [o0; o1; o2; o3; o4]) /\
      [o0; o1; o2; o3; o4] = decoder_maps 1 3 [4; 4; 4] /\
      finer (spatial o0) (spatial o1) /\ finer (spatial o1) (spatial o2) /\
      finer (spatial o2) (spatial o3) /\ finer (spatial o3) (spatial o4) /\
      spatial o4 = [4; 4; 4].
Proof.
  eexists. split; [vm_compute; reflexivity|].
  apply (C4_deep_supervision_list_is_finest_first 1 32 3 (ExpInt 4) 3 false false None
           [2; 2; 2; 2; 2; 2; 2; 2; 2] "group" "3d" false 3%nat).
  - vm_compute. reflexivity.
  - left. reflexivity.
  - reflexivity.
  - lia.
  - reflexivity.
  - reflexivity.
  - repeat constructor; lia.
  - lia.
  - lia.
  - cbn. repeat constructor.
  - vm_compute. reflexivity.
Defined.

Lemma C5_unsupported_norm_is_deferred_witness :
  (is_ok (MedNeXtBlock_init 32 32 4 7 true "group" None "3d" false) = true ->
   is_ok (MedNeXtBlock_init 32 32 4 7 true "batch" None "3d" false) = true) /\
  (forall b : Block,
     MedNeXtBlock_init 32 32 4 7 true "batch" None "3d" false = Ok b ->
     norm b = None /\
     forall x : Tensor, exists e, MedNeXtBlock_forward b x = Raise e).
Proof.
  apply (C5_unsupported_norm_is_deferred (T := Tensor) (W := unit)
           32 32 4 7 true "batch" None "3d" false); discriminate.
Defined.


Lemma C10_down_0_built_without_grn_witness :
  exists enc, example_encoder true = Ok enc /\
    (grn (base (down_0 enc)) = false /\
     grn_gamma (base (down_0 enc)) = None /\
     grn_beta (base (down_0 enc)) = None) /\
    grn (base (down_1 enc)) = true /\
    grn (base (down_2 enc)) = true /\
    grn (base (down_3 enc)) = true.
Proof.
  eexists. split; [vm_compute; reflexivity|].
  apply (C10_down_0_built_without_grn (T := Tensor) (W := unit)
           1 32 (ExpInt 4) (Some 3) false false None
           [2; 2; 2; 2; 2; 2; 2; 2; 2] "group" "3d").
  vm_compute. reflexivity.
Defined.

End ShapeFacts.

(* ================================================================== *)
(** * Arithmetic of the recalibration step *)
(* ================================================================== *)

Module NumericFacts.

Import Numeric.

(** ** Lists in the error monad *)

Lemma mapM_Forall {A B : Type} (f : A -> result B) (P : A -> Prop) (S : B -> Prop)
    (l : list A) :
  (forall a, P a -> exists c, f a = Ok c /\ S c) ->
  Forall P l ->
  exists lc, mapM f l = Ok lc /\ List.length lc = List.length l /\ Forall S lc.
Proof.
  intros Hf F. induction F as [|a l Ha _ (lc & E & L & Fc)]; cbn [mapM].
  - exists []. repeat split. constructor.
  - destruct (Hf a Ha) as (c & Ec & Sc'). rewrite Ec, E. cbn [bind].
    exists (c :: lc). repeat split; [cbn; congruence | constructor; assumption].
Qed.

Lemma zipM_Forall {A B C : Type} (f : A -> B -> result C)
    (P : A -> Prop) (Q : B -> Prop) (S : C -> Prop) (la : list A) (lb : list B) :
  (forall a b, P a -> Q b -> exists c, f a b = Ok c /\ S c) ->
  Forall P la -> Forall Q lb -> List.length la = List.length lb ->
  exists lc, zipM f la lb = Ok lc /\ List.length lc = List.length la /\ Forall S lc.
Proof.
  intros Hf Fa. revert lb.
  induction Fa as [|a la Ha _ IH]; intros lb Fb L; cbn [zipM].
  - exists []. repeat split. constructor.
  - destruct Fb as [|b lb Hb Fb]; [discriminate L|].
    destruct (Hf a b Ha Hb) as (c & Ec & Sc').
    destruct (IH lb Fb) as (lc & E & Lc & Fc); [cbn in L; congruence|].
    rewrite Ec, E. cbn [bind].
    exists (c :: lc). repeat split; [cbn; congruence | constructor; assumption].
Qed.




(** ** Shapes of nested tensors *)

Lemma has_shape_cons (d : nat) (s : list nat) (t : NT) :
  has_shape (d :: s) t <->
  exists l, t = Nd l /\ List.length l = d /\ Forall (has_shape s) l.
Proof. reflexivity. Qed.

Lemma rank_has_shape (s : list nat) (t : NT) :
  has_shape s t -> positive s -> rank t = List.length s.
Proof.
  revert t. induction s as [|d s IH]; intros t Ht P.
  - destruct Ht as (r & ->). reflexivity.
  - destruct Ht as (l & -> & L & F). inversion P as [|? ? Pd Ps]; subst.
    destruct F as [|x l Hx _]; [cbn in Pd; lia|].
    cbn [rank List.length]. f_equal. apply IH; assumption.
Qed.

Lemma full_has_shape (v : R) (s : list nat) : has_shape s (full v s).
Proof.
  induction s as [|d s IH]; cbn [full has_shape].
  - eauto.
  - exists (repeat (full v s) d). repeat split.
    + apply repeat_length.
    + apply Forall_forall. intros x Hx. apply repeat_spec in Hx. subst. exact IH.
Qed.

Lemma tmap_has_shape (f : R -> R) (s : list nat) (t : NT) :
  has_shape s t -> has_shape s (tmap f t).
Proof.
  revert t. induction s as [|d s IH]; intros t Ht.
  - destruct Ht as (r & ->). cbn. eauto.
  - destruct Ht as (l & -> & L & F). cbn [tmap has_shape].
    exists (map (tmap f) l). repeat split.
    + rewrite length_map. exact L.
    + apply Forall_map. eapply Forall_impl; [|exact F]. intros x. apply IH.
Qed.

Lemma unsqueeze_has_shape (k : nat) (s : list nat) (t : NT) :
  has_shape s t -> has_shape (repeat 1%nat k ++ s) (unsqueeze k t).
Proof.
  intros Ht. induction k as [|k IH]; cbn [repeat app unsqueeze]; [exact Ht|].
  exists [unsqueeze k t]. repeat split. constructor; [exact IH | constructor].
Qed.


(** ** Broadcasting arithmetic *)

Lemma bop_Nd_eq (n : nat) (f : R -> R -> R) (la lb : list NT) :
  List.length la = List.length lb ->
  bop (S n) f (Nd la) (Nd lb) = fmap Nd (zipM (bop n f) la lb).
Proof. intros L. cbn [bop]. rewrite L, Nat.eqb_refl. reflexivity. Qed.


Lemma bop_Nd_r1 (n : nat) (f : R -> R -> R) (la : list NT) (y : NT) :
  List.length la <> 1%nat ->
  bop (S n) f (Nd la) (Nd [y]) = fmap Nd (mapM (fun x => bop n f x y) la).
Proof.
  intros L. cbn [bop List.length].
  destruct (Nat.eqb_spec (List.length la) 1) as [E|_]; [congruence|].
  destruct la as [|a [|a' la]]; reflexivity.
Qed.

Lemma sub_shape_refl (s : list nat) : sub_shape s s.
Proof. induction s; constructor; auto. Qed.

(** The operand of the larger shape gives the shape of the result. *)
Lemma bop_shape_l (f : R -> R -> R) (s1 s2 : list nat) (a b : NT) :
  sub_shape s2 s1 -> has_shape s1 a -> has_shape s2 b ->
  exists c, bop (List.length s1) f a b = Ok c /\ has_shape s1 c.
Proof.
  intros Sb. revert a b. induction Sb as [|d2 d1 s2 s1 Hd Sb IH]; intros a b Ha Hb.
  - destruct Ha as (x & ->), Hb as (y & ->). cbn. eexists. split; [reflexivity|].
    cbn. eauto.
  - destruct Ha as (la & -> & La & Fa), Hb as (lb & -> & Lb & Fb).
    cbn [List.length].
    destruct (Nat.eq_dec (List.length la) (List.length lb)) as [E|NE].
    + rewrite (bop_Nd_eq _ _ _ _ E).
      destruct (zipM_Forall (bop (List.length s1) f) (has_shape s1) (has_shape s2)
                  (has_shape s1) la lb IH Fa Fb E) as (lc & Ez & Lc & Fc).
      rewrite Ez. cbn. eexists. split; [reflexivity|].
      exists lc. repeat split; [congruence | exact Fc].
    + destruct Hd as [Hd|Hd]; [congruence|]. subst d2.
      destruct lb as [|y [|? ?]]; try discriminate Lb.
      rewrite bop_Nd_r1 by (cbn in NE; exact NE).
      inversion Fb as [|? ? Hy _]; subst.
      destruct (mapM_Forall (fun x => bop (List.length s1) f x y) (has_shape s1)
                  (has_shape s1) la (fun x Hx => IH x y Hx Hy) Fa)
        as (lc & Em & Lc & Fc).
      rewrite Em. cbn. eexists. split; [reflexivity|].
      exists lc. repeat split; [congruence | exact Fc].
Qed.




Lemma broadcast_op_same_rank (f : R -> R -> R) (a b : NT) (k : nat) :
  rank a = k -> rank b = k -> broadcast_op f a b = bop k f a b.
Proof.
  intros Ra Rb. unfold broadcast_op. rewrite Ra, Rb, Nat.max_id, Nat.sub_diag.
  reflexivity.
Qed.

Lemma broadcast_op_shapes (f : R -> R -> R) (sa sb : list nat) (a b : NT) :
  has_shape sa a -> has_shape sb b -> positive sa -> positive sb ->
  List.length sa = List.length sb ->
  broadcast_op f a b = bop (List.length sb) f a b.
Proof.
  intros Ha Hb Pa Pb L. apply broadcast_op_same_rank.
  - rewrite (rank_has_shape sa a Ha Pa). exact L.
  - apply (rank_has_shape sb b Hb Pb).
Qed.



(** ** Reductions *)


Lemma sum_slices_shape (s : list nat) (first : NT) (rest : list NT) :
  positive s -> has_shape s first -> Forall (has_shape s) rest ->
  exists r, sum_slices first rest = Ok r /\ has_shape s r.
Proof.
  intros P Hf F. revert first Hf.
  induction F as [|c rest Hc _ IH]; intros first Hf; cbn [sum_slices].
  - eauto.
  - rewrite (rank_has_shape s first Hf P).
    destruct (bop_shape_l Rplus s s first c (sub_shape_refl s) Hf Hc) as (r & Er & Hr).
    rewrite Er. cbn [bind]. apply IH. exact Hr.
Qed.

Lemma mean1_nt_shape (n c : nat) (s : list nat) (x : NT) :
  has_shape (n :: c :: s) x -> (1 <= c)%nat -> positive s ->
  exists m, mean1_nt x = Ok m /\ has_shape (n :: 1%nat :: s) m.
Proof.
  intros (batch & -> & Ln & Fb) C P. cbn [mean1_nt].
  destruct (mapM_Forall mean_channels (has_shape (c :: s)) (has_shape (1%nat :: s)) batch)
    as (lm & Em & Lm & Fm); [|exact Fb|].
  - intros b (l & -> & Lc & Fc).
    destruct Fc as [|c0 cs H0 Fcs]; [cbn in Lc; lia|].
    cbn [mean_channels].
    destruct (sum_slices_shape s c0 cs P H0 Fcs) as (r & Er & Hr).
    rewrite Er. cbn [bind]. eexists. split; [reflexivity|].
    eexists. split; [reflexivity|]. split; [reflexivity|].
    constructor; [|constructor]. apply tmap_has_shape. exact Hr.
  - rewrite Em. cbn. eexists. split; [reflexivity|].
    exists lm. repeat split; [congruence | exact Fm].
Qed.

(** ** Entries of the results *)

Lemma nth_map_in {A B : Type} (g : A -> B) (l : list A) (i : nat) (d1 : B) (d2 : A) :
  (i < List.length l)%nat -> nth i (map g l) d1 = g (nth i l d2).
Proof.
  intros Hi. rewrite (nth_indep _ d1 (g d2)) by (rewrite length_map; exact Hi).
  apply map_nth.
Qed.

Lemma Forall_nth_in {A : Type} (P : A -> Prop) (l : list A) (i : nat) (d : A) :
  Forall P l -> (i < List.length l)%nat -> P (nth i l d).
Proof. intros F Hi. rewrite Forall_forall in F. apply F, nth_In, Hi. Qed.

Lemma mapM_nth {A B : Type} (f : A -> result B) (l : list A) (lc : list B)
    (i : nat) (d : A) (dc : B) :
  mapM f l = Ok lc -> (i < List.length l)%nat -> f (nth i l d) = Ok (nth i lc dc).
Proof.
  revert lc i. induction l as [|a l IH]; intros lc i E Hi; [cbn in Hi; lia|].
  cbn [mapM] in E. inv_bind E as b Eb. inv_bind E as bs Ebs. injection E as <-.
  destruct i as [|i]; cbn [nth]; [exact Eb|].
  apply IH; [exact Ebs | cbn in Hi; lia].
Qed.

Lemma zipM_nth {A B C : Type} (f : A -> B -> result C) (la : list A) (lb : list B)
    (lc : list C) (i : nat) (da : A) (db : B) (dc : C) :
  zipM f la lb = Ok lc -> (i < List.length la)%nat -> (i < List.length lb)%nat ->
  f (nth i la da) (nth i lb db) = Ok (nth i lc dc).
Proof.
  revert lb lc i. induction la as [|a la IH]; intros lb lc i E Ha Hb;
    [cbn in Ha; lia|].
  destruct lb as [|b lb]; [cbn in Hb; lia|].
  cbn [zipM] in E. inv_bind E as c Ec. inv_bind E as cs Ecs. injection E as <-.
  destruct i as [|i]; cbn [nth]; [exact Ec|].
  apply IH; [exact Ecs | cbn in Ha; lia | cbn in Hb; lia].
Qed.

Lemma mapM_ext {A B : Type} (f g : A -> result B) (l : list A) :
  (forall a, f a = g a) -> mapM f l = mapM g l.
Proof. intros E. induction l as [|a l IH]; cbn [mapM]; [reflexivity|].
  rewrite E, IH. reflexivity. Qed.

Lemma zipM_flip {A B C : Type} (f : A -> B -> result C) (g : B -> A -> result C)
    (la : list A) (lb : list B) :
  (forall a b, f a b = g b a) -> zipM f la lb = zipM g lb la.
Proof.
  intros E. revert lb. induction la as [|a la IH]; intros [|b lb]; cbn [zipM];
    try reflexivity.
  rewrite E, IH. reflexivity.
Qed.

(** Swapping the operands swaps the arguments of the operation. *)
Lemma bop_flip (n : nat) (f : R -> R -> R) (a b : NT) :
  bop n f a b = bop n (fun x y => f y x) b a.
Proof.
  revert a b. induction n as [|n IH]; intros a b.
  - destruct a, b; reflexivity.
  - destruct a as [x|la], b as [y|lb]; try reflexivity.
    cbn [bop]. rewrite (Nat.eqb_sym (List.length lb)).
    destruct (Nat.eqb_spec (List.length la) (List.length lb)) as [E|NE].
    + rewrite (zipM_flip (bop n f) (bop n (fun x y => f y x)) la lb IH).
      reflexivity.
    + destruct la as [|x [|x' la]], lb as [|y [|y' lb]];
        try reflexivity; try (exfalso; apply NE; reflexivity);
        (f_equal; apply mapM_ext; intros; apply IH).
Qed.

Lemma bop_shape_r (f : R -> R -> R) (s1 s2 : list nat) (a b : NT) :
  sub_shape s1 s2 -> has_shape s1 a -> has_shape s2 b ->
  exists c, bop (List.length s2) f a b = Ok c /\ has_shape s2 c.
Proof.
  intros Sb Ha Hb. rewrite bop_flip. apply (bop_shape_l _ s2 s1); assumption.
Qed.

Lemma in_range_cons (i d : nat) (idx s : list nat) :
  in_range (i :: idx) (d :: s) -> (i < d)%nat /\ in_range idx s.
Proof. intros F. inversion F; subst. split; assumption. Qed.

Lemma clip_same (s idx : list nat) : in_range idx s -> clip s idx = idx.
Proof.
  intros F. induction F as [|i d idx s Hi _ IH]; cbn [clip]; [reflexivity|].
  rewrite IH. destruct (Nat.eqb_spec d 1); [f_equal; lia | reflexivity].
Qed.

Lemma get_tmap (f : R -> R) (s idx : list nat) (t : NT) :
  has_shape s t -> in_range idx s -> get idx (tmap f t) = f (get idx t).
Proof.
  intros Ht F. revert t Ht. induction F as [|i d idx s Hi _ IH]; intros t Ht.
  - destruct Ht as (r & ->). reflexivity.
  - destruct Ht as (l & -> & L & Fl). cbn [tmap get].
    rewrite (nth_map_in _ l i _ (Sc 0%R)) by lia.
    apply IH. apply Forall_nth_in; [exact Fl | lia].
Qed.

(** Entry of a broadcast result: the smaller operand is read at the
    clipped index. *)
Lemma get_bop_l (f : R -> R -> R) (s1 s2 idx : list nat) (a b c : NT) :
  sub_shape s2 s1 -> has_shape s1 a -> has_shape s2 b ->
  bop (List.length s1) f a b = Ok c -> in_range idx s1 ->
  get idx c = f (get idx a) (get (clip s2 idx) b).
Proof.
  intros Sb. revert a b c idx.
  induction Sb as [|d2 d1 s2 s1 Hd Sb IH]; intros a b c idx Ha Hb E F.
  - destruct Ha as (x & ->), Hb as (y & ->). inversion F; subst.
    cbn in E. injection E as <-. reflexivity.
  - destruct Ha as (la & -> & La & Fa), Hb as (lb & -> & Lb & Fb).
    destruct idx as [|i idx]; [inversion F|].
    apply in_range_cons in F. destruct F as [Hi F].
    cbn [List.length] in E. cbn [clip get].
    destruct (Nat.eq_dec (List.length la) (List.length lb)) as [El|NE].
    + rewrite (bop_Nd_eq _ _ _ _ El) in E. apply fmap_Ok_inv in E.
      destruct E as (lc & E & ->). cbn [get].
      assert (Hc : bop (List.length s1) f (nth i la (Sc 0%R)) (nth i lb (Sc 0%R))
                   = Ok (nth i lc (Sc 0%R)))
        by (apply (zipM_nth _ _ _ _ _ _ _ _ E); lia).
      assert (Ia : (i < List.length la)%nat) by lia.
      assert (Ib : (i < List.length lb)%nat) by lia.
      rewrite (IH _ _ _ idx (Forall_nth_in _ la i (Sc 0%R) Fa Ia)
                 (Forall_nth_in _ lb i (Sc 0%R) Fb Ib) Hc F).
      destruct (Nat.eqb_spec d2 1) as [E1|_]; [|reflexivity].
      replace i with O by lia. reflexivity.
    + destruct Hd as [Hd|Hd]; [congruence|]. subst d2.
      destruct lb as [|y [|? ?]]; try discriminate Lb.
      rewrite bop_Nd_r1 in E by (cbn in NE; exact NE).
      apply fmap_Ok_inv in E. destruct E as (lc & E & ->). cbn [get nth Nat.eqb].
      assert (Ia : (i < List.length la)%nat) by lia.
      pose proof (mapM_nth _ _ _ i (Sc 0%R) (Sc 0%R) E Ia) as Hc.
      cbn beta in Hc. inversion Fb as [|? ? Hy _]; subst.
      apply (IH _ _ _ idx (Forall_nth_in _ la i (Sc 0%R) Fa Ia) Hy Hc F).
Qed.

Lemma get_bop_r (f : R -> R -> R) (s1 s2 idx : list nat) (a b c : NT) :
  sub_shape s1 s2 -> has_shape s1 a -> has_shape s2 b ->
  bop (List.length s2) f a b = Ok c -> in_range idx s2 ->
  get idx c = f (get (clip s1 idx) a) (get idx b).
Proof.
  intros Sb Ha Hb E F. rewrite bop_flip in E.
  apply (get_bop_l _ s2 s1 idx b a c Sb Hb Ha E F).
Qed.

(** *** Sums over the channel axis *)

Lemma fold_left_sum {A : Type} (g : A -> R) (l : list A) (a0 : R) :
  fold_left (fun acc t => (acc + g t)%R) l a0 =
  (a0 + fold_right (fun t acc => (g t + acc)%R) 0%R l)%R.
Proof.
  revert a0. induction l as [|t l IH]; intros a0; cbn [fold_left fold_right].
  - ring.
  - rewrite IH. ring.
Qed.

Lemma fold_seq_shift (f : nat -> R) (a n : nat) :
  fold_right (fun j acc => (f j + acc)%R) 0%R (seq (S a) n) =
  fold_right (fun j acc => (f (S j) + acc)%R) 0%R (seq a n).
Proof.
  revert a. induction n as [|n IH]; intros a; cbn [seq fold_right]; [reflexivity|].
  rewrite IH. reflexivity.
Qed.

Lemma channel_sum_nth {A : Type} (g : A -> R) (l : list A) (d : A) :
  channel_sum (List.length l) (fun j => g (nth j l d)) =
  fold_right (fun t acc => (g t + acc)%R) 0%R l.
Proof.
  unfold channel_sum. induction l as [|t l IH]; cbn [List.length seq fold_right nth];
    [reflexivity|].
  rewrite fold_seq_shift. cbn [nth]. rewrite IH. reflexivity.
Qed.

Lemma channel_sum_ext (c : nat) (f g : nat -> R) :
  (forall j, (j < c)%nat -> f j = g j) -> channel_sum c f = channel_sum c g.
Proof.
  intros E. unfold channel_sum.
  assert (H : forall a n, (a + n <= c)%nat ->
            fold_right (fun j acc => (f j + acc)%R) 0%R (seq a n) =
            fold_right (fun j acc => (g j + acc)%R) 0%R (seq a n)).
  { intros a n. revert a. induction n as [|n IH]; intros a Hn;
      cbn [seq fold_right]; [reflexivity|].
    rewrite E by lia. rewrite IH by lia. reflexivity. }
  apply H. lia.
Qed.

Lemma sum_slices_get (s idx : list nat) (first : NT) (rest : list NT) (r : NT) :
  positive s -> has_shape s first -> Forall (has_shape s) rest ->
  sum_slices first rest = Ok r -> in_range idx s ->
  get idx r = fold_left (fun acc t => (acc + get idx t)%R) rest (get idx first).
Proof.
  intros P Hf F. revert first r Hf.
  induction F as [|c rest Hc _ IH]; intros first r Hf E In; cbn [sum_slices] in E.
  - injection E as <-. reflexivity.
  - inv_bind E as s0 E0. rewrite (rank_has_shape s first Hf P) in E0.
    destruct (bop_shape_l Rplus s s first c (sub_shape_refl s) Hf Hc)
      as (s0' & E0' & H0).
    assert (s0' = s0) by congruence. subst s0'.
    cbn [fold_left]. rewrite (IH s0 r H0 E In).
    rewrite (get_bop_l Rplus s s idx first c s0 (sub_shape_refl s) Hf Hc E0 In).
    rewrite (clip_same s idx In). reflexivity.
Qed.

(** Entry of the mean over axis 1. *)
Lemma get_mean1 (n c i : nat) (s rest : list nat) (x m : NT) :
  has_shape (n :: c :: s) x -> (1 <= c)%nat -> positive s ->
  mean1_nt x = Ok m -> (i < n)%nat -> in_range rest s ->
  get (i :: O :: rest) m =
  (channel_sum c (fun j => get (i :: j :: rest) x) / INR c)%R.
Proof.
  intros (batch & -> & Ln & Fb) C P E Hi In. cbn [mean1_nt] in E.
  apply fmap_Ok_inv in E. destruct E as (lm & E & ->). cbn [get].
  assert (Ib : (i < List.length batch)%nat) by lia.
  pose proof (mapM_nth _ _ _ i (Sc 0%R) (Sc 0%R) E Ib) as Em.
  pose proof (Forall_nth_in _ _ i (Sc 0%R) Fb Ib) as (l & El & Lc & Fc).
  rewrite El in Em |- *.
  destruct Fc as [|c0 cs H0 Fcs]; [cbn in Lc; lia|].
  cbn [mean_channels] in Em. inv_bind Em as r Er. injection Em as <-.
  cbn [get nth].
  destruct (sum_slices_shape s c0 cs P H0 Fcs) as (r' & Er' & Hr).
  assert (r' = r) by congruence. subst r'.
  rewrite (get_tmap _ s rest r Hr In).
  rewrite (sum_slices_get s rest c0 cs r P H0 Fcs Er In).
  rewrite fold_left_sum. subst c.
  change (fun j => get rest match j with
                            | O => c0
                            | S m => nth m cs (Sc 0%R)
                            end)
    with (fun j => get rest (nth j (c0 :: cs) (Sc 0%R))).
  rewrite (channel_sum_nth (get rest) (c0 :: cs) (Sc 0%R)).
  reflexivity.
Qed.

(** ** The recalibration step with gamma = beta = 0 *)

Section Layers.

Variable W : Type.
Variable w0 : W.
Variable conv_impl : ConvSpec -> W -> NT -> result NT.
Variable group_norm_impl : Z -> Z -> W -> NT -> result NT.
Variable layer_norm_impl : NT -> list Z -> NT -> NT -> Q -> result NT.
Variable gelu_impl : NT -> NT.

#[local] Instance layers : Torch NT W :=
  torch W w0 conv_impl group_norm_impl layer_norm_impl gelu_impl.

(** On a batched input [(n, c, *spatial)] with as many spatial axes as
    the layer has dimensions and a batch of at least one, a convolution
    that returns does so with a regular batched map
    [(n', out_channels, *spatial')] of positive sizes. *)
Hypothesis conv_returns_maps :
  forall c w x y n c0 sp,
    has_shape (n :: c0 :: sp) x -> List.length sp = nd c -> (1 <= n)%nat ->
    conv_impl c w x = Ok y ->
    exists n' sp', has_shape (n' :: Z.to_nat (out_channels c) :: sp') y /\
                   List.length sp' = nd c /\ positive (n' :: sp').

(** The group norm returns a tensor of the shape of its input. *)
Hypothesis group_norm_keeps_shape :
  forall g c w x y s,
    has_shape s x -> group_norm_impl g c w x = Ok y -> has_shape s y.

(** The activation works entry by entry. *)
Hypothesis gelu_keeps_shape :
  forall s x, has_shape s x -> has_shape s (gelu_impl x).



(** ** LayerNorm on five-dimensional input *)

Lemma index_None3_has_shape (ws : list R) :
  has_shape [List.length ws; 1; 1; 1]%nat (Nd (map (unsqueeze 3) (map Sc ws))).
Proof.
  eexists. split; [reflexivity|]. split; [rewrite !length_map; reflexivity|].
  apply Forall_map, Forall_map, Forall_forall. intros w _.
  apply (unsqueeze_has_shape 3 [] (Sc w)). cbn. eauto.
Qed.

Lemma get_index_None3 (ws : list R) (j : nat) :
  (j < List.length ws)%nat ->
  get [O; j; O; O; O] (Nd [Nd (map (unsqueeze 3) (map Sc ws))]) = nth j ws 0%R.
Proof.
  intros Hj. cbn [get nth].
  rewrite (nth_map_in (unsqueeze 3) (map Sc ws) j _ (Sc 0%R))
    by (rewrite length_map; exact Hj).
  rewrite (nth_map_in Sc ws j _ 0%R) by exact Hj. reflexivity.
Qed.

Lemma broadcast_op_rank_l (f : R -> R -> R) (a b : NT) (k : nat) :
  rank a = k -> rank b = S k -> broadcast_op f a b = bop (S k) f (Nd [a]) b.
Proof.
  intros Ra Rb. unfold broadcast_op. rewrite Ra, Rb.
  replace (Nat.max k (S k)) with (S k) by lia.
  replace (S k - k)%nat with 1%nat by lia. rewrite Nat.sub_diag. reflexivity.
Qed.

Lemma broadcast_op_rank_r (f : R -> R -> R) (a b : NT) (k : nat) :
  rank a = S k -> rank b = k -> broadcast_op f a b = bop (S k) f a (Nd [b]).
Proof.
  intros Ra Rb. unfold broadcast_op. rewrite Ra, Rb.
  replace (Nat.max (S k) k) with (S k) by lia.
  replace (S k - k)%nat with 1%nat by lia. rewrite Nat.sub_diag. reflexivity.
Qed.

Lemma has_shape_wrap (s : list nat) (t : NT) :
  has_shape s t -> has_shape (1%nat :: s) (Nd [t]).
Proof. intros Ht. exists [t]. repeat split. constructor; [exact Ht|constructor]. Qed.

(** On input [(n, c, d1, d2, d3)] the channels_first branch returns, at
    every position, the value of the formula of the specification: mean
    and variance over the channel axis, scale and shift taken at the
    channel. *)
Lemma LayerNorm_forward_3d_values (ws bs : list R) (e : Q) (ns : list Z)
    (x : NT) (n c d1 d2 d3 : nat) :
  has_shape [n; c; d1; d2; d3] x -> positive [n; c; d1; d2; d3] ->
  List.length ws = c -> List.length bs = c ->
  exists y,
    LayerNorm_forward
      {| weight := Nd (map Sc ws); bias := Nd (map Sc bs); eps := e;
         data_format := channels_first; normalized_shape := ns |} x = Ok y /\
    has_shape [n; c; d1; d2; d3] y /\
    forall i j p q r,
      (i < n)%nat -> (j < c)%nat -> (p < d1)%nat -> (q < d2)%nat -> (r < d3)%nat ->
      get [i; j; p; q; r] y =
      layer_norm_entry (nth j ws 0%R) (nth j bs 0%R) (Q2R e) c
        (fun j' => get [i; j'; p; q; r] x) j.
Proof.
  intros Hx P Lw Lb.
  assert (Pn : (1 <= n)%nat) by (inversion P; assumption).
  assert (Pt : positive [c; d1; d2; d3]) by (inversion P; assumption).
  assert (Pc : (1 <= c)%nat) by (inversion Pt; assumption).
  assert (Ps : positive [d1; d2; d3]) by (inversion Pt; assumption).
  set (s := [n; c; d1; d2; d3]) in *.
  set (su := [n; 1%nat; d1; d2; d3]).
  set (sw := [1%nat; c; 1%nat; 1%nat; 1%nat]).
  assert (Pu : positive su) by (constructor; [exact Pn|constructor; [lia|exact Ps]]).
  assert (Su : sub_shape su s)
    by (repeat constructor; auto; apply sub_shape_refl).
  assert (Sw : sub_shape sw s) by (repeat constructor; auto).
  (* the steps of forward *)
  destruct (mean1_nt_shape n c [d1; d2; d3] x Hx Pc Ps) as (u & Eu & Hu).
  fold su in Hu.
  destruct (bop_shape_l Rminus s su x u Su Hx Hu) as (d & Ed & Hd).
  pose proof (tmap_has_shape (fun v => (v * v)%R) s d Hd) as Hd2.
  destruct (mean1_nt_shape n c [d1; d2; d3] _ Hd2 Pc Ps) as (v & Ev & Hv).
  fold su in Hv.
  set (den := tmap sqrt (tmap (fun z => (z + Q2R e)%R) v)).
  assert (Hden : has_shape su den) by (apply tmap_has_shape, tmap_has_shape, Hv).
  destruct (bop_shape_l Rdiv s su d den Su Hd Hden) as (xh & Exh & Hxh).
  set (w4 := Nd (map (unsqueeze 3) (map Sc ws))).
  set (b4 := Nd (map (unsqueeze 3) (map Sc bs))).
  assert (Hw4 : has_shape [c; 1; 1; 1]%nat w4)
    by (rewrite <- Lw; apply index_None3_has_shape).
  assert (Hb4 : has_shape [c; 1; 1; 1]%nat b4)
    by (rewrite <- Lb; apply index_None3_has_shape).
  assert (P4 : positive [c; 1; 1; 1]%nat) by (repeat constructor; lia).
  pose proof (has_shape_wrap _ _ Hw4) as Hw5. fold sw in Hw5.
  pose proof (has_shape_wrap _ _ Hb4) as Hb5. fold sw in Hb5.
  destruct (bop_shape_r Rmult sw s (Nd [w4]) xh Sw Hw5 Hxh) as (wx & Ewx & Hwx).
  destruct (bop_shape_l Rplus s sw wx (Nd [b4]) Sw Hwx Hb5) as (y & Ey & Hy).
  exists y. split; [|split; [exact Hy|]].
  - unfold LayerNorm_forward.
    cbn [data_format weight bias eps mean1 t_sub t_div t_mul t_add pow2 t_sqrt
         add_scalar index_None3 layers torch].
    rewrite Eu. cbn [bind].
    rewrite (broadcast_op_shapes Rminus s su x u Hx Hu P Pu eq_refl).
    change (List.length su) with (List.length s). rewrite Ed. cbn [bind].
    rewrite Ev. cbn [bind].
    fold den.
    rewrite (broadcast_op_shapes Rdiv s su d den Hd Hden P Pu eq_refl).
    change (List.length su) with (List.length s). rewrite Exh. cbn [bind].
    cbn [index_None3_nt]. fold w4 b4. cbn [bind].
    rewrite (broadcast_op_rank_l Rmult w4 xh 4
               (rank_has_shape _ _ Hw4 P4) (rank_has_shape _ _ Hxh P)).
    change 5%nat with (List.length s). rewrite Ewx. cbn [bind].
    rewrite (broadcast_op_rank_r Rplus wx b4 4
               (rank_has_shape _ _ Hwx P) (rank_has_shape _ _ Hb4 P4)).
    exact Ey.
  - intros i j p q r Hi Hj Hp Hq Hr.
    assert (In : in_range [i; j; p; q; r] s) by (repeat constructor; assumption).
    assert (Inr : in_range [p; q; r] [d1; d2; d3]) by (repeat constructor; assumption).
    assert (In0 : in_range [i; O; p; q; r] su) by (repeat constructor; auto; lia).
    assert (Cu : clip su [i; j; p; q; r] = [i; O; p; q; r]).
    { unfold su. cbn [clip Nat.eqb].
      change (clip [d1; d2; d3] [p; q; r]) with (clip [d1; d2; d3] [p; q; r]).
      pose proof (clip_same [d1; d2; d3] [p; q; r] Inr) as Cs. cbn [clip] in Cs.
      rewrite Cs. destruct (Nat.eqb_spec n 1); [f_equal; lia | reflexivity]. }
    assert (Cw : clip sw [i; j; p; q; r] = [O; j; O; O; O]).
    { unfold sw. cbn [clip Nat.eqb].
      destruct (Nat.eqb_spec c 1); [repeat f_equal; lia | reflexivity]. }
    (* entries of the mean and of the centred input *)
    assert (Mu : get [i; O; p; q; r] u =
                 (channel_sum c (fun j' => get [i; j'; p; q; r] x) / INR c)%R).
    { apply (get_mean1 n c i [d1; d2; d3] [p; q; r] x u); assumption. }
    assert (Dj : forall j', (j' < c)%nat ->
               get [i; j'; p; q; r] d =
               (get [i; j'; p; q; r] x - get [i; O; p; q; r] u)%R).
    { intros j' Hj'.
      assert (In' : in_range [i; j'; p; q; r] s) by (repeat constructor; assumption).
      rewrite (get_bop_l Rminus s su _ x u d Su Hx Hu Ed In').
      f_equal. f_equal. unfold su. cbn [clip Nat.eqb].
      pose proof (clip_same [d1; d2; d3] [p; q; r] Inr) as Cs. cbn [clip] in Cs.
      rewrite Cs. destruct (Nat.eqb_spec n 1); [f_equal; lia | reflexivity]. }
    assert (Vv : get [i; O; p; q; r] v =
                 (channel_sum c (fun j' =>
                    (get [i; j'; p; q; r] x - get [i; O; p; q; r] u) *
                    (get [i; j'; p; q; r] x - get [i; O; p; q; r] u)) / INR c)%R).
    { rewrite (get_mean1 n c i [d1; d2; d3] [p; q; r] _ v Hd2 Pc Ps Ev Hi Inr).
      f_equal. apply channel_sum_ext. intros j' Hj'.
      assert (In' : in_range [i; j'; p; q; r] s) by (repeat constructor; assumption).
      rewrite (get_tmap _ s _ d Hd In'). rewrite (Dj j' Hj'). reflexivity. }
    rewrite (get_bop_l Rplus s sw _ wx (Nd [b4]) y Sw Hwx Hb5 Ey In).
    rewrite (get_bop_r Rmult sw s _ (Nd [w4]) xh wx Sw Hw5 Hxh Ewx In).
    rewrite (get_bop_l Rdiv s su _ d den xh Su Hd Hden Exh In).
    rewrite Cu, Cw.
    unfold w4, b4. rewrite (get_index_None3 ws j) by lia.
    rewrite (get_index_None3 bs j) by lia.
    unfold den. rewrite (get_tmap sqrt su _ _ (tmap_has_shape _ su v Hv) In0).
    rewrite (get_tmap _ su _ v Hv In0).
    rewrite (Dj j Hj), Vv, Mu.
    unfold layer_norm_entry. reflexivity.
Qed.

(** ** The recalibration step at its initialisation *)




End Layers.

(** ** Instances *)



(** On the stand-in layers both blocks do return a map. *)
Example zero_grn_block_returns :
  (b <- @MedNeXtBlock_init NT unit demo_torch 2 2 4 3 false "group" None "3d" false ;;
   @MedNeXtBlock_forward NT unit demo_torch b (full 1%R [1; 2; 2; 2; 2]%nat))
  = Ok (full 1%R [1; 2; 2; 2; 2]%nat).
Proof. reflexivity. Qed.

(** C6, on values: the batch of 3 with 2 channels raises in two
    dimensions, and is normalised in three. *)
Lemma LayerNorm_forward_2d_raises :
  (ln <- @LayerNorm_init NT unit demo_torch 2 (1 # 100000) "channels_first" ;;
   @LayerNorm_forward NT unit demo_torch ln (full 1%R [3; 2; 1; 1]%nat))
  = Raise RuntimeError.
Proof. reflexivity. Qed.

End NumericFacts.

(* ================================================================== *)
(** * Further properties of the constructors and of the decoder *)
(* ================================================================== *)

Section Constructors.

Context {T W : Type} `{Torch T W}.

(** X1.  The constructors of the encoder, of the decoder and of the
    network check [checkpoint_style] and [dim] before they build
    anything: a [checkpoint_style] other than [None] and
    'outside_block', or a [dim] other than '2d' and '3d', is an
    [AssertionError] in all three, whatever the other arguments. *)
Theorem unsupported_mode_is_assertion_error
    cin n n_classes exp_r k ek dk ds dr dru cs bc norm_type dim0 g :
  checkpoint_style_supported cs = false \/ dim_supported dim0 = false ->
  MedNeXtEncoder_init cin n exp_r k dr dru cs bc norm_type dim0 g
    = Raise AssertionError /\
  MedNeXtDecoder_init cin n n_classes exp_r k ds dr dru cs bc norm_type dim0 g
    = Raise AssertionError /\
  MedNeXt_init cin n n_classes exp_r k ek dk ds dr dru cs bc norm_type dim0 g
    = Raise AssertionError.
Proof.
  intros Hm.
  unfold MedNeXtEncoder_init, MedNeXtDecoder_init, MedNeXt_init. cbv zeta.
  destruct (checkpoint_style_supported cs) eqn:Ecs; cbn [assert bind].
  - destruct Hm as [Hm|Hm]; [discriminate Hm|]. rewrite Hm. cbn [assert bind].
    repeat split.
  - repeat split.
Qed.

(** X2.  The three block classes assert [dim]; [OutBlock] does not: with
    an unsupported [dim] its local [conv] stays unbound, and the
    constructor raises [UnboundLocalError]. *)
Theorem unsupported_dim_in_blocks
    cin cout exp_r k dr norm_type n_groups dim0 g n_classes :
  dim_supported dim0 = false ->
  MedNeXtBlock_init cin cout exp_r k dr norm_type n_groups dim0 g
    = Raise AssertionError /\
  MedNeXtDownBlock_init cin cout exp_r k dr norm_type dim0 g
    = Raise AssertionError /\
  MedNeXtUpBlock_init cin cout exp_r k dr norm_type dim0 g
    = Raise AssertionError /\
  OutBlock_init cin n_classes dim0 = Raise UnboundLocalError.
Proof.
  intros Hd.
  unfold MedNeXtDownBlock_init, MedNeXtUpBlock_init, MedNeXtBlock_init, OutBlock_init.
  rewrite Hd. cbn [assert bind]. repeat split.
  unfold dim_supported in Hd. apply Bool.orb_false_iff in Hd. destruct Hd as [H2 H3].
  unfold spatial_rank. rewrite H2, H3. reflexivity.
Qed.

(** X3.  [kernel_size] takes precedence: when it is given,
    [enc_kernel_size] and [dec_kernel_size] are not looked at.  When it
    is [None], the network is constructed only if both of them are
    given: the encoder and the decoder read a local that is bound only
    under [if kernel_size is not None]. *)
Theorem kernel_size_precedence
    cin n n_classes exp_r k ek dk ds dr dru cs bc norm_type dim0 g
    (net : MedNeXtNet) :
  MedNeXt_init cin n n_classes exp_r k ek dk ds dr dru cs bc norm_type dim0 g
    = Ok net ->
  match k with
  | Some k0 =>
      MedNeXt_init cin n n_classes exp_r (Some k0) None None ds dr dru cs bc
        norm_type dim0 g = Ok net
  | None => exists a b, ek = Some a /\ dk = Some b
  end.
Proof.
  intros E. destruct k as [k0|]; [exact E|].
  unfold MedNeXt_init in E. cbv zeta in E.
  inv_bind E as u1 A1. inv_bind E as u2 A2. inv_bind E as enc Ee.
  inv_bind E as dec Ed.
  unfold MedNeXtEncoder_init in Ee. cbv zeta in Ee.
  inv_bind Ee as v1 B1. inv_bind Ee as v2 B2. inv_bind Ee as rank R.
  inv_bind Ee as st St. inv_bind Ee as b0 B0. inv_bind Ee as d0 D0.
  inv_bind D0 as e0 X0. inv_bind D0 as k0 K0.
  unfold MedNeXtDecoder_init in Ed. cbv zeta in Ed.
  inv_bind Ed as w1 C1. inv_bind Ed as w2 C2. inv_bind Ed as bn Bn.
  inv_bind Ed as u3 U3. inv_bind U3 as e3 X3. inv_bind U3 as k3 K3.
  destruct ek as [a|]; [|discriminate K0].
  destruct dk as [b|]; [|discriminate K3].
  eauto.
Qed.

(** X4.  Nine stage slots are read: the network is constructed only
    from at least nine block counts and, when [exp_r] is a list, at
    least nine expansion ratios. *)
Theorem nine_stage_slots_are_read
    cin n n_classes exp_r k ek dk ds dr dru cs bc norm_type dim0 g
    (net : MedNeXtNet) :
  MedNeXt_init cin n n_classes exp_r k ek dk ds dr dru cs bc norm_type dim0 g
    = Ok net ->
  (9 <= List.length bc)%nat /\
  (9 <= List.length (expand_exp_r exp_r bc))%nat.
Proof.
  intros E. unfold MedNeXt_init in E. cbv zeta in E.
  inv_bind E as u1 A1. inv_bind E as u2 A2. inv_bind E as enc Ee.
  inv_bind E as dec Ed.
  unfold MedNeXtDecoder_init in Ed. cbv zeta in Ed.
  inv_bind Ed as w1 C1. inv_bind Ed as w2 C2.
  inv_bind Ed as bn Bn. inv_bind Ed as u3 U3. inv_bind Ed as b3 B3.
  inv_bind Ed as u2' U2. inv_bind Ed as b2 B2. inv_bind Ed as u1' U1.
  inv_bind Ed as b1 B1. inv_bind Ed as u0 U0. inv_bind Ed as b0 B0.
  inv_bind B0 as c8 I8. inv_bind U0 as e8 X8.
  unfold index in I8, X8.
  destruct (nth_error bc 8) eqn:N8; [|discriminate I8].
  destruct (nth_error (expand_exp_r exp_r bc) 8) eqn:M8; [|discriminate X8].
  assert (L1 : (8 < List.length bc)%nat)
    by (apply nth_error_Some; rewrite N8; discriminate).
  assert (L2 : (8 < List.length (expand_exp_r exp_r bc))%nat)
    by (apply nth_error_Some; rewrite M8; discriminate).
  split; lia.
Qed.

End Constructors.

(* ================================================================== *)
(** * When the constructors succeed *)
(* ================================================================== *)

Section Constructible.

Context {T W : Type} `{Torch T W}.

Lemma nn_Conv_ok tr rank cin cout k s p g :
  0 < g -> cin mod g = 0 -> cout mod g = 0 ->
  0 <= cin -> 0 <= cout -> 0 <= k ->
  exists c, nn_Conv tr rank cin cout k s p g = Ok c.
Proof.
  intros Hg Hi Ho Hcin Hcout Hk. unfold nn_Conv.
  rewrite (proj2 (Z.leb_gt g 0) Hg), Hi, Ho. cbn [Z.eqb negb].
  rewrite (proj2 (Z.ltb_ge cin 0) Hcin), (proj2 (Z.ltb_ge cout 0) Hcout),
    (proj2 (Z.ltb_ge k 0) Hk). cbn [orb]. eauto.
Qed.

Lemma spatial_rank_ok dim0 :
  dim_supported dim0 = true -> exists rank, spatial_rank dim0 = Ok rank.
Proof.
  intros D. destruct (spatial_rank_supported dim0 D) as [[_ E]|[_ E]]; eauto.
Qed.

Lemma comprehension_ok {A : Type} (mk : result A) (a : A) (n : nat) :
  mk = Ok a -> comprehension n mk = Ok (repeat a n).
Proof.
  intros ->. induction n as [|n IH]; cbn [comprehension repeat]; [reflexivity|].
  rewrite IH. reflexivity.
Qed.

Lemma index_ok {A : Type} (P : A -> Prop) (l : list A) (i : nat) :
  (i < List.length l)%nat -> Forall P l ->
  exists v, index l i = Ok v /\ P v.
Proof.
  intros L F. unfold index. destruct (nth_error l i) as [v|] eqn:N.
  - exists v. split; [reflexivity|].
    rewrite Forall_forall in F. apply F. eapply nth_error_In; eauto.
  - apply nth_error_None in N. lia.
Qed.

Lemma index_ok' {A : Type} (l : list A) (i : nat) :
  (i < List.length l)%nat -> exists v, index l i = Ok v.
Proof.
  intros L. destruct (index_ok (fun _ => True) l i L) as (v & E & _); eauto.
  apply Forall_forall. auto.
Qed.

Lemma MedNeXtBlock_init_ok cin cout e k dr norm_type dim0 g :
  dim_supported dim0 = true -> 0 < cin -> 0 <= cout -> 0 <= e -> 0 <= k ->
  exists b, MedNeXtBlock_init cin cout e k dr norm_type None dim0 g = Ok b.
Proof.
  intros D Hcin Hcout He Hk. unfold MedNeXtBlock_init.
  rewrite D. cbn [assert bind].
  destruct (spatial_rank_ok dim0 D) as (rank & ->). cbn [bind].
  destruct (nn_Conv_ok false rank cin cin k 1 (k / 2) cin) as (c1 & ->);
    try lia; try apply Z_mod_same_full.
  cbn [bind].
  assert (Hn : exists nm,
    (if (norm_type =? "group")%string then fmap Some (nn_GroupNorm cin cin)
     else if (norm_type =? "layer")%string then
       fmap (fun ln => Some (LayerNormC ln))
            (LayerNorm_init cin (1 # 100000) "channels_first")
     else Ok None) = Ok nm).
  { destruct (norm_type =? "group")%string.
    - unfold nn_GroupNorm. rewrite (proj2 (Z.eqb_neq cin 0)) by lia.
      rewrite Z_mod_same_full. cbn. eauto.
    - destruct (norm_type =? "layer")%string; cbn; eauto. }
  destruct Hn as (nm & ->). cbn [bind].
  destruct (nn_Conv_ok false rank cin (e * cin) 1 1 0 1) as (c2 & ->);
    try lia; try apply Z.mod_1_r; try nia.
  cbn [bind].
  destruct (nn_Conv_ok false rank (e * cin) cout 1 1 0 1) as (c3 & ->);
    try lia; try apply Z.mod_1_r; try nia.
  cbn [bind]. eauto.
Qed.

Lemma MedNeXtDownBlock_init_ok cin cout e k dr norm_type dim0 g :
  dim_supported dim0 = true -> 0 < cin -> 0 <= cout -> 0 <= e -> 0 <= k ->
  exists d, MedNeXtDownBlock_init cin cout e k dr norm_type dim0 g = Ok d.
Proof.
  intros D Hcin Hcout He Hk. unfold MedNeXtDownBlock_init.
  destruct (MedNeXtBlock_init_ok cin cout e k false norm_type dim0 g)
    as (b & ->); try assumption.
  cbn [bind]. destruct (spatial_rank_ok dim0 D) as (rank & ->). cbn [bind].
  assert (Hr : exists rc,
    (if dr then fmap Some (nn_Conv false rank cin cout 1 2 0 1) else Ok None)
      = Ok rc).
  { destruct dr; [|eauto].
    destruct (nn_Conv_ok false rank cin cout 1 2 0 1) as (c & ->);
      try lia; try apply Z.mod_1_r. cbn. eauto. }
  destruct Hr as (rc & ->). cbn [bind].
  destruct (nn_Conv_ok false rank cin cin k 2 (k / 2) cin) as (c1 & ->);
    try lia; try apply Z_mod_same_full.
  cbn [bind]. eauto.
Qed.

Lemma MedNeXtUpBlock_init_ok cin cout e k dr norm_type dim0 g :
  dim_supported dim0 = true -> 0 < cin -> 0 <= cout -> 0 <= e -> 0 <= k ->
  exists u, MedNeXtUpBlock_init cin cout e k dr norm_type dim0 g = Ok u.
Proof.
  intros D Hcin Hcout He Hk. unfold MedNeXtUpBlock_init.
  destruct (MedNeXtBlock_init_ok cin cout e k false norm_type dim0 g)
    as (b & ->); try assumption.
  cbn [bind]. destruct (spatial_rank_ok dim0 D) as (rank & ->). cbn [bind].
  assert (Hr : exists rc,
    (if dr then fmap Some (nn_Conv true rank cin cout 1 2 0 1) else Ok None)
      = Ok rc).
  { destruct dr; [|eauto].
    destruct (nn_Conv_ok true rank cin cout 1 2 0 1) as (c & ->);
      try lia; try apply Z.mod_1_r. cbn. eauto. }
  destruct Hr as (rc & ->). cbn [bind].
  destruct (nn_Conv_ok true rank cin cin k 2 (k / 2) cin) as (c1 & ->);
    try lia; try apply Z_mod_same_full.
  cbn [bind]. eauto.
Qed.

Lemma OutBlock_init_ok cin n_classes dim0 :
  dim_supported dim0 = true -> 0 <= cin -> 0 <= n_classes ->
  exists o, OutBlock_init cin n_classes dim0 = Ok o.
Proof.
  intros D Hcin Hn. unfold OutBlock_init.
  destruct (spatial_rank_ok dim0 D) as (rank & ->). cbn [bind].
  destruct (nn_Conv_ok true rank cin n_classes 1 1 0 1) as (c & ->);
    try lia; try apply Z.mod_1_r.
  cbn [bind]. eauto.
Qed.

Section Stages.

Variables (bc ex : list Z) (k : Z) (dr dru : bool) (norm_type dim0 : string)
  (g : bool).
Hypothesis D : dim_supported dim0 = true.
Hypothesis Hk : 0 < k.
Hypothesis Hex : Forall (fun e => 0 < e) ex.

Lemma stage_ok (slot : nat) (w : Z) :
  (slot < List.length bc)%nat -> (slot < List.length ex)%nat -> 0 < w ->
  exists blocks,
    (c <- index bc slot ;;
     for_range c (e <- index ex slot ;; k' <- local_kernel_size (Some k) ;;
                  MedNeXtBlock_init w w e k' dr norm_type None dim0 g))
      = Ok blocks.
Proof.
  intros Lb Le Hw.
  destruct (index_ok' bc slot Lb) as (c & ->). cbn [bind].
  destruct (index_ok _ ex slot Le Hex) as (e & Ee & He).
  destruct (MedNeXtBlock_init_ok w w e k dr norm_type dim0 g) as (b & Eb);
    try assumption; try lia.
  unfold for_range. erewrite comprehension_ok; [eauto|].
  rewrite Ee. cbn [bind local_kernel_size]. exact Eb.
Qed.

Lemma down_ok (slot : nat) (w w' : Z) (g' : bool) :
  (slot < List.length ex)%nat -> 0 < w -> 0 < w' ->
  exists d,
    (e <- index ex slot ;; k' <- local_kernel_size (Some k) ;;
     MedNeXtDownBlock_init w w' e k' dru norm_type dim0 g') = Ok d.
Proof.
  intros Le Hw Hw'.
  destruct (index_ok _ ex slot Le Hex) as (e & -> & He).
  cbn [bind local_kernel_size].
  apply MedNeXtDownBlock_init_ok; try assumption; lia.
Qed.

Lemma up_ok (slot : nat) (w w' : Z) :
  (slot < List.length ex)%nat -> 0 < w -> 0 < w' ->
  exists u,
    (e <- index ex slot ;; k' <- local_kernel_size (Some k) ;;
     MedNeXtUpBlock_init w w' e k' dru norm_type dim0 g) = Ok u.
Proof.
  intros Le Hw Hw'.
  destruct (index_ok _ ex slot Le Hex) as (e & -> & He).
  cbn [bind local_kernel_size].
  apply MedNeXtUpBlock_init_ok; try assumption; lia.
Qed.

End Stages.

Lemma MedNeXtEncoder_init_ok cin n exp_r k dr dru cs bc norm_type dim0 g :
  checkpoint_style_supported cs = true -> dim_supported dim0 = true ->
  0 < cin -> 0 < n -> 0 < k ->
  (5 <= List.length bc)%nat -> (5 <= List.length (expand_exp_r exp_r bc))%nat ->
  Forall (fun e => 0 < e) (expand_exp_r exp_r bc) ->
  exists enc,
    MedNeXtEncoder_init cin n exp_r (Some k) dr dru cs bc norm_type dim0 g
      = Ok enc.
Proof.
  intros Hcs D Hcin Hn Hk Lb Le Hex.
  unfold MedNeXtEncoder_init. cbv zeta. rewrite Hcs, D. cbn [assert bind].
  destruct (spatial_rank_ok dim0 D) as (rank & ->). cbn [bind].
  destruct (nn_Conv_ok false rank cin n 1 1 0 1) as (st & ->);
    try lia; try apply Z.mod_1_r.
  cbn [bind].
  destruct (stage_ok bc _ k dr norm_type dim0 g D Hk Hex 0 n) as (b0 & ->);
    try lia. cbn [bind].
  destruct (down_ok _ k dru norm_type dim0 D Hk Hex 1 n (2 * n) false)
    as (d0 & ->); try lia. cbn [bind].
  destruct (stage_ok bc _ k dr norm_type dim0 g D Hk Hex 1 (n * 2)) as (b1 & ->);
    try lia. cbn [bind].
  destruct (down_ok _ k dru norm_type dim0 D Hk Hex 2 (2 * n) (4 * n) g)
    as (d1 & ->); try lia. cbn [bind].
  destruct (stage_ok bc _ k dr norm_type dim0 g D Hk Hex 2 (n * 4)) as (b2 & ->);
    try lia. cbn [bind].
  destruct (down_ok _ k dru norm_type dim0 D Hk Hex 3 (4 * n) (8 * n) g)
    as (d2 & ->); try lia. cbn [bind].
  destruct (stage_ok bc _ k dr norm_type dim0 g D Hk Hex 3 (n * 8)) as (b3 & ->);
    try lia. cbn [bind].
  destruct (down_ok _ k dru norm_type dim0 D Hk Hex 4 (8 * n) (16 * n) g)
    as (d3 & ->); try lia. cbn [bind].
  eauto.
Qed.

Lemma MedNeXtDecoder_init_ok cin n n_classes exp_r k ds dr dru cs bc
    norm_type dim0 g :
  checkpoint_style_supported cs = true -> dim_supported dim0 = true ->
  0 < n -> 0 < n_classes -> 0 < k ->
  (9 <= List.length bc)%nat -> (9 <= List.length (expand_exp_r exp_r bc))%nat ->
  Forall (fun e => 0 < e) (expand_exp_r exp_r bc) ->
  exists dec,
    MedNeXtDecoder_init cin n n_classes exp_r (Some k) ds dr dru cs bc
      norm_type dim0 g = Ok dec /\
    do_ds dec = ds.
Proof.
  intros Hcs D Hn Hc Hk Lb Le Hex.
  unfold MedNeXtDecoder_init. cbv zeta. rewrite Hcs, D. cbn [assert bind].
  destruct (stage_ok bc _ k dr norm_type dim0 g D Hk Hex 4 (n * 16)) as (bn & ->);
    try lia. cbn [bind].
  destruct (up_ok _ k dru norm_type dim0 g D Hk Hex 5 (16 * n) (8 * n))
    as (u3 & ->); try lia. cbn [bind].
  destruct (stage_ok bc _ k dr norm_type dim0 g D Hk Hex 5 (n * 8)) as (b3 & ->);
    try lia. cbn [bind].
  destruct (up_ok _ k dru norm_type dim0 g D Hk Hex 6 (8 * n) (4 * n))
    as (u2 & ->); try lia. cbn [bind].
  destruct (stage_ok bc _ k dr norm_type dim0 g D Hk Hex 6 (n * 4)) as (b2 & ->);
    try lia. cbn [bind].
  destruct (up_ok _ k dru norm_type dim0 g D Hk Hex 7 (4 * n) (2 * n))
    as (u1 & ->); try lia. cbn [bind].
  destruct (stage_ok bc _ k dr norm_type dim0 g D Hk Hex 7 (n * 2)) as (b1 & ->);
    try lia. cbn [bind].
  destruct (up_ok _ k dru norm_type dim0 g D Hk Hex 8 (2 * n) n)
    as (u0 & ->); try lia. cbn [bind].
  destruct (stage_ok bc _ k dr norm_type dim0 g D Hk Hex 8 n) as (b0 & ->);
    try lia. cbn [bind].
  destruct (OutBlock_init_ok n n_classes dim0) as (o0 & ->); try lia; auto.
  cbn [bind].
  assert (Hh : forall w, 0 < w -> exists o,
    (if ds then fmap Some (OutBlock_init w n_classes dim0) else Ok None) = Ok o).
  { intros w Hw. destruct ds; [|eauto].
    destruct (OutBlock_init_ok w n_classes dim0) as (o & ->); try lia; auto.
    cbn. eauto. }
  destruct (Hh (n * 2)) as (o1 & ->); try lia. cbn [bind].
  destruct (Hh (n * 4)) as (o2 & ->); try lia. cbn [bind].
  destruct (Hh (n * 8)) as (o3 & ->); try lia. cbn [bind].
  destruct (Hh (n * 16)) as (o4 & ->); try lia. cbn [bind].
  eexists. split; reflexivity.
Qed.

Lemma MedNeXt_init_ok cin n n_classes exp_r k ek dk ds dr dru cs bc
    norm_type dim0 g :
  checkpoint_style_supported cs = true -> dim_supported dim0 = true ->
  0 < cin -> 0 < n -> 0 < n_classes -> 0 < k ->
  (9 <= List.length bc)%nat -> (9 <= List.length (expand_exp_r exp_r bc))%nat ->
  Forall (fun e => 0 < e) (expand_exp_r exp_r bc) ->
  exists net,
    MedNeXt_init cin n n_classes exp_r (Some k) ek dk ds dr dru cs bc
      norm_type dim0 g = Ok net /\
    net_do_ds net = ds /\ do_ds (decoder net) = ds /\
    return_skips (encoder net) = None /\
    net_outside_block_checkpointing net = is_outside_block cs.
Proof.
  intros Hcs D Hcin Hn Hc Hk Lb Le Hex.
  destruct (MedNeXtEncoder_init_ok cin n exp_r k dr dru cs bc norm_type dim0 g)
    as (enc & Ee); try assumption; try lia.
  destruct (MedNeXtDecoder_init_ok cin n n_classes exp_r k ds dr dru cs bc
              norm_type dim0 g) as (dec & Ed & Eds); try assumption.
  unfold MedNeXt_init. cbv zeta. rewrite Hcs, D. cbn [assert bind].
  rewrite Ee. cbn [bind]. rewrite Ed. cbn [bind].
  eexists. split; [reflexivity|].
  cbn [net_do_ds decoder encoder net_outside_block_checkpointing].
  repeat split; try assumption.
  exact (MedNeXtEncoder_init_return_skips _ _ _ _ _ _ _ _ _ _ _ _ Ee).
Qed.

(** X5.  Sufficient conditions for the network to be constructed, for
    any [norm_type]: a supported [checkpoint_style] and [dim], positive
    channel counts, class count and kernel size, nine block counts and
    nine positive expansion ratios.  The constructed network has no
    [return_skips], and its flags are the arguments. *)
Theorem MedNeXt_constructs cin n n_classes exp_r k ek dk ds dr dru cs bc
    norm_type dim0 g :
  checkpoint_style_supported cs = true -> dim_supported dim0 = true ->
  0 < cin -> 0 < n -> 0 < n_classes -> 0 < k ->
  (9 <= List.length bc)%nat -> (9 <= List.length (expand_exp_r exp_r bc))%nat ->
  Forall (fun e => 0 < e) (expand_exp_r exp_r bc) ->
  exists net,
    MedNeXt_init cin n n_classes exp_r (Some k) ek dk ds dr dru cs bc
      norm_type dim0 g = Ok net /\
    net_do_ds net = ds /\ do_ds (decoder net) = ds /\
    return_skips (encoder net) = None /\
    net_outside_block_checkpointing net = is_outside_block cs.
Proof. apply MedNeXt_init_ok. Qed.

Lemma build_network_architecture_ok (v : Variant) (self : TrainerSelf)
    (num_input_channels_arg : Z) (enable_deep_supervision : bool) :
  0 < num_input_channels self -> 0 < num_segmentation_heads self ->
  exists net,
    build_network_architecture v self num_input_channels_arg
      enable_deep_supervision = Ok net /\
    net_do_ds net = true /\ do_ds (decoder net) = true /\
    net_outside_block_checkpointing net =
      match v with
      | M_kernel3 | M_kernel5 | L_kernel3 | L_kernel5 => true
      | _ => false
      end.
Proof.
  intros Hi Hs. unfold build_network_architecture.
  destruct (MedNeXt_init_ok (num_input_channels self) 32
              (num_segmentation_heads self) (variant_exp_r v)
              (variant_kernel_size v) None None true true true
              (variant_checkpoint_style v) (variant_block_counts v)
              "group" "3d" false) as (net & E & E1 & E2 & _ & E4);
    try assumption; try reflexivity; try lia.
  - destruct v; reflexivity.
  - destruct v; cbn; lia.
  - destruct v; cbn; lia.
  - destruct v; cbn; lia.
  - destruct v; cbn; repeat constructor.
  - exists net. repeat split; try assumption.
    rewrite E4. destruct v; reflexivity.
Qed.

(** X6.  Each of the eight trainer variants builds its network for any
    positive numbers of input channels and segmentation heads.  Deep
    supervision is on whatever [enable_deep_supervision] says, and
    outside-block checkpointing is on for the M and L variants only. *)
Theorem every_variant_constructs (v : Variant) (self : TrainerSelf)
    (num_input_channels_arg : Z) (enable_deep_supervision : bool) :
  0 < num_input_channels self -> 0 < num_segmentation_heads self ->
  exists net,
    build_network_architecture v self num_input_channels_arg
      enable_deep_supervision = Ok net /\
    net_do_ds net = true /\ do_ds (decoder net) = true /\
    net_outside_block_checkpointing net =
      match v with
      | M_kernel3 | M_kernel5 | L_kernel3 | L_kernel5 => true
      | _ => false
      end.
Proof. apply build_network_architecture_ok. Qed.

End Constructible.

(* ================================================================== *)
(** * Further properties of the forward passes *)
(* ================================================================== *)

Section Forward.

Context {T W : Type} `{Torch T W}.

Lemma ds_head_off (dec : MedNeXtDecoder) (o : option OutBlock) (x : T) :
  ds_head (set_do_ds false dec) o x = Ok None.
Proof. reflexivity. Qed.

Lemma ds_head_on_inv (dec : MedNeXtDecoder) (o : option OutBlock) (x : T) r :
  ds_head (set_do_ds true dec) o x = Ok r ->
  exists ob y, o = Some ob /\ OutBlock_forward ob x = Ok y /\ r = Some y.
Proof.
  unfold ds_head. cbn [set_do_ds do_ds]. intros E.
  inv_bind E as ob Eo. destruct o as [ob'|]; [|discriminate Eo].
  injection Eo as ->. apply fmap_Ok_inv in E. destruct E as (y & Ey & ->).
  eauto.
Qed.

(** X7.  The decoder unpacks its second argument into exactly four
    skips: a list of any other length is a [ValueError], before any
    layer runs. *)
Theorem decoder_needs_four_skips (dec : MedNeXtDecoder) (x : T) (l : list T) :
  List.length l <> 4%nat ->
  MedNeXtDecoder_forward dec x (PList l) = Raise ValueError.
Proof.
  intros L. unfold MedNeXtDecoder_forward, unpack. cbn [iterate bind].
  destruct (Nat.eqb_spec (List.length l) 4) as [E|_]; [contradiction|].
  reflexivity.
Qed.

(** X8.  The full-resolution output does not depend on [do_ds]: when
    the decoder returns a list under deep supervision, the same decoder
    with [do_ds] off returns, on the same input, the first element of
    that list. *)
Theorem single_output_is_head_of_list (dec : MedNeXtDecoder) (x : T)
    (skips : PyVal) (o : T) (rest : list T) :
  MedNeXtDecoder_forward (set_do_ds true dec) x skips = Ok (PList (o :: rest)) ->
  MedNeXtDecoder_forward (set_do_ds false dec) x skips = Ok (PTensor o).
Proof.
  unfold MedNeXtDecoder_forward. intros E.
  inv_bind E as l El. rewrite El. cbn [bind].
  destruct l as [|r3 [|r2 [|r1 [|r0 [|? ?]]]]]; try discriminate E.
  cbn [set_do_ds bottleneck up_3 up_2 up_1 up_0 dec_block_3 dec_block_2
       dec_block_1 dec_block_0 out_0 out_1 out_2 out_3 out_4] in E |- *.
  inv_bind E as y4 E4. rewrite E4. cbn [bind].
  inv_bind E as d4 D4. rewrite ds_head_off. cbn [bind].
  inv_bind E as y3 E3. rewrite E3. cbn [bind].
  inv_bind E as d3 D3. rewrite ds_head_off. cbn [bind].
  inv_bind E as y2 E2. rewrite E2. cbn [bind].
  inv_bind E as d2 D2. rewrite ds_head_off. cbn [bind].
  inv_bind E as y1 E1. rewrite E1. cbn [bind].
  inv_bind E as d1 D1. rewrite ds_head_off. cbn [bind].
  inv_bind E as y0 E0. rewrite E0. cbn [bind].
  inv_bind E as out Eo. rewrite Eo. cbn [bind].
  cbn [do_ds] in E |- *.
  destruct d1, d2, d3, d4; try discriminate E.
  injection E as -> _. reflexivity.
Qed.

(** X9.  The four extra heads exist only in a decoder constructed with
    [deep_supervision=True].  Switching [do_ds] on afterwards on a
    decoder constructed without them never returns; once the skips are
    unpacked and the bottleneck has run, the exception is the
    [AttributeError] of the missing [out_4]. *)
Theorem deep_supervision_needs_its_heads
    cin n n_classes exp_r k dr dru cs bc norm_type dim0 g
    (dec : MedNeXtDecoder) (x : T) (skips : PyVal) :
  MedNeXtDecoder_init cin n n_classes exp_r k false dr dru cs bc norm_type dim0 g
    = Ok dec ->
  (forall v, MedNeXtDecoder_forward (set_do_ds true dec) x skips <> Ok v) /\
  (forall l y, unpack 4 skips = Ok l ->
     Sequential_forward (bottleneck dec) x = Ok y ->
     MedNeXtDecoder_forward (set_do_ds true dec) x skips = Raise AttributeError).
Proof.
  intros I.
  assert (O4 : out_4 dec = None).
  { unfold MedNeXtDecoder_init in I. cbv zeta in I.
    inv_bind I as w1 C1. inv_bind I as w2 C2.
    inv_bind I as bn Bn. inv_bind I as u3 U3. inv_bind I as b3 B3.
    inv_bind I as u2 U2. inv_bind I as b2 B2. inv_bind I as u1 U1.
    inv_bind I as b1 B1. inv_bind I as u0 U0. inv_bind I as b0 B0.
    inv_bind I as o0 O0. inv_bind I as o1 O1. inv_bind I as o2 O2.
    inv_bind I as o3 O3. inv_bind I as o4 O4.
    injection I as <-. cbn [out_4]. congruence. }
  split.
  - intros v E. unfold MedNeXtDecoder_forward in E.
    inv_bind E as l El.
    destruct l as [|r3 [|r2 [|r1 [|r0 [|? ?]]]]]; try discriminate E.
    inv_bind E as y4 E4. inv_bind E as d4 D4.
    apply ds_head_on_inv in D4. destruct D4 as (ob & y & Eo & _).
    cbn [set_do_ds out_4] in Eo. congruence.
  - intros l y El Ey. unfold MedNeXtDecoder_forward. rewrite El. cbn [bind].
    assert (L : List.length l = 4%nat).
    { unfold unpack in El. inv_bind El as l' I'.
      destruct (Nat.eqb_spec (List.length l') 4) as [L|_]; [|discriminate El].
      congruence. }
    destruct l as [|r3 [|r2 [|r1 [|r0 [|? ?]]]]]; try discriminate L.
    cbn [set_do_ds bottleneck out_4]. rewrite Ey. cbn [bind].
    unfold ds_head. cbn [do_ds]. rewrite O4. reflexivity.
Qed.

(** X10.  What [return_skips] selects: with [return_skips = True] the
    encoder returns its five feature maps, with [False] the last of the
    same five alone. *)
Theorem return_skips_selects_the_list (enc : MedNeXtEncoder) (x : T)
    (l : list T) :
  MedNeXtEncoder_forward (set_return_skips (Some true) enc) x = Ok (PList l) ->
  exists a b c d e,
    l = [a; b; c; d; e] /\
    MedNeXtEncoder_forward (set_return_skips (Some false) enc) x = Ok (PTensor e).
Proof.
  unfold MedNeXtEncoder_forward. intros E. inv_bind E as ret R.
  cbn [set_return_skips return_skips getattr bind] in E |- *.
  injection E as <-.
  assert (R' : MedNeXtEncoder_ret (set_return_skips (Some false) enc) x = Ok ret)
    by exact R.
  rewrite R'. cbn [bind].
  pose proof (MedNeXtEncoder_ret_length _ _ _ R) as L.
  destruct ret as [|a [|b [|c [|d [|e [|? ?]]]]]]; try discriminate L.
  exists a, b, c, d, e. split; reflexivity.
Qed.

(** X11.  [iterative_checkpoint] returns only for an empty stage, and
    then its input: for every block it reads [self.dummy_tensor], which
    the network does not have. *)
Theorem iterative_checkpoint_returns_only_when_empty (net : MedNeXtNet)
    (blocks : list MedNeXtBlock) (x y : T) :
  iterative_checkpoint net blocks x = Ok y <-> blocks = [] /\ y = x.
Proof.
  split.
  - destruct blocks as [|b rest]; cbn; intros E; [|discriminate E].
    injection E as <-. auto.
  - intros [-> ->]. reflexivity.
Qed.

End Forward.

(* ================================================================== *)
(** * Further shape properties *)
(* ================================================================== *)

Module ShapeExtras.

Import Shapes ShapeFacts.

(** ** When broadcasting fails *)

Lemma broadcast_rev_error (a b : list Z) (e : PyError) :
  broadcast_rev a b = Raise e -> e = RuntimeError.
Proof.
  revert b. induction a as [|x a IH]; intros [|y b]; cbn [broadcast_rev];
    try discriminate.
  destruct (broadcast_rev a b) as [r|e'] eqn:E; cbn [bind].
  - destruct (x =? y); [discriminate|].
    destruct (x =? 1); [discriminate|].
    destruct (y =? 1); [discriminate|]. congruence.
  - intros [= <-]. eapply IH. exact E.
Qed.

Lemma broadcast_rev_clash (a b : list Z) (i : nat) (x y : Z) :
  nth_error a i = Some x -> nth_error b i = Some y ->
  x <> y -> x <> 1 -> y <> 1 ->
  broadcast_rev a b = Raise RuntimeError.
Proof.
  revert b i. induction a as [|x' a IH]; intros [|y' b] [|i]; cbn [nth_error];
    try discriminate; intros Ea Eb Nxy Nx Ny; cbn [broadcast_rev].
  - injection Ea as ->. injection Eb as ->.
    destruct (broadcast_rev a b) as [r|e] eqn:E; cbn [bind].
    + rewrite (proj2 (Z.eqb_neq x y) Nxy), (proj2 (Z.eqb_neq x 1) Nx),
        (proj2 (Z.eqb_neq y 1) Ny). reflexivity.
    + f_equal. eapply broadcast_rev_error. exact E.
  - rewrite (IH b i Ea Eb Nxy Nx Ny). reflexivity.
Qed.

Lemma broadcast_clash (a b : Tensor) (i : nat) (x y : Z) :
  List.length a = List.length b ->
  nth_error a i = Some x -> nth_error b i = Some y ->
  x <> y -> x <> 1 -> y <> 1 ->
  broadcast a b = Raise RuntimeError.
Proof.
  intros L Ea Eb Nxy Nx Ny. unfold broadcast.
  assert (Ia : (i < List.length a)%nat)
    by (apply nth_error_Some; rewrite Ea; discriminate).
  rewrite (broadcast_rev_clash (rev a) (rev b) (List.length a - S i) x y);
    try assumption; try reflexivity.
  - rewrite nth_error_rev.
    destruct (Nat.ltb_spec (List.length a - S i) (List.length a)) as [_|F]; [|lia].
    replace (List.length a - S (List.length a - S i))%nat with i by lia. exact Ea.
  - rewrite nth_error_rev. rewrite <- L.
    destruct (Nat.ltb_spec (List.length a - S i) (List.length a)) as [_|F]; [|lia].
    replace (List.length a - S (List.length a - S i))%nat with i by lia. exact Eb.
Qed.

Lemma size_even_conv rank cin cout k g (d : Z) :
  Z.even k = true ->
  conv_out_size (mk_spec false rank cin cout k 1 (k / 2) g) d = d + 1.
Proof.
  intros E. unfold conv_out_size.
  cbn [mk_spec transposed stride padding kernel_size].
  rewrite Z.div_1_r.
  assert (2 * (k / 2) = k).
  { apply Z.even_spec in E. destruct E as [m ->].
    rewrite (Z.mul_comm 2 m), Z.div_mul by lia. lia. }
  lia.
Qed.

Lemma double_halve_odd (d : Z) :
  Z.odd d = true -> 1 <= d -> double (halve d) = d + 1.
Proof.
  intros O P. unfold double, halve.
  apply Z.odd_spec in O. destruct O as [m ->].
  replace (2 * m + 1 - 1) with (m * 2) by lia. rewrite Z.div_mul by lia. lia.
Qed.

(** ** Blocks and stages *)

(** X12.  A stage is shape-preserving: any number of blocks that the
    constructor builds with equal, positive input and output width,
    positive expansion ratios and an odd kernel size map a batched
    input of that width, of positive spatial sizes and with more than
    one value per channel (batch size times the product of the spatial
    sizes exceeds 1), to a tensor of the same shape. *)
Theorem stage_keeps_shape cin k dr norm_type dim0 g (blocks : list Block)
    rank (n : Z) (sp : list Z) :
  Forall (fun b => exists e, 0 < e /\
            MedNeXtBlock_init cin cin e k dr norm_type None dim0 g = Ok b) blocks ->
  norm_runs norm_type dim0 -> Z.odd k = true -> 0 < k ->
  spatial_rank dim0 = Ok rank -> List.length sp = rank ->
  Forall (fun d => 1 <= d) sp ->
  0 < cin -> 1 < n * numel sp ->
  Sequential_forward blocks (n :: cin :: sp) = Ok (n :: cin :: sp).
Proof. apply Sequential_forward_stage. Qed.

Lemma numel_grown (rank : nat) (dim0 : string) (sp : list Z) :
  spatial_rank dim0 = Ok rank -> List.length sp = rank ->
  Forall (fun d => 1 <= d) sp ->
  2 <= numel (map (fun d => d + 1) sp).
Proof.
  intros R L P.
  destruct (spatial_rank_cases dim0 rank sp R L)
    as [(_ & _ & a & a' & ->)|(_ & _ & a & a' & a'' & ->)].
  - inversion P as [|? ? Ha P1]; inversion P1 as [|? ? Ha' _]; subst.
    cbn [map numel fold_right]. nia.
  - inversion P as [|? ? Ha P1]; inversion P1 as [|? ? Ha' P2];
      inversion P2 as [|? ? Ha'' _]; subst.
    cbn [map numel fold_right]. nia.
Qed.

Lemma MedNeXtBlock_forward_even cin cout e k dr norm_type dim0 g (b : Block)
    rank (n : Z) (sp : list Z) :
  MedNeXtBlock_init cin cout e k dr norm_type None dim0 g = Ok b ->
  norm_runs norm_type dim0 -> Z.even k = true -> 0 < k ->
  spatial_rank dim0 = Ok rank -> List.length sp = rank ->
  Forall (fun d => 1 <= d) sp ->
  0 < cin -> 0 < e -> 0 < cout -> 1 <= n ->
  MedNeXtBlock_forward b (n :: cin :: sp) =
  if dr then broadcast (n :: cin :: sp) (n :: cout :: map (fun d => d + 1) sp)
  else Ok (n :: cout :: map (fun d => d + 1) sp).
Proof.
  intros E NR Ev K R L P Hc He Ho Hn.
  destruct (MedNeXtBlock_init_wf _ _ _ _ _ _ _ _ _ _ E NR)
    as (rank' & R' & WF & Dr & _ & C1).
  assert (rank' = rank) by congruence. subst rank'.
  pose proof (numel_grown rank dim0 sp R L P) as G2.
  rewrite (MedNeXtBlock_forward_shape b rank cin e cout _ n
             (map (fun d => d + 1) sp) WF); try assumption; try nia.
  - rewrite Dr. reflexivity.
  - unfold Conv_forward. cbn [conv_forward torch]. rewrite C1.
    rewrite conv_shape_batched; cbn [mk_spec nd in_channels kernel_size out_channels];
      try reflexivity; try lia; try assumption.
    + f_equal. f_equal. f_equal. apply map_ext. intros d.
      apply size_even_conv. exact Ev.
    + eapply Forall_impl; [|exact P]. cbn beta. intros d Hd.
      rewrite (size_even_conv rank cin cin k cin d Ev). lia.
  - rewrite length_map. exact L.
  - apply Forall_forall. intros d Hd. apply in_map_iff in Hd.
    destruct Hd as (d' & <- & Hd'). rewrite Forall_forall in P.
    specialize (P d' Hd'). lia.
Qed.

(** X13.  An even kernel size does not keep the shape: the depthwise
    convolution pads [k // 2] on both sides and every spatial axis
    grows by one.  For positive widths and expansion ratio, a batch of
    at least one and spatial sizes of at least 2: without the residual
    connection the block returns the grown tensor; with it, the
    addition of input and output raises [RuntimeError]. *)
Theorem even_kernel_grows_each_axis cin cout e k dr norm_type dim0 g (b : Block)
    rank (n : Z) (sp : list Z) :
  MedNeXtBlock_init cin cout e k dr norm_type None dim0 g = Ok b ->
  norm_runs norm_type dim0 -> Z.even k = true -> 0 < k ->
  spatial_rank dim0 = Ok rank -> List.length sp = rank ->
  Forall (fun d => 2 <= d) sp ->
  0 < cin -> 0 < e -> 0 < cout -> 1 <= n ->
  MedNeXtBlock_forward b (n :: cin :: sp) =
  if dr then Raise RuntimeError
  else Ok (n :: cout :: map (fun d => d + 1) sp).
Proof.
  intros E NR Ev K R L P2 Hc He Ho Hn.
  assert (P : Forall (fun d => 1 <= d) sp)
    by (eapply Forall_impl; [|exact P2]; cbn beta; intros; lia).
  rewrite (MedNeXtBlock_forward_even _ _ _ _ _ _ _ _ b rank n sp E NR Ev K R L P
             Hc He Ho Hn).
  destruct dr; [|reflexivity].
  destruct (spatial_rank_cases dim0 rank sp R L)
    as [(_ & _ & a & a' & ->)|(_ & _ & a & a' & a'' & ->)].
  - inversion P2 as [|? ? Ha _]; subst.
    apply (broadcast_clash _ _ 2 a (a + 1)); cbn; try reflexivity; lia.
  - inversion P2 as [|? ? Ha _]; subst.
    apply (broadcast_clash _ _ 2 a (a + 1)); cbn; try reflexivity; lia.
Qed.

(** X14.  The residual connection of a block needs equal widths: a
    block built with [do_res=True], a positive expansion ratio and
    different positive input and output widths, neither of them 1,
    raises [RuntimeError] at [x + x1] on every batched input of its
    input width with positive spatial sizes and more than one value per
    channel. *)
Theorem residual_add_needs_equal_widths cin cout e k norm_type dim0 g (b : Block)
    rank (n : Z) (sp : list Z) :
  MedNeXtBlock_init cin cout e k true norm_type None dim0 g = Ok b ->
  norm_runs norm_type dim0 -> Z.odd k = true -> 0 < k ->
  spatial_rank dim0 = Ok rank -> List.length sp = rank ->
  Forall (fun d => 1 <= d) sp ->
  cin <> cout -> cin <> 1 -> cout <> 1 ->
  0 < cin -> 0 < e -> 0 < cout -> 1 < n * numel sp ->
  MedNeXtBlock_forward b (n :: cin :: sp) = Raise RuntimeError.
Proof.
  intros E NR O K R L P N1 N2 N3 Hc He Ho M.
  destruct (MedNeXtBlock_init_wf _ _ _ _ _ _ _ _ _ _ E NR)
    as (rank' & R' & WF & Dr & _ & C1).
  assert (rank' = rank) by congruence. subst rank'.
  rewrite (MedNeXtBlock_forward_shape b rank cin e cout _ n sp WF);
    try assumption.
  - rewrite Dr. apply (broadcast_clash _ _ 1 cin cout); try assumption;
      reflexivity.
  - unfold Conv_forward. cbn [conv_forward torch]. rewrite C1.
    rewrite conv_shape_batched; cbn [mk_spec nd in_channels kernel_size out_channels];
      try reflexivity; try lia; try assumption.
    + rewrite (map_id_on _ sp (fun d => size_same_conv rank cin cin k cin d O)).
      reflexivity.
    + apply Forall_pos_map; [intros d; apply size_same_conv; exact O | exact P].
Qed.

(** ** Resampling *)

(** X15.  Halving rounds up, so odd sizes are not restored: for a
    positive width, positive expansion ratios and an input whose halved
    map has more than one value per channel, a down block followed by
    the matching up block turns every odd spatial size [d] into
    [d + 1]. *)
Theorem odd_sizes_come_back_larger
    c e_down e_up k dr_down dr_up norm_type dim0 g_down g_up
    (down up : Resample) rank (n : Z) (sp : list Z) :
  MedNeXtDownBlock_init c (2 * c) e_down k dr_down norm_type dim0 g_down = Ok down ->
  MedNeXtUpBlock_init (2 * c) c e_up k dr_up norm_type dim0 g_up = Ok up ->
  norm_runs norm_type dim0 -> Z.odd k = true -> 0 < k ->
  spatial_rank dim0 = Ok rank -> List.length sp = rank ->
  Forall (fun d => 1 <= d /\ Z.odd d = true) sp ->
  0 < c -> 0 < e_down -> 0 < e_up ->
  1 < n * numel (map halve sp) ->
  exists y,
    MedNeXtDownBlock_forward down (n :: c :: sp) = Ok y /\
    MedNeXtUpBlock_forward up y = Ok (n :: c :: map (fun d => d + 1) sp).
Proof.
  intros Ed Eu NR O K R L P Hc Hed Heu M.
  assert (P1 : Forall (fun d => 1 <= d) sp)
    by (eapply Forall_impl; [|exact P]; cbn beta; tauto).
  exists (n :: 2 * c :: map halve sp). split.
  - apply (MedNeXtDownBlock_forward_shape _ _ _ _ _ _ _ _ down rank n sp Ed);
      try assumption; lia.
  - rewrite (MedNeXtUpBlock_forward_shape _ _ _ _ _ _ _ _ up rank n (map halve sp) Eu);
      try assumption; try lia.
    + rewrite map_map. f_equal. f_equal. f_equal. apply map_ext_in.
      intros d Hd. rewrite Forall_forall in P. destruct (P d Hd) as [Hp Ho].
      apply double_halve_odd; assumption.
    + rewrite length_map. exact L.
    + apply Forall_pos_halve. exact P1.
Qed.

(** X16.  [OutBlock] changes the channel axis only: for positive
    [in_channels] and [n_classes], a batched input of the constructed
    width comes back with [n_classes] channels and the same batch and
    spatial sizes; an input of any other width raises
    [RuntimeError]. *)
Theorem OutBlock_maps_width_to_classes cin n_classes dim0 (o : @OutBlock unit)
    rank (n c : Z) (sp : list Z) :
  OutBlock_init cin n_classes dim0 = Ok o ->
  spatial_rank dim0 = Ok rank -> List.length sp = rank ->
  Forall (fun d => 1 <= d) sp ->
  0 < cin -> 0 < n_classes ->
  OutBlock_forward o (n :: c :: sp) =
  if c =? cin then Ok (n :: n_classes :: sp) else Raise RuntimeError.
Proof.
  intros E R L P Hc Hn. destruct (Z.eqb_spec c cin) as [->|N].
  - apply (OutBlock_forward_shape _ _ _ o rank n sp E); assumption.
  - unfold OutBlock_init in E. rewrite R in E. cbn [bind] in E.
    inv_bind E as cv Ec. injection E as <-.
    apply nn_Conv_spec in Ec.
    unfold OutBlock_forward, Conv_forward. cbn [conv_out conv_forward torch].
    rewrite Ec. unfold conv_shape. cbn [mk_spec nd List.length].
    rewrite L. replace (S (S rank) =? rank + 2)%nat with true
      by (symmetry; apply Nat.eqb_eq; lia).
    unfold conv_body. cbn [mk_spec in_channels].
    rewrite (proj2 (Z.eqb_neq c cin) N). reflexivity.
Qed.

(** ** Encoder and decoder together *)

Lemma MedNeXt_init_inv cin n n_classes exp_r k ek dk ds dr dru cs bc
    norm_type dim0 g (net : @MedNeXtNet Tensor unit) :
  MedNeXt_init cin n n_classes exp_r (Some k) ek dk ds dr dru cs bc
    norm_type dim0 g = Ok net ->
  MedNeXtEncoder_init cin n exp_r (Some k) dr dru cs bc norm_type dim0 g
    = Ok (encoder net) /\
  MedNeXtDecoder_init cin n n_classes exp_r (Some k) ds dr dru cs bc
    norm_type dim0 g = Ok (decoder net).
Proof.
  intros E. unfold MedNeXt_init in E. cbv beta iota zeta in E.
  inv_bind E as u1 A1. inv_bind E as u2 A2. inv_bind E as enc Ee.
  inv_bind E as dec Ed. injection E as <-. cbn [encoder decoder]. auto.
Qed.

Lemma multiples_of_16 (sp : list Z) :
  Forall (fun d => 1 <= d /\ d mod 16 = 0) sp ->
  exists ms, sp = map (Z.mul 16) ms /\ Forall (fun m => 1 <= m) ms.
Proof.
  intros F. induction F as [|d sp [Hd Hm] _ (ms & -> & Fm)].
  - exists []. split; [reflexivity | constructor].
  - exists (d / 16 :: ms). split.
    + cbn [map]. f_equal. Z.to_euclidean_division_equations. lia.
    + constructor; [|exact Fm]. Z.to_euclidean_division_equations. lia.
Qed.

Lemma map_halve_scaled (c' c : Z) (ms : list Z) :
  c' = 2 * c -> 0 < c -> Forall (fun m => 1 <= m) ms ->
  map halve (map (Z.mul c') ms) = map (Z.mul c) ms.
Proof.
  intros -> Hc F. rewrite map_map. apply map_ext_in. intros m Hm.
  rewrite Forall_forall in F. specialize (F m Hm). unfold halve.
  replace (2 * c * m - 1) with (c * m - 1 + (c * m - 1 + 1)) by lia.
  Z.to_euclidean_division_equations. nia.
Qed.

Lemma map_double_scaled (c c' : Z) (ms : list Z) :
  c' = 2 * c -> map double (map (Z.mul c) ms) = map (Z.mul c') ms.
Proof.
  intros ->. rewrite map_map. apply map_ext. intros m. unfold double. lia.
Qed.

Lemma map_double_base (ms : list Z) : map double ms = map (Z.mul 2) ms.
Proof. apply map_ext. intros m. reflexivity. Qed.

Lemma map_mul_1 (ms : list Z) : map (Z.mul 1) ms = ms.
Proof. apply map_id_on. intros m. lia. Qed.

Lemma Forall_pos_scaled (c : Z) (ms : list Z) :
  0 < c -> Forall (fun m => 1 <= m) ms ->
  Forall (fun d => 1 <= d) (map (Z.mul c) ms).
Proof.
  intros Hc F. apply Forall_forall. intros d Hd. apply in_map_iff in Hd.
  destruct Hd as (m & <- & Hm). rewrite Forall_forall in F.
  specialize (F m Hm). nia.
Qed.

Lemma pipeline_shapes cin n n_classes exp_r k ds dr dru cs bc norm_type dim0 g
    rank (enc : @MedNeXtEncoder Tensor unit) (dec : @MedNeXtDecoder Tensor unit)
    (n0 : Z) (sp : list Z) :
  MedNeXtEncoder_init cin n exp_r (Some k) dr dru cs bc norm_type dim0 g = Ok enc ->
  MedNeXtDecoder_init cin n n_classes exp_r (Some k) ds dr dru cs bc
    norm_type dim0 g = Ok dec ->
  norm_runs norm_type dim0 -> Z.odd k = true -> 0 < k ->
  spatial_rank dim0 = Ok rank -> List.length sp = rank ->
  Forall (fun d => 1 <= d /\ d mod 16 = 0) sp ->
  0 < cin -> 0 < n -> 0 < n_classes ->
  Forall (fun e => 0 < e) (expand_exp_r exp_r bc) ->
  1 < n0 * numel (map halve (map halve (map halve (map halve sp)))) ->
  exists f0 f1 f2 f3 f4,
    MedNeXtEncoder_forward (set_return_skips (Some true) enc) (n0 :: cin :: sp)
      = Ok (PList [f0; f1; f2; f3; f4]) /\
    [f0; f1; f2; f3; f4] = encoder_maps n0 n sp /\
    MedNeXtDecoder_forward dec f4 (PList [f3; f2; f1; f0])
      = Ok (if ds
            then PList (map (fun f => n0 :: n_classes :: spatial f)
                            [f0; f1; f2; f3; f4])
            else PTensor (n0 :: n_classes :: sp)).
Proof.
  intros Ee Ed NR O K R L F Hc Hn Hcl Hex M.
  destruct (multiples_of_16 sp F) as (ms & -> & Fm).
  rewrite length_map in L.
  destruct (MedNeXtEncoder_init_parts _ _ _ _ _ _ _ _ _ _ _ _ Ee Hex) as (r1 & Pe).
  assert (r1 = rank)
    by (pose proof (ep_rank _ _ _ _ _ _ _ _ _ _ Pe); congruence).
  subst r1.
  destruct (MedNeXtDecoder_init_parts _ _ _ _ _ _ _ _ _ _ _ _ _ _ Ed Hex)
    as (r2 & Pd).
  assert (r2 = rank)
    by (pose proof (dp_rank _ _ _ _ _ _ _ _ _ _ _ Pd); congruence).
  subst r2.
  assert (Er : MedNeXtEncoder_ret (set_return_skips (Some true) enc)
                 (n0 :: cin :: map (Z.mul 16) ms)
               = Ok (encoder_maps n0 n (map (Z.mul 16) ms))).
  { apply (MedNeXtEncoder_ret_shape cin n k dr dru norm_type dim0 g rank enc);
      try assumption.
    - rewrite length_map. exact L.
    - apply Forall_pos_scaled; [lia | exact Fm]. }
  rewrite (map_halve_scaled 16 8), (map_halve_scaled 8 4),
    (map_halve_scaled 4 2), (map_halve_scaled 2 1), map_mul_1 in M
    by (try reflexivity; try lia; exact Fm).
  do 5 eexists. split; [|split].
  - unfold MedNeXtEncoder_forward. rewrite Er.
    cbn [bind set_return_skips return_skips getattr]. unfold encoder_maps.
    reflexivity.
  - reflexivity.
  - rewrite (map_halve_scaled 16 8), (map_halve_scaled 8 4),
      (map_halve_scaled 4 2), (map_halve_scaled 2 1), map_mul_1
      by (try reflexivity; try lia; exact Fm).
    pose proof (MedNeXtDecoder_forward_shape _ _ _ _ _ _ _ _ _ rank dec n0 ms
                  Pd NR O K L Fm Hn Hcl M) as Hd.
    unfold decoder_skips, decoder_maps in Hd.
    rewrite (map_double_base ms), (map_double_scaled 2 4),
      (map_double_scaled 4 8), (map_double_scaled 8 16) in Hd
      by reflexivity.
    rewrite Hd. destruct ds; reflexivity.
Qed.

(** X17.  Encoder and decoder fit together.  For a network that the
    constructor builds with an odd kernel size, positive widths, class
    count and expansion ratios, and for a batched input whose spatial
    sizes are positive multiples of 16 and whose coarsest map has more
    than one value per channel (batch size times the product of the
    sizes after four halvings exceeds 1), the encoder's five feature
    maps, handed to the decoder the way [forward] means to (the
    coarsest as input, the four others as skips, coarsest first), give
    logit maps with the spatial sizes of the five feature maps, full
    resolution first; without deep supervision the one output has the
    spatial sizes of the input. *)
Theorem encoder_and_decoder_compose
    cin n n_classes exp_r k ek dk ds dr dru cs bc norm_type dim0 g
    rank (net : @MedNeXtNet Tensor unit) (n0 : Z) (sp : list Z) :
  MedNeXt_init cin n n_classes exp_r (Some k) ek dk ds dr dru cs bc
    norm_type dim0 g = Ok net ->
  norm_runs norm_type dim0 -> Z.odd k = true -> 0 < k ->
  spatial_rank dim0 = Ok rank -> List.length sp = rank ->
  Forall (fun d => 1 <= d /\ d mod 16 = 0) sp ->
  0 < cin -> 0 < n -> 0 < n_classes ->
  Forall (fun e => 0 < e) (expand_exp_r exp_r bc) ->
  1 < n0 * numel (map halve (map halve (map halve (map halve sp)))) ->
  exists f0 f1 f2 f3 f4,
    MedNeXtEncoder_forward (set_return_skips (Some true) (encoder net))
        (n0 :: cin :: sp)
      = Ok (PList [f0; f1; f2; f3; f4]) /\
    [f0; f1; f2; f3; f4] = encoder_maps n0 n sp /\
    MedNeXtDecoder_forward (decoder net) f4 (PList [f3; f2; f1; f0])
      = Ok (if ds
            then PList (map (fun f => n0 :: n_classes :: spatial f)
                            [f0; f1; f2; f3; f4])
            else PTensor (n0 :: n_classes :: sp)).
Proof.
  intros E NR O K R L F Hc Hn Hcl Hex M.
  destruct (MedNeXt_init_inv _ _ _ _ _ _ _ _ _ _ _ _ _ _ _ _ E) as [Ee Ed].
  exact (pipeline_shapes _ _ _ _ _ _ _ _ _ _ _ _ _ _ _ _ n0 sp Ee Ed NR O K R L F
           Hc Hn Hcl Hex M).
Qed.

Lemma decoder_skip_clash n n_classes k ds dr dru norm_type dim0 g rank
    (dec : @MedNeXtDecoder Tensor unit) (n0 c3 : Z) (sp sp3 : list Z)
    (r2 r1 r0 : Tensor) (i : nat) (d d3 : Z) :
  decoder_parts n n_classes k ds dr dru norm_type dim0 g rank dec ->
  norm_runs norm_type dim0 -> Z.odd k = true -> 0 < k ->
  List.length sp = rank -> Forall (fun d => 1 <= d) sp ->
  List.length sp3 = rank ->
  nth_error sp i = Some d -> nth_error sp3 i = Some d3 ->
  d3 <> 2 * d -> d3 <> 1 ->
  0 < n -> 0 < n_classes -> 1 < n0 * numel sp ->
  MedNeXtDecoder_forward dec (n0 :: 16 * n :: sp)
    (PList [n0 :: c3 :: sp3; r2; r1; r0]) = Raise RuntimeError.
Proof.
  intros [R D Bn B3 B2 B1 B0 U3 U2 U1 U0 O0 O1 O2 O3 O4] NR O K L P L3 Ed Ed3 N1 N2
         Hn Hcl M.
  unfold MedNeXtDecoder_forward.
  cbn [unpack iterate bind List.length Nat.eqb].
  rewrite (Sequential_forward_stage _ _ _ _ _ _ _ rank n0 sp Bn);
    try assumption; try lia.
  cbn [bind].
  rewrite (ds_head_shape dec ds _ _ _ _ rank n0 sp D O4 R L P) by lia.
  cbn [bind].
  unfold dec_level. destruct U3 as (e & He & U3).
  rewrite (MedNeXtUpBlock_forward_shape _ _ _ _ _ _ _ _ _ rank n0 sp U3);
    try assumption; try lia.
  cbn [bind t_add torch].
  rewrite (broadcast_clash _ _ (S (S i)) d3 (double d)); try reflexivity;
    try assumption.
  - cbn [List.length]. rewrite length_map. congruence.
  - cbn [nth_error]. apply map_nth_error. exact Ed.
  - unfold double. lia.
Qed.

(** X18.  A skip is never cropped or padded: for a decoder built with
    positive width, class count and expansion ratios, and a decoder
    input with more than one value per channel, when an axis of the
    first skip is neither twice the matching axis of the decoder's
    input nor 1, the first fusion raises [RuntimeError]. *)
Theorem skip_of_wrong_size_is_rejected
    cin n n_classes exp_r k ds dr dru cs bc norm_type dim0 g rank
    (dec : @MedNeXtDecoder Tensor unit) (n0 c3 : Z) (sp sp3 : list Z)
    (r2 r1 r0 : Tensor) (i : nat) (d d3 : Z) :
  MedNeXtDecoder_init cin n n_classes exp_r (Some k) ds dr dru cs bc
    norm_type dim0 g = Ok dec ->
  norm_runs norm_type dim0 -> Z.odd k = true -> 0 < k ->
  spatial_rank dim0 = Ok rank ->
  List.length sp = rank -> Forall (fun d => 1 <= d) sp ->
  List.length sp3 = rank ->
  nth_error sp i = Some d -> nth_error sp3 i = Some d3 ->
  d3 <> 2 * d -> d3 <> 1 ->
  0 < n -> 0 < n_classes ->
  Forall (fun e => 0 < e) (expand_exp_r exp_r bc) ->
  1 < n0 * numel sp ->
  MedNeXtDecoder_forward dec (n0 :: 16 * n :: sp)
    (PList [n0 :: c3 :: sp3; r2; r1; r0]) = Raise RuntimeError.
Proof.
  intros E NR O K R L P L3 Ed Ed3 N1 N2 Hn Hcl Hex M.
  destruct (MedNeXtDecoder_init_parts _ _ _ _ _ _ _ _ _ _ _ _ _ _ E Hex)
    as (rank' & Pt).
  assert (rank' = rank)
    by (pose proof (dp_rank _ _ _ _ _ _ _ _ _ _ _ Pt); congruence).
  subst rank'.
  exact (decoder_skip_clash _ _ _ _ _ _ _ _ _ _ dec n0 c3 sp sp3 r2 r1 r0 i d d3
           Pt NR O K L P L3 Ed Ed3 N1 N2 Hn Hcl M).
Qed.

Lemma nth_le_numel (l : list Z) (i : nat) (d : Z) :
  Forall (fun d => 1 <= d) l -> nth_error l i = Some d -> d <= numel l.
Proof.
  intros P. revert i. induction P as [|x l Hx P IH]; intros [|i] E;
    cbn [nth_error] in E; try discriminate E; cbn [numel fold_right];
    fold (numel l); pose proof (numel_pos l P) as Hp.
  - injection E as ->. nia.
  - specialize (IH i E). nia.
Qed.

Lemma nth_error_map_halve3 (sp : list Z) (i : nat) (d : Z) :
  nth_error sp i = Some d ->
  nth_error (map halve (map halve (map halve sp))) i
    = Some (halve (halve (halve d))) /\
  nth_error (map halve (map halve (map halve (map halve sp)))) i
    = Some (halve (halve (halve (halve d)))).
Proof.
  intros E. split; repeat apply map_nth_error; exact E.
Qed.

(** X19.  Input sizes are not checked against the four halvings.  For
    a network built with positive widths, class count and expansion
    ratios and a batch of at least one: when the size an axis has after
    three halvings is odd and at least 3, the encoder still returns its
    five maps, and the decoder raises [RuntimeError] on them: the
    upsampled bottleneck is one larger on that axis than the skip it is
    added to. *)
Theorem odd_coarse_axis_is_rejected
    cin n n_classes exp_r k ek dk ds dr dru cs bc norm_type dim0 g
    rank (net : @MedNeXtNet Tensor unit) (n0 : Z) (sp : list Z)
    (i : nat) (d : Z) :
  MedNeXt_init cin n n_classes exp_r (Some k) ek dk ds dr dru cs bc
    norm_type dim0 g = Ok net ->
  norm_runs norm_type dim0 -> Z.odd k = true -> 0 < k ->
  spatial_rank dim0 = Ok rank -> List.length sp = rank ->
  Forall (fun d => 1 <= d) sp ->
  nth_error sp i = Some d ->
  Z.odd (halve (halve (halve d))) = true -> 3 <= halve (halve (halve d)) ->
  0 < cin -> 0 < n -> 0 < n_classes -> 1 <= n0 ->
  Forall (fun e => 0 < e) (expand_exp_r exp_r bc) ->
  exists f0 f1 f2 f3 f4,
    MedNeXtEncoder_forward (set_return_skips (Some true) (encoder net))
        (n0 :: cin :: sp)
      = Ok (PList [f0; f1; f2; f3; f4]) /\
    MedNeXtDecoder_forward (decoder net) f4 (PList [f3; f2; f1; f0])
      = Raise RuntimeError.
Proof.
  intros E NR O K R L P Ed Od Hd Hc Hn Hcl Hb Hex.
  destruct (MedNeXt_init_inv _ _ _ _ _ _ _ _ _ _ _ _ _ _ _ _ E) as [Ee Edc].
  destruct (MedNeXtEncoder_init_parts _ _ _ _ _ _ _ _ _ _ _ _ Ee Hex) as (r1 & Pe).
  assert (r1 = rank)
    by (pose proof (ep_rank _ _ _ _ _ _ _ _ _ _ Pe); congruence).
  subst r1.
  destruct (MedNeXtDecoder_init_parts _ _ _ _ _ _ _ _ _ _ _ _ _ _ Edc Hex)
    as (r2 & Pd).
  assert (r2 = rank)
    by (pose proof (dp_rank _ _ _ _ _ _ _ _ _ _ _ Pd); congruence).
  subst r2.
  destruct (nth_error_map_halve3 sp i d Ed) as [E3 E4].
  assert (P4 : Forall (fun d => 1 <= d)
                 (map halve (map halve (map halve (map halve sp)))))
    by (repeat apply Forall_pos_halve; exact P).
  assert (M : 1 < n0 * numel (map halve (map halve (map halve (map halve sp))))).
  { pose proof (nth_le_numel _ _ _ P4 E4) as Hle.
    assert (2 <= halve (halve (halve (halve d)))).
    { unfold halve at 1. Z.to_euclidean_division_equations. lia. }
    nia. }
  assert (Er : MedNeXtEncoder_ret (set_return_skips (Some true) (encoder net))
                 (n0 :: cin :: sp) = Ok (encoder_maps n0 n sp))
    by (apply (MedNeXtEncoder_ret_shape cin n k dr dru norm_type dim0 g rank
                 (encoder net)); assumption).
  do 5 eexists. split.
  - unfold MedNeXtEncoder_forward. rewrite Er.
    cbn [bind set_return_skips return_skips getattr]. unfold encoder_maps.
    reflexivity.
  - assert (Hh : double (halve (halve (halve (halve d))))
                 = halve (halve (halve d)) + 1)
      by (apply double_halve_odd; [exact Od | lia]).
    unfold double in Hh.
    eapply (decoder_skip_clash n n_classes k ds dr dru norm_type dim0 g rank
              (decoder net) n0 (8 * n) _ _ _ _ _ i
              (halve (halve (halve (halve d)))) (halve (halve (halve d)))
              Pd NR O K).
    + rewrite !length_map. exact L.
    + exact P4.
    + rewrite !length_map. exact L.
    + exact E4.
    + exact E3.
    + lia.
    + lia.
    + exact Hn.
    + exact Hcl.
    + exact M.
Qed.

Lemma MedNeXt_forward_attribute_error
    cin n n_classes exp_r k ek dk ds dr dru cs bc norm_type dim0 g
    rank (net : @MedNeXtNet Tensor unit) (n0 : Z) (sp : list Z) :
  MedNeXt_init cin n n_classes exp_r (Some k) ek dk ds dr dru cs bc
    norm_type dim0 g = Ok net ->
  norm_runs norm_type dim0 -> Z.odd k = true -> 0 < k ->
  spatial_rank dim0 = Ok rank -> List.length sp = rank ->
  Forall (fun d => 1 <= d) sp ->
  0 < cin -> 0 < n ->
  Forall (fun e => 0 < e) (expand_exp_r exp_r bc) ->
  1 < n0 * numel (map halve (map halve (map halve (map halve sp)))) ->
  MedNeXt_forward net (n0 :: cin :: sp) = Raise AttributeError.
Proof.
  intros E NR O K R L P Hc Hn Hex M.
  destruct (MedNeXt_init_inv _ _ _ _ _ _ _ _ _ _ _ _ _ _ _ _ E) as [Ee _].
  destruct (MedNeXtEncoder_init_parts _ _ _ _ _ _ _ _ _ _ _ _ Ee Hex) as (r1 & Pe).
  assert (r1 = rank)
    by (pose proof (ep_rank _ _ _ _ _ _ _ _ _ _ Pe); congruence).
  subst r1.
  unfold MedNeXt_forward, MedNeXtEncoder_forward.
  rewrite (MedNeXtEncoder_ret_shape cin n k dr dru norm_type dim0 g rank
             (encoder net) n0 sp Pe NR O K L P Hc Hn M).
  cbn [bind].
  rewrite (MedNeXtEncoder_init_return_skips _ _ _ _ _ _ _ _ _ _ _ _ Ee).
  reflexivity.
Qed.

(** X20.  [MedNeXt.forward] itself raises [AttributeError] on every
    batched input of the right width, with positive spatial sizes and
    more than one value per channel on the coarsest map (batch size
    times the product of the sizes after four halvings exceeds 1), for
    a network built with positive widths and expansion ratios: the
    encoder runs all its layers and then reads [return_skips], which no
    constructor assigns. *)
Theorem network_forward_is_attribute_error
    cin n n_classes exp_r k ek dk ds dr dru cs bc norm_type dim0 g
    rank (net : @MedNeXtNet Tensor unit) (n0 : Z) (sp : list Z) :
  MedNeXt_init cin n n_classes exp_r (Some k) ek dk ds dr dru cs bc
    norm_type dim0 g = Ok net ->
  norm_runs norm_type dim0 -> Z.odd k = true -> 0 < k ->
  spatial_rank dim0 = Ok rank -> List.length sp = rank ->
  Forall (fun d => 1 <= d) sp ->
  0 < cin -> 0 < n ->
  Forall (fun e => 0 < e) (expand_exp_r exp_r bc) ->
  1 < n0 * numel (map halve (map halve (map halve (map halve sp)))) ->
  MedNeXt_forward net (n0 :: cin :: sp) = Raise AttributeError.
Proof. apply MedNeXt_forward_attribute_error. Qed.

(** X21.  Every trainer variant builds a network whose parts fit a 3-D
    input with positive multiples of 16 as spatial sizes and more than
    one value per channel on the coarsest map (batch size times the
    product of the sizes after four halvings exceeds 1): the five logit
    maps have [num_segmentation_heads] channels and halve from the
    input's resolution down.  Called as a whole, the same network
    raises [AttributeError]. *)
Theorem trainer_network_shapes (v : Variant) (self : TrainerSelf)
    (num_input_channels_arg : Z) (enable_deep_supervision : bool)
    (n0 a b c : Z) :
  0 < num_input_channels self -> 0 < num_segmentation_heads self ->
  Forall (fun d => 1 <= d /\ d mod 16 = 0) [a; b; c] ->
  1 < n0 * numel (map halve (map halve (map halve (map halve [a; b; c])))) ->
  exists net f0 f1 f2 f3 f4,
    build_network_architecture v self num_input_channels_arg
      enable_deep_supervision = Ok net /\
    MedNeXtEncoder_forward (set_return_skips (Some true) (encoder net))
        [n0; num_input_channels self; a; b; c]
      = Ok (PList [f0; f1; f2; f3; f4]) /\
    MedNeXtDecoder_forward (decoder net) f4 (PList [f3; f2; f1; f0])
      = Ok (PList
          [ [n0; num_segmentation_heads self; a; b; c];
            [n0; num_segmentation_heads self; halve a; halve b; halve c];
            [n0; num_segmentation_heads self;
             halve (halve a); halve (halve b); halve (halve c)];
            [n0; num_segmentation_heads self; halve (halve (halve a));
             halve (halve (halve b)); halve (halve (halve c))];
            [n0; num_segmentation_heads self;
             halve (halve (halve (halve a))); halve (halve (halve (halve b)));
             halve (halve (halve (halve c)))] ]) /\
    MedNeXt_forward net [n0; num_input_channels self; a; b; c]
      = Raise AttributeError.
Proof.
  intros Hi Hs F M.
  destruct (build_network_architecture_ok (T := Tensor) (W := unit) v self
              num_input_channels_arg enable_deep_supervision Hi Hs)
    as (net & E & _).
  pose proof E as E'. unfold build_network_architecture in E.
  assert (O : Z.odd (variant_kernel_size v) = true) by (destruct v; reflexivity).
  assert (K : 0 < variant_kernel_size v) by (destruct v; cbn; lia).
  assert (NR : norm_runs "group" "3d") by (left; reflexivity).
  assert (P : Forall (fun d => 1 <= d) [a; b; c])
    by (eapply Forall_impl; [|exact F]; cbn beta; tauto).
  assert (Hex : Forall (fun e => 0 < e)
                  (expand_exp_r (variant_exp_r v) (variant_block_counts v)))
    by (destruct v; cbn; repeat constructor).
  assert (H32 : 0 < 32) by lia.
  destruct (MedNeXt_init_inv _ _ _ _ _ _ _ _ _ _ _ _ _ _ _ _ E) as [Ee Ed].
  destruct (pipeline_shapes _ _ _ _ _ _ _ _ _ _ _ _ _ 3%nat _ _ n0 [a; b; c]
              Ee Ed NR O K eq_refl eq_refl F Hi H32 Hs Hex M)
    as (f0 & f1 & f2 & f3 & f4 & Hf & Hm & Hd).
  exists net, f0, f1, f2, f3, f4. split; [exact E'|]. split; [exact Hf|]. split.
  - rewrite Hd. unfold encoder_maps in Hm.
    injection Hm as -> -> -> -> ->. reflexivity.
  - exact (MedNeXt_forward_attribute_error _ _ _ _ _ _ _ _ _ _ _ _ _ _ _ 3%nat
             net n0 [a; b; c] E NR O K eq_refl eq_refl P Hi H32 Hex M).
Qed.


(** ** Instances of the general statements *)


Lemma unsupported_mode_is_assertion_error_witness :
  @MedNeXtEncoder_init Tensor unit torch 1 32 (ExpInt 4) (Some 3) false false
    (Some "inside_block") [2; 2; 2; 2; 2; 2; 2; 2; 2] "group" "3d" false = Raise AssertionError /\
  @MedNeXtDecoder_init Tensor unit torch 1 32 3 (ExpInt 4) (Some 3) true false
    false (Some "inside_block") [2; 2; 2; 2; 2; 2; 2; 2; 2] "group" "3d" false = Raise AssertionError /\
  @MedNeXt_init Tensor unit torch 1 32 3 (ExpInt 4) (Some 3) None None true
    false false (Some "inside_block") [2; 2; 2; 2; 2; 2; 2; 2; 2] "group" "3d" false
    = Raise AssertionError.
Proof.
  apply (unsupported_mode_is_assertion_error (T := Tensor) (W := unit)
           1 32 3 (ExpInt 4) (Some 3) None None true false false
           (Some "inside_block") [2; 2; 2; 2; 2; 2; 2; 2; 2] "group" "3d" false).
  left. reflexivity.
Defined.

Lemma unsupported_dim_in_blocks_witness :
  @MedNeXtBlock_init Tensor unit torch 32 32 4 3 true "group" None "1d" false
    = Raise AssertionError /\
  @MedNeXtDownBlock_init Tensor unit torch 32 64 4 3 true "group" "1d" false
    = Raise AssertionError /\
  @MedNeXtUpBlock_init Tensor unit torch 32 64 4 3 true "group" "1d" false
    = Raise AssertionError /\
  @OutBlock_init Tensor unit torch 32 3 "1d" = Raise UnboundLocalError.
Proof.
  apply (unsupported_dim_in_blocks (T := Tensor) (W := unit)
           32 64 4 3 true "group" None "1d" false 3).
  reflexivity.
Defined.

Lemma kernel_size_precedence_witness :
  exists net : @MedNeXtNet Tensor unit,
    MedNeXt_init 1 32 3 (ExpInt 4) None (Some 3) (Some 5) true false false
      None [2; 2; 2; 2; 2; 2; 2; 2; 2] "group" "3d" false = Ok net /\
    exists a b, Some 3 = Some a /\ Some 5 = Some b.
Proof.
  eexists. split; [vm_compute; reflexivity|].
  eapply (kernel_size_precedence (T := Tensor) (W := unit)
            1 32 3 (ExpInt 4) None (Some 3) (Some 5) true false false
            None [2; 2; 2; 2; 2; 2; 2; 2; 2] "group" "3d" false).
  vm_compute. reflexivity.
Defined.

Lemma nine_stage_slots_are_read_witness :
  exists net, example_net true None = Ok net /\
    Peano.le 9 (List.length [2; 2; 2; 2; 2; 2; 2; 2; 2]) /\
    Peano.le 9 (List.length (expand_exp_r (ExpInt 4) [2; 2; 2; 2; 2; 2; 2; 2; 2])).
Proof.
  eexists. split; [vm_compute; reflexivity|].
  eapply (nine_stage_slots_are_read (T := Tensor) (W := unit)
            1 32 3 (ExpInt 4) (Some 3) None None true false false
            None [2; 2; 2; 2; 2; 2; 2; 2; 2] "group" "3d" false).
  vm_compute. reflexivity.
Defined.

Lemma MedNeXt_constructs_witness :
  exists net : @MedNeXtNet Tensor unit,
    MedNeXt_init 1 32 3 (ExpInt 4) (Some 3) None None true false false
      (Some "outside_block") [2; 2; 2; 2; 2; 2; 2; 2; 2] "batch" "2d" true = Ok net /\
    net_do_ds net = true /\ do_ds (decoder net) = true /\
    return_skips (encoder net) = None /\
    net_outside_block_checkpointing net = true.
Proof.
  apply (MedNeXt_constructs (T := Tensor) (W := unit)
           1 32 3 (ExpInt 4) 3 None None true false false
           (Some "outside_block") [2; 2; 2; 2; 2; 2; 2; 2; 2] "batch" "2d" true).
  - reflexivity.
  - reflexivity.
  - lia.
  - lia.
  - lia.
  - lia.
  - cbn. lia.
  - cbn. lia.
  - cbn. repeat constructor.
Defined.

Lemma every_variant_constructs_witness :
  exists net : @MedNeXtNet Tensor unit,
    build_network_architecture L_kernel5
      {| num_input_channels := 4; num_segmentation_heads := 3 |} 4 false
      = Ok net /\
    net_do_ds net = true /\ do_ds (decoder net) = true /\
    net_outside_block_checkpointing net = true.
Proof.
  apply (every_variant_constructs (T := Tensor) (W := unit) L_kernel5
           {| num_input_channels := 4; num_segmentation_heads := 3 |} 4 false).
  - cbn. lia.
  - cbn. lia.
Defined.

Lemma decoder_needs_four_skips_witness :
  exists dec, example_decoder = Ok dec /\
    MedNeXtDecoder_forward dec [1; 512; 4; 4; 4]
      (PList [[1; 256; 8; 8; 8]; [1; 128; 16; 16; 16]; [1; 64; 32; 32; 32]])
    = Raise ValueError.
Proof.
  eexists. split; [vm_compute; reflexivity|].
  apply (decoder_needs_four_skips (T := Tensor) (W := unit)).
  cbn. lia.
Defined.

Lemma single_output_is_head_of_list_witness :
  exists dec, example_decoder = Ok dec /\
    MedNeXtDecoder_forward (set_do_ds false dec) [1; 512; 4; 4; 4]
      (PList (decoder_skips 1 32 [4; 4; 4]))
    = Ok (PTensor [1; 3; 64; 64; 64]).
Proof.
  eexists. split; [vm_compute; reflexivity|].
  apply (single_output_is_head_of_list (T := Tensor) (W := unit) _ _ _
           [1; 3; 64; 64; 64]
           [[1; 3; 32; 32; 32]; [1; 3; 16; 16; 16]; [1; 3; 8; 8; 8];
            [1; 3; 4; 4; 4]]).
  vm_compute. reflexivity.
Defined.

Lemma deep_supervision_needs_its_heads_witness :
  exists dec : @MedNeXtDecoder Tensor unit,
    MedNeXtDecoder_init 1 32 3 (ExpInt 4) (Some 3) false false false None
      [2; 2; 2; 2; 2; 2; 2; 2; 2] "group" "3d" false = Ok dec /\
    (forall v, MedNeXtDecoder_forward (set_do_ds true dec) [1; 512; 4; 4; 4]
                 (PList (decoder_skips 1 32 [4; 4; 4])) <> Ok v) /\
    (forall l y, unpack 4 (PList (decoder_skips 1 32 [4; 4; 4])) = Ok l ->
       Sequential_forward (bottleneck dec) [1; 512; 4; 4; 4] = Ok y ->
       MedNeXtDecoder_forward (set_do_ds true dec) [1; 512; 4; 4; 4]
         (PList (decoder_skips 1 32 [4; 4; 4])) = Raise AttributeError).
Proof.
  eexists. split; [vm_compute; reflexivity|].
  eapply (deep_supervision_needs_its_heads (T := Tensor) (W := unit)
            1 32 3 (ExpInt 4) (Some 3) false false None [2; 2; 2; 2; 2; 2; 2; 2; 2] "group" "3d" false).
  vm_compute. reflexivity.
Defined.

Lemma return_skips_selects_the_list_witness :
  exists enc, example_encoder false = Ok enc /\
    exists a b c d e,
      encoder_maps 1 32 [64; 64; 64] = [a; b; c; d; e] /\
      MedNeXtEncoder_forward (set_return_skips (Some false) enc) example_input
        = Ok (PTensor e).
Proof.
  eexists. split; [vm_compute; reflexivity|].
  apply (return_skips_selects_the_list (T := Tensor) (W := unit)).
  vm_compute. reflexivity.
Defined.

Lemma stage_keeps_shape_witness :
  exists blocks : list Block,
    for_range 2 (MedNeXtBlock_init 32 32 4 3 true "layer" None "3d" true)
      = Ok blocks /\
    Sequential_forward blocks [1; 32; 7; 8; 9] = Ok [1; 32; 7; 8; 9].
Proof.
  eexists. split; [vm_compute; reflexivity|].
  apply (stage_keeps_shape 32 3 true "layer" "3d" true _ 3%nat 1 [7; 8; 9]).
  - constructor; [exists 4; split; [lia | vm_compute; reflexivity]|].
    constructor; [exists 4; split; [lia | vm_compute; reflexivity]|].
    constructor.
  - right. split; reflexivity.
  - reflexivity.
  - lia.
  - reflexivity.
  - reflexivity.
  - repeat constructor; lia.
  - lia.
  - vm_compute. reflexivity.
Defined.

Lemma even_kernel_grows_each_axis_witness :
  exists b : Block,
    MedNeXtBlock_init 32 32 4 4 true "group" None "3d" false = Ok b /\
    MedNeXtBlock_forward b [1; 32; 8; 8; 8] = Raise RuntimeError.
Proof.
  eexists. split; [vm_compute; reflexivity|].
  apply (even_kernel_grows_each_axis 32 32 4 4 true "group" "3d" false _
           3%nat 1 [8; 8; 8]).
  - vm_compute. reflexivity.
  - left. reflexivity.
  - reflexivity.
  - lia.
  - reflexivity.
  - reflexivity.
  - repeat constructor; lia.
  - lia.
  - lia.
  - lia.
  - lia.
Defined.

Lemma residual_add_needs_equal_widths_witness :
  exists b : Block,
    MedNeXtBlock_init 32 64 4 3 true "group" None "3d" false = Ok b /\
    MedNeXtBlock_forward b [1; 32; 8; 8; 8] = Raise RuntimeError.
Proof.
  eexists. split; [vm_compute; reflexivity|].
  apply (residual_add_needs_equal_widths 32 64 4 3 "group" "3d" false _
           3%nat 1 [8; 8; 8]).
  - vm_compute. reflexivity.
  - left. reflexivity.
  - reflexivity.
  - lia.
  - reflexivity.
  - reflexivity.
  - repeat constructor; lia.
  - lia.
  - lia.
  - lia.
  - lia.
  - lia.
  - lia.
  - vm_compute. reflexivity.
Defined.

Lemma odd_sizes_come_back_larger_witness :
  exists down up : Resample,
    MedNeXtDownBlock_init 32 (2 * 32) 4 3 true "group" "3d" true = Ok down /\
    MedNeXtUpBlock_init (2 * 32) 32 4 3 true "group" "3d" true = Ok up /\
    exists y,
      MedNeXtDownBlock_forward down [1; 32; 63; 63; 63] = Ok y /\
      MedNeXtUpBlock_forward up y
        = Ok (1 :: 32 :: map (fun d => d + 1) [63; 63; 63]).
Proof.
  do 2 eexists. split; [vm_compute; reflexivity|]. split; [vm_compute; reflexivity|].
  apply (odd_sizes_come_back_larger 32 4 4 3 true true "group" "3d" true true
           _ _ 3%nat 1 [63; 63; 63]).
  - vm_compute. reflexivity.
  - vm_compute. reflexivity.
  - left. reflexivity.
  - reflexivity.
  - lia.
  - reflexivity.
  - reflexivity.
  - repeat constructor; lia.
  - lia.
  - lia.
  - lia.
  - vm_compute. reflexivity.
Defined.

Lemma OutBlock_maps_width_to_classes_witness :
  exists o : @OutBlock unit,
    @OutBlock_init Tensor unit torch 32 3 "3d" = Ok o /\
    OutBlock_forward o [1; 32; 8; 8; 8] = Ok [1; 3; 8; 8; 8] /\
    OutBlock_forward o [1; 16; 8; 8; 8] = Raise RuntimeError.
Proof.
  eexists. split; [vm_compute; reflexivity|]. split.
  - apply (OutBlock_maps_width_to_classes 32 3 "3d" _ 3%nat 1 32 [8; 8; 8]).
    + vm_compute. reflexivity.
    + reflexivity.
    + reflexivity.
    + repeat constructor; lia.
    + lia.
    + lia.
  - vm_compute. reflexivity.
Defined.

Lemma encoder_and_decoder_compose_witness :
  exists net, example_net true None = Ok net /\
    exists f0 f1 f2 f3 f4,
      MedNeXtEncoder_forward (set_return_skips (Some true) (encoder net))
          [1; 1; 64; 48; 32]
        = Ok (PList [f0; f1; f2; f3; f4]) /\
      [f0; f1; f2; f3; f4] = encoder_maps 1 32 [64; 48; 32] /\
      MedNeXtDecoder_forward (decoder net) f4 (PList [f3; f2; f1; f0])
        = Ok (PList (map (fun f => 1 :: 3 :: spatial f) [f0; f1; f2; f3; f4])).
Proof.
  eexists. split; [vm_compute; reflexivity|].
  apply (encoder_and_decoder_compose 1 32 3 (ExpInt 4) 3 None None true false
           false None [2; 2; 2; 2; 2; 2; 2; 2; 2] "group" "3d" false 3%nat _ 1 [64; 48; 32]).
  - vm_compute. reflexivity.
  - left. reflexivity.
  - reflexivity.
  - lia.
  - reflexivity.
  - reflexivity.
  - repeat constructor; lia.
  - lia.
  - lia.
  - lia.
  - cbn. repeat constructor.
  - vm_compute. reflexivity.
Defined.

Lemma skip_of_wrong_size_is_rejected_witness :
  exists dec, example_decoder = Ok dec /\
    MedNeXtDecoder_forward dec [1; 16 * 32; 4; 4; 4]
      (PList [[1; 256; 9; 8; 8]; [1; 128; 16; 16; 16]; [1; 64; 32; 32; 32];
              [1; 32; 64; 64; 64]])
    = Raise RuntimeError.
Proof.
  eexists. split; [vm_compute; reflexivity|].
  apply (skip_of_wrong_size_is_rejected 1 32 3 (ExpInt 4) 3 true false false
           None [2; 2; 2; 2; 2; 2; 2; 2; 2] "group" "3d" false 3%nat _ 1 256 [4; 4; 4] [9; 8; 8]
           _ _ _ 0%nat 4 9).
  - vm_compute. reflexivity.
  - left. reflexivity.
  - reflexivity.
  - lia.
  - reflexivity.
  - reflexivity.
  - repeat constructor; lia.
  - reflexivity.
  - reflexivity.
  - reflexivity.
  - lia.
  - lia.
  - lia.
  - lia.
  - cbn. repeat constructor.
  - vm_compute. reflexivity.
Defined.

Lemma odd_coarse_axis_is_rejected_witness :
  exists net, example_net true None = Ok net /\
    exists f0 f1 f2 f3 f4,
      MedNeXtEncoder_forward (set_return_skips (Some true) (encoder net))
          [1; 1; 72; 64; 64]
        = Ok (PList [f0; f1; f2; f3; f4]) /\
      MedNeXtDecoder_forward (decoder net) f4 (PList [f3; f2; f1; f0])
        = Raise RuntimeError.
Proof.
  eexists. split; [vm_compute; reflexivity|].
  apply (odd_coarse_axis_is_rejected 1 32 3 (ExpInt 4) 3 None None true false
           false None [2; 2; 2; 2; 2; 2; 2; 2; 2] "group" "3d" false 3%nat _ 1 [72; 64; 64] 0%nat 72).
  - vm_compute. reflexivity.
  - left. reflexivity.
  - reflexivity.
  - lia.
  - reflexivity.
  - reflexivity.
  - repeat constructor; lia.
  - reflexivity.
  - reflexivity.
  - vm_compute. discriminate.
  - lia.
  - lia.
  - lia.
  - lia.
  - cbn. repeat constructor.
Defined.

Lemma network_forward_is_attribute_error_witness :
  exists net, example_net false (Some "outside_block") = Ok net /\
    MedNeXt_forward net [2; 1; 33; 40; 7] = Raise AttributeError.
Proof.
  eexists. split; [vm_compute; reflexivity|].
  apply (network_forward_is_attribute_error 1 32 3 (ExpInt 4) 3 None None false
           false false (Some "outside_block") [2; 2; 2; 2; 2; 2; 2; 2; 2] "group" "3d" false 3%nat _ 2
           [33; 40; 7]).
  - vm_compute. reflexivity.
  - left. reflexivity.
  - reflexivity.
  - lia.
  - reflexivity.
  - reflexivity.
  - repeat constructor; lia.
  - lia.
  - lia.
  - cbn. repeat constructor.
  - vm_compute. reflexivity.
Defined.

Lemma trainer_network_shapes_witness :
  exists net f0 f1 f2 f3 f4,
    @build_network_architecture Tensor unit torch M_kernel5
      {| num_input_channels := 4; num_segmentation_heads := 3 |} 4 false
      = Ok net /\
    MedNeXtEncoder_forward (set_return_skips (Some true) (encoder net))
        [2; 4; 32; 48; 64]
      = Ok (PList [f0; f1; f2; f3; f4]) /\
    MedNeXtDecoder_forward (decoder net) f4 (PList [f3; f2; f1; f0])
      = Ok (PList
          [ [2; 3; 32; 48; 64];
            [2; 3; halve 32; halve 48; halve 64];
            [2; 3; halve (halve 32); halve (halve 48); halve (halve 64)];
            [2; 3; halve (halve (halve 32)); halve (halve (halve 48));
             halve (halve (halve 64))];
            [2; 3; halve (halve (halve (halve 32)));
             halve (halve (halve (halve 48)));
             halve (halve (halve (halve 64)))] ]) /\
    MedNeXt_forward net [2; 4; 32; 48; 64] = Raise AttributeError.
Proof.
  apply (trainer_network_shapes M_kernel5
           {| num_input_channels := 4; num_segmentation_heads := 3 |} 4 false
           2 32 48 64).
  - cbn. lia.
  - cbn. lia.
  - repeat constructor; lia.
  - vm_compute. reflexivity.
Defined.

End ShapeExtras.

(* ================================================================== *)
(** * Further properties of the values *)
(* ================================================================== *)

Module NumericExtras.

Import Numeric NumericFacts.

Lemma fold_sum_affine (a b : R) (f : nat -> R) (l : list nat) :
  fold_right (fun j acc => (a * f j + b + acc)%R) 0%R l =
  (a * fold_right (fun j acc => (f j + acc)%R) 0%R l + INR (List.length l) * b)%R.
Proof.
  induction l as [|j l IH]; cbn [fold_right List.length].
  - cbn [INR]. ring.
  - rewrite IH, S_INR. ring.
Qed.

Lemma channel_sum_affine (a b : R) (c : nat) (f : nat -> R) :
  channel_sum c (fun j => (a * f j + b)%R) =
  (a * channel_sum c f + INR c * b)%R.
Proof.
  unfold channel_sum. rewrite fold_sum_affine, length_seq. reflexivity.
Qed.

(** The normalised values of one site sum to [c] times the shift. *)
Lemma layer_norm_entry_sum (scale shift eps0 : R) (c : nat) (xs : nat -> R) :
  (1 <= c)%nat ->
  channel_sum c (layer_norm_entry scale shift eps0 c xs) = (INR c * shift)%R.
Proof.
  intros Pc. unfold layer_norm_entry. cbv zeta.
  set (m := (channel_sum c xs / INR c)%R).
  set (s := sqrt _). clearbody s.
  rewrite (channel_sum_ext c _ (fun j => (scale * / s) * xs j
                                         + (shift - scale * m * / s))%R)
    by (intros j _; unfold Rdiv; ring).
  rewrite channel_sum_affine. unfold m.
  assert (INR c <> 0%R) by (apply not_0_INR; lia).
  unfold Rdiv. generalize (/ s)%R. intros t. field. assumption.
Qed.

Section Layers.

Variable W : Type.
Variable w0 : W.
Variable conv_impl : ConvSpec -> W -> NT -> result NT.
Variable group_norm_impl : Z -> Z -> W -> NT -> result NT.
Variable layer_norm_impl : NT -> list Z -> NT -> NT -> Q -> result NT.
Variable gelu_impl : NT -> NT.

#[local] Instance given_layers : Torch NT W :=
  torch W w0 conv_impl group_norm_impl layer_norm_impl gelu_impl.

(** X22.  The channels_first branch of [LayerNorm.forward] on a 5-D
    input [(n, c, d1, d2, d3)]: the result has the shape of the input
    and, at every position, the value
    [weight[j] * (x - mean) / sqrt(var + eps) + bias[j]], mean and
    (biased) variance taken over the [c] channels of that batch element
    and site. *)
Theorem layer_norm_channels_first_formula (ws bs : list R) (e : Q) (ns : list Z)
    (x : NT) (n c d1 d2 d3 : nat) :
  has_shape [n; c; d1; d2; d3] x -> positive [n; c; d1; d2; d3] ->
  List.length ws = c -> List.length bs = c ->
  exists y,
    LayerNorm_forward
      {| weight := Nd (map Sc ws); bias := Nd (map Sc bs); eps := e;
         data_format := channels_first; normalized_shape := ns |} x = Ok y /\
    has_shape [n; c; d1; d2; d3] y /\
    forall i j p q r,
      (i < n)%nat -> (j < c)%nat -> (p < d1)%nat -> (q < d2)%nat -> (r < d3)%nat ->
      get [i; j; p; q; r] y =
      layer_norm_entry (nth j ws 0%R) (nth j bs 0%R) (Q2R e) c
        (fun j' => get [i; j'; p; q; r] x) j.
Proof.
  apply LayerNorm_forward_3d_values.
Qed.

(** X23.  A freshly constructed channels_first [LayerNorm] (weight 1,
    bias 0) centres the channels: on a 5-D input the values it returns
    for one batch element and site sum to zero over the channels. *)
Theorem fresh_layer_norm_centres_channels (cz : Z) (e : Q)
    (x : NT) (n c d1 d2 d3 : nat) :
  Z.to_nat cz = c ->
  has_shape [n; c; d1; d2; d3] x -> positive [n; c; d1; d2; d3] ->
  exists ln y,
    LayerNorm_init cz e "channels_first" = Ok ln /\
    LayerNorm_forward ln x = Ok y /\
    has_shape [n; c; d1; d2; d3] y /\
    forall i p q r,
      (i < n)%nat -> (p < d1)%nat -> (q < d2)%nat -> (r < d3)%nat ->
      channel_sum c (fun j => get [i; j; p; q; r] y) = 0%R.
Proof.
  intros Ec Hx P.
  assert (Pc : (1 <= c)%nat)
    by (inversion P as [|? ? _ P']; inversion P'; assumption).
  destruct (LayerNorm_forward_3d_values W w0 conv_impl group_norm_impl
              layer_norm_impl gelu_impl (repeat 1%R c) (repeat 0%R c) e [cz]
              x n c d1 d2 d3 Hx P (repeat_length _ _) (repeat_length _ _))
    as (y & Ey & Hy & Hget).
  eexists. exists y. split; [|split; [|split]].
  - unfold LayerNorm_init. cbn [String.eqb Ascii.eqb Bool.eqb bind].
    reflexivity.
  - cbn [ones zeros given_layers torch map full]. rewrite Ec.
    rewrite !map_repeat in Ey. exact Ey.
  - exact Hy.
  - intros i p q r Hi Hp Hq Hr.
    rewrite (channel_sum_ext c _
               (layer_norm_entry 1 0 (Q2R e) c (fun j' => get [i; j'; p; q; r] x))).
    + rewrite layer_norm_entry_sum by exact Pc. ring.
    + intros j Hj. rewrite (Hget i j p q r Hi Hj Hp Hq Hr).
      rewrite !(nth_repeat_lt _ _ Hj). reflexivity.
Qed.

End Layers.

(** ** Instances *)

Lemma layer_norm_channels_first_formula_witness :
  exists y,
    @LayerNorm_forward NT unit demo_torch
      {| weight := Nd (map Sc [2; 3]%R); bias := Nd (map Sc [5; 7]%R);
         eps := 1 # 100000; data_format := channels_first;
         normalized_shape := [2] |}
      (full 1%R [1; 2; 2; 2; 2]%nat) = Ok y /\
    has_shape [1; 2; 2; 2; 2]%nat y /\
    forall i j p q r,
      (i < 1)%nat -> (j < 2)%nat -> (p < 2)%nat -> (q < 2)%nat -> (r < 2)%nat ->
      get [i; j; p; q; r] y =
      layer_norm_entry (nth j [2; 3]%R 0%R) (nth j [5; 7]%R 0%R)
        (Q2R (1 # 100000)) 2
        (fun j' => get [i; j'; p; q; r] (full 1%R [1; 2; 2; 2; 2]%nat)) j.
Proof.
  apply (layer_norm_channels_first_formula unit tt demo_conv demo_group_norm
           demo_layer_norm (fun x => x) [2; 3]%R [5; 7]%R (1 # 100000) [2]
           (full 1%R [1; 2; 2; 2; 2]%nat) 1 2 2 2 2).
  - apply full_has_shape.
  - repeat constructor.
  - reflexivity.
  - reflexivity.
Defined.

Lemma fresh_layer_norm_centres_channels_witness :
  exists ln y,
    @LayerNorm_init NT unit demo_torch 2 (1 # 100000) "channels_first" = Ok ln /\
    @LayerNorm_forward NT unit demo_torch ln (full 1%R [1; 2; 2; 2; 2]%nat)
      = Ok y /\
    has_shape [1; 2; 2; 2; 2]%nat y /\
    forall i p q r,
      (i < 1)%nat -> (p < 2)%nat -> (q < 2)%nat -> (r < 2)%nat ->
      channel_sum 2 (fun j => get [i; j; p; q; r] y) = 0%R.
Proof.
  apply (fresh_layer_norm_centres_channels unit tt demo_conv demo_group_norm
           demo_layer_norm (fun x => x) 2 (1 # 100000)
           (full 1%R [1; 2; 2; 2; 2]%nat) 1 2 2 2 2).
  - reflexivity.
  - apply full_has_shape.
  - repeat constructor.
Defined.

End NumericExtras.
